(** * GPTwm: the training scheduler of [twm/trainer.py]

    A shallow embedding of [Trainer.__init__], [Trainer.run],
    [Trainer._pretrain] and [Trainer._evaluate], followed by
    [Trainer._train_step], [Trainer._create_env_from_config],
    [Trainer._create_buffer_obs_policy], the dispatch and the annotation
    colours of [Trainer._create_eval_images], and [download_dataset] of
    [analysis/download_d4rl_datasets.py].

    Conventions.
    - Python integers are [Z]; the fractional quantities of the scheduler
      (budget fractions, [num_batches], [train_every], [step_counter],
      rewards and scores) are exact rationals [Q].
    - The scheduler is a state machine over an explicit state; every call
      into a collaborator (replay buffer, world model, actor-critic, logger,
      checkpoint writer) is recorded in order in an event trace.
    - [while] loops run on fuel; a loop that needs more iterations than it
      has fuel yields [OutOfFuel]. *)

From Stdlib Require Import ZArith QArith Qround Qminmax Qabs List Bool String
  Lia Lqa.
Import ListNotations.

Open Scope Z_scope.

(** ** Configuration *)

(** The keys of [config] read by the scheduler. *)
Record Config : Type := mkConfig {
  buffer_prefill : Z;
  pretrain_obs_p : Q;
  pretrain_dyn_p : Q;
  budget : Z;
  pretrain_budget : Z;
  wm_train_steps : Z;
  wm_batch_size : Z;
  wm_sequence_length : Z;
  ac_batch_size : Z;
  ac_horizon : Z;
  eval_every : Z;
  save_every : Z;
  save : bool;
  eval_episodes : Z;
  final_eval_episodes : Z;
  cpu_p : Q;
  env_suite : string;
  game : string
}.

(** ** Events *)

(** The two policies handed to [replay_buffer.step]: the uniform-random
    policy of the prefill and the policy built by
    [_create_buffer_obs_policy]. *)
Inductive policy : Type := random_policy | collect_policy.

(** Values stored in a checkpoint dictionary. *)
Inductive ckpt_value : Type :=
| CkConfig (c : Config)      (* dict(config) *)
| CkStateDict                (* self.agent.state_dict() *)
| CkSize (n : Z).            (* replay_buffer.size *)

Definition checkpoint : Type := list (string * ckpt_value).

Inductive event : Type :=
| EnvStep (p : policy)                 (* replay_buffer.step(p) *)
| BufferMetrics (sz : Z)               (* replay_buffer.metrics() *)
| SummarizerAppend                     (* self.summarizer.append(metrics) *)
| WandbLog                             (* wandb.log(self.summarizer.summarize()) *)
| PretrainObs (numel : Z)              (* wm.optimize_pretrain_obs *)
| EncodeAll                            (* obs_model.eval().encode(o) *)
| PretrainDyn (numel : Z)              (* wm.optimize_pretrain_dyn *)
| PretrainAC (numel : Z)               (* ac.optimize_pretrain *)
| SyncTarget                           (* ac.sync_target() *)
| Evaluate (is_final : bool)           (* self._evaluate(is_final) *)
| TrainStep                            (* self._train_step() *)
| Save (filename : string) (c : checkpoint).  (* torch.save; wandb.save *)

(** ** Results *)

Inductive exn : Type := ValueError | ZeroDivisionError.

(** A computation returns, raises (with the trace so far) or runs out of
    fuel. *)
Inductive result (A : Type) : Type :=
| Ok (a : A)
| Raise (e : exn) (tr : list event)
| OutOfFuel.
Arguments Ok {A} a.
Arguments Raise {A} e tr.
Arguments OutOfFuel {A}.

Definition bind {A B : Type} (m : result A) (k : A -> result B) : result B :=
  match m with
  | Ok a => k a
  | Raise e tr => Raise e tr
  | OutOfFuel => OutOfFuel
  end.

Notation "x <- m ;; k" := (bind m (fun x => k))
  (at level 61, m at next level, right associativity).

(** [while cond: body] *)
Fixpoint while {S : Type} (fuel : nat) (cond : S -> bool)
  (body : S -> result S) (s : S) : result S :=
  match fuel with
  | O => OutOfFuel
  | Datatypes.S n =>
      if cond s then s' <- body s ;; while n cond body s' else Ok s
  end.

(** Strict comparison on rationals. *)
Definition Qltb (x y : Q) : bool := negb (Qle_bool y x).

(** ** Construction *)

(** The two guards at the head of [Trainer.__init__]. *)
Definition init_checks (config : Config) : result unit :=
  if buffer_prefill config <=? 0 then Raise ValueError []
  else if Qltb 1 (pretrain_obs_p config + pretrain_dyn_p config)
       then Raise ValueError []
       else Ok tt.

(** ** Replay buffer *)

(** [replay_buffer.py] is not among the sources.  The scheduler reaches the
    store through the operations below, which are kept abstract; an index
    batch yielded by [generate_uniform_indices] is represented by its shape
    [(rows, columns)]. *)
Class ReplayBuffer (B : Type) : Type := {
  rb_new : Config -> B;                 (* ReplayBuffer(config, env) *)
  size : B -> Z;
  capacity : B -> Z;
  step : policy -> B -> B;
  generate_uniform_indices : B -> Z -> Z -> Z -> list (Z * Z)
}.

(** Modelled from the spec: the store is created empty, and each call to its
    step operation appends exactly one transition, leaving the capacity as
    it is. *)
Class ReplayBufferSpec (B : Type) `{ReplayBuffer B} : Prop := {
  rb_new_empty : forall c, size (rb_new c) = 0;
  step_size : forall p b, size (step p b) = size b + 1;
  step_capacity : forall p b, capacity (step p b) = capacity b
}.

(** Modelled from the spec: a store reduced to its size and capacity.  Each
    step appends one transition; a sweep of [generate_uniform_indices]
    yields [size / (batch * length)] batches, and [extra] widens each
    window, a batch having shape [(batch, length + extra)]. *)
Record counter_buffer : Type := mkCounter { cb_size : Z; cb_capacity : Z }.

Definition counter_sweep (b : counter_buffer) (batch len extra : Z)
  : list (Z * Z) :=
  repeat (batch, len + extra) (Z.to_nat (cb_size b / (batch * len))).

Definition CounterBuffer (cap : Z) : ReplayBuffer counter_buffer := {|
  rb_new := fun _ => mkCounter 0 cap;
  size := cb_size;
  capacity := cb_capacity;
  step := fun _ b => mkCounter (cb_size b + 1) (cb_capacity b);
  generate_uniform_indices := counter_sweep
|}.

(** ** Python slices *)

(** [len(x[:k])] and [len(x[k:])] for [len(x) = n]. *)
Definition slice_to (n k : Z) : Z :=
  if 0 <=? k then Z.min k n else Z.max (n + k) 0.

Definition slice_from (n k : Z) : Z :=
  if 0 <=? k then Z.max (n - k) 0 else Z.min (- k) n.

(** [idx[:, :-2].numel()] for [idx] of the given shape. *)
Definition numel_trim2 (shape : Z * Z) : Z :=
  fst shape * slice_to (snd shape) (-2).

(** ** The scheduler *)

Section Scheduler.

Context {B : Type} `{RB : ReplayBuffer B}.

(** The fields of a [Trainer] the scheduler reads and writes, and the trace
    of its calls. *)
Record Trainer : Type := mkTrainer {
  config : Config;
  replay_buffer : B;
  last_eval : Z;
  trace : list event
}.

Definition emit (e : event) (t : Trainer) : Trainer :=
  mkTrainer (config t) (replay_buffer t) (last_eval t) (trace t ++ [e]).

(** [Trainer.__init__] *)
Definition Trainer_init (config : Config) : result Trainer :=
  _ <- init_checks config ;;
  Ok (mkTrainer config (rb_new config) 0 []).

(** [replay_buffer.step(policy)] *)
Definition buffer_step (p : policy) (t : Trainer) : Trainer :=
  mkTrainer (config t) (step p (replay_buffer t)) (last_eval t)
            (trace t ++ [EnvStep p]).

(** [utils.update_metrics(metrics, replay_buffer.metrics(), prefix='buffer/')] *)
Definition buffer_metrics (t : Trainer) : Trainer :=
  emit (BufferMetrics (size (replay_buffer t))) t.

Definition log_every : Z := 20.

(** The effect of [self._evaluate(is_final)] on the scheduler: the call is
    recorded and [self.last_eval] becomes the current size. *)
Definition call_evaluate (is_final : bool) (t : Trainer) : Trainer :=
  mkTrainer (config t) (replay_buffer t) (size (replay_buffer t))
            (trace t ++ [Evaluate is_final]).

(** *** Prefill (lines 144-157) *)

Definition prefill_body (t : Trainer) : Trainer :=
  let t := buffer_step random_policy t in
  let t := buffer_metrics t in
  let t := emit SummarizerAppend t in
  if size (replay_buffer t) mod log_every =? 0 then emit WandbLog t else t.

Definition prefill (t : Trainer) : Trainer :=
  let t := Nat.iter (Z.to_nat (buffer_prefill (config t) - 1)) prefill_body t in
  (* final prefill step *)
  let t := buffer_step random_policy t in
  buffer_metrics t.

(** *** Pretraining (lines 240-313) *)

(** State of a budgeted sweep: the remaining budget, the number of indices
    left in the current permutation, and the trainer. *)
Record sweep : Type := mkSweep {
  sw_budget : Q;
  sw_indices : Z;
  sw_self : Trainer
}.

(** [while len(indices) > 0 and budget > 0] *)
Definition obs_inner_cond (s : sweep) : bool :=
  (0 <? sw_indices s) && Qltb 0 (sw_budget s).

Definition obs_inner_body (batch : Z) (s : sweep) : result sweep :=
  let idx := slice_to (sw_indices s) batch in
  let indices := slice_from (sw_indices s) batch in
  let t := emit (PretrainObs idx) (sw_self s) in
  Ok (mkSweep (sw_budget s - inject_Z idx) indices t).

(** [while budget > 0] *)
Definition budget_cond (s : sweep) : bool := Qltb 0 (sw_budget s).

Definition obs_outer_body (fuel : nat) (batch : Z) (s : sweep) : result sweep :=
  let s := mkSweep (sw_budget s) (size (replay_buffer (sw_self s))) (sw_self s) in
  while fuel obs_inner_cond (obs_inner_body batch) s.

Definition pretrain_obs (fuel : nat) (t : Trainer) : result Trainer :=
  let config := config t in
  let wm_total_batch_size := wm_batch_size config * wm_sequence_length config in
  let budget := (inject_Z (pretrain_budget config) * pretrain_obs_p config)%Q in
  s <- while fuel budget_cond (obs_outer_body fuel wm_total_batch_size)
         (mkSweep budget 0 t) ;;
  Ok (sw_self s).

(** [for idx in replay_buffer.generate_uniform_indices(...)] with its
    [break]; [opt] is the optimize call made on each batch. *)
Fixpoint sweep_for (opt : Z -> event) (batches : list (Z * Z))
  (budget : Q) (t : Trainer) : Q * Trainer :=
  match batches with
  | [] => (budget, t)
  | idx :: rest =>
      let n := numel_trim2 idx in
      let t := emit (opt n) t in
      let budget := (budget - inject_Z n)%Q in
      if Qle_bool budget 0 then (budget, t)
      else sweep_for opt rest budget t
  end.

Definition sweep_body (opt : Z -> event) (batch len : Z) (s : sweep)
  : result sweep :=
  let batches :=
    generate_uniform_indices (replay_buffer (sw_self s)) batch len 2 in
  let '(budget, t) := sweep_for opt batches (sw_budget s) (sw_self s) in
  Ok (mkSweep budget (sw_indices s) t).

Definition pretrain_dyn (fuel : nat) (t : Trainer) : result Trainer :=
  let config := config t in
  let budget := (inject_Z (pretrain_budget config) * pretrain_dyn_p config)%Q in
  s <- while fuel budget_cond
         (sweep_body PretrainDyn (wm_batch_size config) (wm_sequence_length config))
         (mkSweep budget 0 t) ;;
  Ok (sw_self s).

(** The budget of the actor-critic sweep, as line 289 computes it. *)
Definition pretrain_ac_budget (config : Config) : Q :=
  (inject_Z (pretrain_budget config)
   * (1 - pretrain_obs_p config + pretrain_dyn_p config))%Q.

Definition pretrain_ac (fuel : nat) (t : Trainer) : result Trainer :=
  let config := config t in
  let budget := pretrain_ac_budget config in
  s <- while fuel budget_cond
         (sweep_body PretrainAC (ac_batch_size config) (ac_horizon config))
         (mkSweep budget 0 t) ;;
  Ok (emit SyncTarget (sw_self s)).

Definition _pretrain (fuel : nat) (t : Trainer) : result Trainer :=
  t <- pretrain_obs fuel t ;;
  let t := emit EncodeAll t in
  t <- pretrain_dyn fuel t ;;
  pretrain_ac fuel t.

(** *** Budget arithmetic (lines 167-172) *)

(** Python's [/] on numbers: a true division that raises on a zero
    divisor. *)
Definition py_div (tr : list event) (x y : Q) : result Q :=
  if Qeq_bool y 0 then Raise ZeroDivisionError tr else Ok (x / y)%Q.

Definition budget_per_step (config : Config) : Z :=
  wm_train_steps config * wm_batch_size config * wm_sequence_length config
  + ac_batch_size config * ac_horizon config.

Definition num_batches (t : Trainer) : result Q :=
  let budget := budget (config t) - pretrain_budget (config t) in
  py_div (trace t) (inject_Z budget) (inject_Z (budget_per_step (config t))).

Definition train_every (t : Trainer) : result Q :=
  n <- num_batches t ;;
  py_div (trace t)
    (inject_Z (capacity (replay_buffer t) - buffer_prefill (config t))) n.

(** *** Main loop (lines 174-225) *)

(** The locals of [run] that live across the main loop. *)
Record loop : Type := mkLoop {
  self : Trainer;
  step_counter : Q;
  should_log : bool
}.

Definition below_capacity (t : Trainer) : bool :=
  size (replay_buffer t) <? capacity (replay_buffer t).

(** [while step_counter <= train_every and size < capacity] *)
Definition collect_cond (train_every : Q) (l : loop) : bool :=
  Qle_bool (step_counter l) train_every && below_capacity (self l).

Definition collect_body (l : loop) : result loop :=
  let t := self l in
  let t :=
    if eval_every (config t) <=? size (replay_buffer t) - last_eval t then
      let t := call_evaluate false t in
      let t := buffer_metrics t in
      let t := emit SummarizerAppend t in
      emit WandbLog t
    else t in
  let t := buffer_step collect_policy t in
  let step_counter := (step_counter l + 1)%Q in
  let should_log :=
    if size (replay_buffer t) mod log_every =? 0 then true else should_log l in
  Ok (mkLoop t step_counter should_log).

(** [while step_counter >= train_every] *)
Definition train_cond (train_every : Q) (l : loop) : bool :=
  Qle_bool train_every (step_counter l).

Definition train_body (train_every : Q) (l : loop) : result loop :=
  let step_counter := (step_counter l - train_every)%Q in
  let t := emit TrainStep (self l) in
  Ok (mkLoop t step_counter (should_log l)).

(** The checkpoint dictionary of lines 223 and 236. *)
Definition make_checkpoint (t : Trainer) : checkpoint :=
  [("config"%string, CkConfig (config t));
   ("state_dict"%string, CkStateDict);
   ("size"%string, CkSize (size (replay_buffer t)))].

(** Lines 220-225. *)
Definition periodic_save (t : Trainer) : Trainer :=
  if save (config t)
     && (save_every (config t) <=? size (replay_buffer t) - last_eval t)
     && below_capacity t
  then emit (Save "agent.pt" (make_checkpoint t)) t
  else t.

(** [while replay_buffer.size < replay_buffer.capacity] *)
Definition main_cond (l : loop) : bool := below_capacity (self l).

Definition main_body (fuel : nat) (train_every : Q) (l : loop) : result loop :=
  let l := mkLoop (self l) (step_counter l) false in
  (* collect data in real environment *)
  l <- while fuel (collect_cond train_every) collect_body l ;;
  (* train world model and actor-critic *)
  l <- while fuel (train_cond train_every) (train_body train_every) l ;;
  let t := buffer_metrics (self l) in
  (* evaluate *)
  let '(t, should_log) :=
    if (eval_every (config t) <=? size (replay_buffer t) - last_eval t)
       && below_capacity t
    then (call_evaluate false t, true)
    else (t, should_log l) in
  let t := emit SummarizerAppend t in
  let t := if should_log then emit WandbLog t else t in
  Ok (mkLoop (periodic_save t) (step_counter l) should_log).

Definition main_loop (fuel : nat) (train_every : Q) (t : Trainer)
  : result Trainer :=
  l <- while fuel main_cond (main_body fuel train_every) (mkLoop t 0 false) ;;
  Ok (self l).

(** Lines 227-238. *)
Definition final_save (t : Trainer) : Trainer :=
  if save (config t)
  then emit (Save "agent_final.pt" (make_checkpoint t)) t
  else t.

(** *** [Trainer.run] *)

(** Lines 140-165: prefill, pretraining and the first evaluation. *)
Definition run_prologue (fuel : nat) (t : Trainer) : result Trainer :=
  let t := mkTrainer (config t) (replay_buffer t) 0 (trace t) in
  let t := prefill t in
  t <- _pretrain fuel t ;;
  let t := call_evaluate false t in
  let t := emit SummarizerAppend t in
  Ok (emit WandbLog t).

Definition run (fuel : nat) (t : Trainer) : result Trainer :=
  t <- run_prologue fuel t ;;
  train_every <- train_every t ;;
  t <- main_loop fuel train_every t ;;
  (* final evaluation *)
  let t := call_evaluate true t in
  let t := buffer_metrics t in
  let t := emit SummarizerAppend t in
  let t := emit WandbLog t in
  (* save final model *)
  Ok (final_save t).

End Scheduler.

Arguments Trainer B : clear implicits.
Arguments loop B : clear implicits.
Arguments sweep B : clear implicits.

(** ** Evaluation (lines 384-452) *)

(** What one call of the vectorized [eval_env.step] returns, the
    observations apart: per-environment rewards and flags, and the ['lives']
    entry of [infos] when there is one. *)
Record step_result : Type := mkStep {
  rewards : list Q;
  terminated : list bool;
  truncated : list bool;
  info_lives : option (list Z)
}.

Inductive eval_event : Type :=
| EvalStep                         (* eval_env.step(a) *)
| RoundScores (cs : list Q)        (* scores.extend(current_scores.tolist()) *)
| EvalReset (finished : list bool).
  (* eval_env.reset(seed, options={'force': True}), with the flags that
     [np.all(finished)] has just tested *)

(** The locals of the evaluation loop; [clock] counts the calls of
    [eval_env.step]. *)
Record eval_state : Type := mkEval {
  scores : list Q;
  current_scores : list Q;
  finished : list bool;
  num_truncated : Z;
  clock : nat;
  eval_trace : list eval_event
}.

(** [int(x)] on a number: truncation toward zero. *)
Definition py_int (x : Q) : Z := Z.quot (Qnum x) (Zpos (Qden x)).

(** [infos.get('lives', np.zeros_like(r))] *)
Definition lives_of (o : step_result) : list Z :=
  match info_lives o with
  | Some l => l
  | None => map (fun _ => 0) (rewards o)
  end.

(** The test of lines 410-414 on environment [i]. *)
Definition finishes (o : step_result) (i : nat) : bool :=
  if nth i (truncated o) false then true
  else nth i (terminated o) false && (nth i (lives_of o) 0 =? 0).

(** [current_scores[not_finished] += r[not_finished]] *)
Definition add_rewards (num_envs : nat) (cs : list Q) (fin : list bool)
  (r : list Q) : list Q :=
  map (fun i => if nth i fin false then nth i cs 0%Q
                else (nth i cs 0 + nth i r 0)%Q)
      (seq 0 num_envs).

(** The [for i in range(num_envs)] loop of lines 408-414, on the flags. *)
Definition mark_finished (num_envs : nat) (fin : list bool) (o : step_result)
  : list bool :=
  map (fun i => if nth i fin false then true else finishes o i)
      (seq 0 num_envs).

(** The same loop, on [num_truncated]. *)
Definition count_truncated (num_envs : nat) (fin : list bool)
  (o : step_result) : Z :=
  Z.of_nat (List.length
    (filter (fun i => negb (nth i fin false) && nth i (truncated o) false)
            (seq 0 num_envs))).

(** [np.all(finished)] *)
Definition np_all (l : list bool) : bool := forallb (fun b => b) l.

Fixpoint insert_sorted (x : Q) (l : list Q) : list Q :=
  match l with
  | [] => [x]
  | y :: l' => if Qle_bool x y then x :: l else y :: insert_sorted x l'
  end.

Definition sort_scores (l : list Q) : list Q := fold_right insert_sorted [] l.

Definition np_sum (l : list Q) : Q := fold_right Qplus 0%Q l.

Definition np_mean (l : list Q) : Q :=
  (np_sum l / inject_Z (Z.of_nat (List.length l)))%Q.

(** The square of [np.std]: the population variance. *)
Definition np_var (l : list Q) : Q :=
  let m := np_mean l in
  np_mean (map (fun x => ((x - m) * (x - m))%Q) l).

Definition np_median (l : list Q) : Q :=
  let s := sort_scores l in
  let n := List.length s in
  if Nat.even n
  then ((nth (n / 2 - 1) s 0 + nth (n / 2) s 0) / 2)%Q
  else nth (n / 2) s 0%Q.

Definition np_min (l : list Q) : Q :=
  match l with [] => 0%Q | x :: l' => fold_left Qmin l' x end.

Definition np_max (l : list Q) : Q :=
  match l with [] => 0%Q | x :: l' => fold_left Qmax l' x end.

(** [score_metrics]; the standard deviation is carried by its square, a
    rational. *)
Record score_metrics : Type := mkScores {
  score_mean : Q;
  score_var : Q;
  score_median : Q;
  score_min : Q;
  score_max : Q;
  hns : Q
}.

Section Evaluate.

(** [multiprocessing.cpu_count()], [utils.compute_atari_hns] and the
    responses of the vectorized environment to the successive calls of
    [eval_env.step]. *)
Variable cpu_count : Z.
Variable compute_atari_hns : string -> Q -> Q.
Variable eval_env : nat -> step_result.

Definition num_episodes_of (config : Config) (is_final : bool) : Z :=
  if is_final then final_eval_episodes config else eval_episodes config.

Definition num_envs_of (config : Config) (num_episodes : Z) : Z :=
  Z.max (Z.min num_episodes (py_int (inject_Z cpu_count * cpu_p config))) 1.

(** One pass through the body of [while len(scores) < num_episodes]; the
    boolean tells whether the pass left the loop through [break]. *)
Definition eval_body (num_episodes : Z) (num_envs : nat) (s : eval_state)
  : bool * eval_state :=
  let o := eval_env (clock s) in
  let tr := eval_trace s ++ [EvalStep] in
  let current := add_rewards num_envs (current_scores s) (finished s) (rewards o) in
  let truncs := num_truncated s + count_truncated num_envs (finished s) o in
  let fin := mark_finished num_envs (finished s) o in
  let clk := Datatypes.S (clock s) in
  if np_all fin then
    let scores := scores s ++ current in
    let tr := tr ++ [RoundScores current] in
    let num_scores := Z.of_nat (List.length scores) in
    if num_episodes <=? num_scores then
      let scores :=
        if num_episodes <? num_scores
        then firstn (Z.to_nat num_episodes) scores
        else scores in
      (true, mkEval scores current fin truncs clk tr)
    else
      (false,
       mkEval scores (map (fun _ => 0%Q) current) (map (fun _ => false) fin)
              truncs clk (tr ++ [EvalReset fin]))
  else (false, mkEval (scores s) current fin truncs clk tr).

Fixpoint eval_loop (fuel : nat) (num_episodes : Z) (num_envs : nat)
  (s : eval_state) : result eval_state :=
  match fuel with
  | O => OutOfFuel
  | Datatypes.S n =>
      if Z.of_nat (List.length (scores s)) <? num_episodes then
        let '(broke, s') := eval_body num_episodes num_envs s in
        if broke then Ok s' else eval_loop n num_episodes num_envs s'
      else Ok s
  end.

(** Lines 443-451; [np.min] raises on an empty list. *)
Definition aggregate (config : Config) (scores : list Q) : result score_metrics :=
  match scores with
  | [] => Raise ValueError []
  | _ =>
      let mean := np_mean scores in
      Ok (mkScores mean (np_var scores) (np_median scores)
                   (np_min scores) (np_max scores)
                   (if String.eqb (env_suite config) "atari"
                    then compute_atari_hns (game config) mean else mean))
  end.

(** The scoring part of [_evaluate]: the final loop state and the score
    metrics. *)
Definition _evaluate (fuel : nat) (config : Config) (is_final : bool)
  : result (eval_state * score_metrics) :=
  let num_episodes := num_episodes_of config is_final in
  let num_envs := Z.to_nat (num_envs_of config num_episodes) in
  s <- eval_loop fuel num_episodes num_envs
         (mkEval [] (repeat 0%Q num_envs) (repeat false num_envs) 0 0 []) ;;
  m <- aggregate config (scores s) ;;
  Ok (s, m).

End Evaluate.

(** ** Observations on traces *)

Definition is_env_step (e : event) : bool :=
  match e with EnvStep _ => true | _ => false end.

Definition is_collect_step (e : event) : bool :=
  match e with EnvStep collect_policy => true | _ => false end.

Definition is_train_step (e : event) : bool :=
  match e with TrainStep => true | _ => false end.


Definition is_sync_target (e : event) : bool :=
  match e with SyncTarget => true | _ => false end.

Definition is_save (e : event) : bool :=
  match e with Save _ _ => true | _ => false end.

(** A call made by the main loop on the environment or on the models. *)
Definition is_main_loop_call (e : event) : bool :=
  is_collect_step e || is_train_step e.

Definition count (p : event -> bool) (tr : list event) : Z :=
  Z.of_nat (List.length (filter p tr)).

(** Number of calls of [replay_buffer.step], of calls under the collection
    policy, and of training rounds. *)
Definition env_steps (tr : list event) : Z := count is_env_step tr.
Definition collect_steps (tr : list event) : Z := count is_collect_step tr.
Definition train_rounds (tr : list event) : Z := count is_train_step tr.

(** Samples consumed by each pretraining sweep. *)
Definition obs_samples (tr : list event) : Z :=
  fold_right (fun e a => match e with PretrainObs n => n + a | _ => a end) 0 tr.
Definition dyn_samples (tr : list event) : Z :=
  fold_right (fun e a => match e with PretrainDyn n => n + a | _ => a end) 0 tr.
Definition ac_samples (tr : list event) : Z :=
  fold_right (fun e a => match e with PretrainAC n => n + a | _ => a end) 0 tr.

(** The checkpoints written, with their file names. *)
Definition saves (tr : list event) : list (string * checkpoint) :=
  flat_map (fun e => match e with Save f c => [(f, c)] | _ => [] end) tr.

(** The scores of the completed rounds of an evaluation, in order. *)
Definition round_scores (tr : list eval_event) : list Q :=
  flat_map (fun e => match e with RoundScores cs => cs | _ => [] end) tr.

Definition reset_after_all_finished (e : eval_event) : Prop :=
  match e with EvalReset fin => np_all fin = true | _ => True end.

(** ** Example configurations *)

(** A configuration with the given prefill, pretraining budget and
    fractions, total budget, evaluation and checkpoint periods. *)
Definition scenario (prefill pretrain total : Z) (obs_p dyn_p : Q)
  (eval_every save_every : Z) (save : bool) : Config :=
  mkConfig prefill obs_p dyn_p total pretrain 1 2 5 2 5
           eval_every save_every save 3 5 (1 # 2) "atari" "Pong".

(** ** Invariants *)

(** The checkpoint dictionary of a configuration and a store size. *)
Definition checkpoint_of (config : Config) (n : Z) : checkpoint :=
  [("config"%string, CkConfig config);
   ("state_dict"%string, CkStateDict);
   ("size"%string, CkSize n)].

(** [located P n evs]: each event of [evs] satisfies [P] at the size the
    store has when the event happens, [n] being the size before [evs]. *)
Fixpoint located (P : Z -> event -> Prop) (n : Z) (evs : list event) : Prop :=
  match evs with
  | [] => True
  | e :: evs' =>
      P n e /\ located P (if is_env_step e then n + 1 else n) evs'
  end.

(** [t'] is [t] after further calls, all satisfying [P]: same configuration
    and capacity, and a store grown by the steps taken. *)
Definition extends {B : Type} `{ReplayBuffer B} (P : Z -> event -> Prop)
  (t t' : Trainer B) : Prop :=
  config t' = config t
  /\ capacity (replay_buffer t') = capacity (replay_buffer t)
  /\ exists evs,
       trace t' = trace t ++ evs
       /\ located P (size (replay_buffer t)) evs
       /\ size (replay_buffer t') = size (replay_buffer t) + env_steps evs.

(** The calls of the prefill phase. *)
Definition prefill_call (n : Z) (e : event) : Prop :=
  match e with
  | EnvStep p => p = random_policy
  | BufferMetrics k => k = n
  | SummarizerAppend | WandbLog => True
  | _ => False
  end.

(** The optimize and encode calls of the pretraining phase. *)
Definition is_pretrain_call (e : event) : bool :=
  match e with
  | PretrainObs _ | EncodeAll | PretrainDyn _ | PretrainAC _ => true
  | _ => false
  end.

(** [t'] is [t] after further calls, all satisfying [P], that leave the
    store and the scheduler's fields as they are. *)
Definition calls_only {B : Type} (P : event -> bool) (t t' : Trainer B) : Prop :=
  config t' = config t
  /\ replay_buffer t' = replay_buffer t
  /\ last_eval t' = last_eval t
  /\ exists evs, trace t' = trace t ++ evs /\ forallb P evs = true.

(** The calls of the main loop under configuration [config] on a store of
    capacity [cap]. *)
Definition main_call (config : Config) (cap : Z) (n : Z) (e : event) : Prop :=
  match e with
  | EnvStep p => p = collect_policy /\ n < cap
  | Evaluate is_final => is_final = false
  | BufferMetrics k => k = n
  | SummarizerAppend | WandbLog | TrainStep => True
  | Save f c =>
      f = "agent.pt"%string /\ save config = true /\ n < cap
      /\ c = checkpoint_of config n
  | _ => False
  end.


(** The calls of [replay_buffer.step] and [replay_buffer.metrics] of a
    trace, in order. *)
Definition steps_and_metrics (tr : list event) : list event :=
  filter (fun e => match e with
                   | EnvStep _ | BufferMetrics _ => true
                   | _ => false
                   end) tr.

(** [k] steps under the random policy from size [n], each followed by the
    buffer metrics. *)
Definition prefill_record (n : Z) (k : nat) : list event :=
  flat_map (fun i => [EnvStep random_policy; BufferMetrics (n + Z.of_nat i + 1)])
           (seq 0 k).

(** The calls made before the main loop: prefill, pretraining, target
    synchronisation and the first evaluation. *)
Definition prologue_call (n : Z) (e : event) : Prop :=
  match e with
  | EnvStep p => p = random_policy
  | BufferMetrics k => k = n
  | SummarizerAppend | WandbLog => True
  | PretrainObs _ | EncodeAll | PretrainDyn _ | PretrainAC _ => True
  | SyncTarget => True
  | Evaluate is_final => is_final = false
  | _ => False
  end.


(** A checkpoint is written only with [save] enabled, as ["agent.pt"] below
    capacity or as ["agent_final.pt"], and holds the configuration, the
    parameters and the size of the store at that moment. *)
Definition checkpoint_call (config : Config) (cap : Z) (n : Z) (e : event)
  : Prop :=
  match e with
  | Save f c =>
      save config = true
      /\ ((f = "agent.pt"%string /\ n < cap) \/ f = "agent_final.pt"%string)
      /\ c = [("config"%string, CkConfig config);
              ("state_dict"%string, CkStateDict);
              ("size"%string, CkSize n)]
  | _ => True
  end.

(** The size recorded in a checkpoint. *)
Definition checkpoint_size (c : checkpoint) : option Z :=
  match c with
  | [_; _; (_, CkSize n)] => Some n
  | _ => None
  end.

(** The file names and recorded sizes of the checkpoints written. *)
Definition saved_at (tr : list event) : list (string * option Z) :=
  map (fun fc => (fst fc, checkpoint_size (snd fc))) (saves tr).

Definition is_pretrain_ac (e : event) : bool :=
  match e with PretrainAC _ => true | _ => false end.

(** A sweep of index batches makes progress: no batch has a negative
    number of elements and at least one has a positive number. *)
Definition productive (batches : list (Z * Z)) : bool :=
  forallb (fun idx => 0 <=? numel_trim2 idx) batches
  && existsb (fun idx => 0 <? numel_trim2 idx) batches.

(** The budget of the actor-critic sweep in the words of the spec: the
    share of [pretrain_budget] left by the two other sweeps. *)
Definition pretrain_ac_budget_spec (config : Config) : Q :=
  (inject_Z (pretrain_budget config)
   * (1 - pretrain_obs_p config - pretrain_dyn_p config))%Q.

(** The store sizes at which the non-final evaluations of a trace are made,
    the trace starting at size [n]. *)
Fixpoint eval_sizes (n : Z) (tr : list event) : list Z :=
  match tr with
  | [] => []
  | e :: tr' =>
      (match e with Evaluate false => [n] | _ => [] end)
      ++ eval_sizes (if is_env_step e then n + 1 else n) tr'
  end.

(** Consecutive elements lie at least [d] apart. *)
Fixpoint gaps_at_least (d : Z) (l : list Z) : Prop :=
  match l with
  | a :: (b :: _) as l' => d <= b - a /\ gaps_at_least d l'
  | _ => True
  end.

(** The store holds one transition per step of the trace, and the
    non-final evaluations so far, the first at size [first] and the latest
    at [last_eval], lie at least [eval_every] apart. *)
Definition evaluations_spaced {B : Type} `{ReplayBuffer B} (first : Z)
  (x : Trainer B) : Prop :=
  size (replay_buffer x) = env_steps (trace x)
  /\ exists pre,
       eval_sizes 0 (trace x) = pre ++ [last_eval x]
       /\ gaps_at_least (eval_every (config x)) (pre ++ [last_eval x])
       /\ hd 0 (pre ++ [last_eval x]) = first.

Definition is_pretrain_obs (e : event) : bool :=
  match e with PretrainObs _ => true | _ => false end.

Definition is_pretrain_dyn (e : event) : bool :=
  match e with PretrainDyn _ => true | _ => false end.

(** A sweep with the given budget and batches of at most [batch] samples
    has drawn [samples] samples: with a positive budget, at least the
    budget and less than one batch more; otherwise none. *)
Definition sweep_consumes (budget : Q) (batch samples : Z) : Prop :=
  if Qltb 0 budget
  then (budget <= inject_Z samples < budget + inject_Z batch)%Q
  else samples = 0.

(** Every batch of a sweep holds between 0 and [m] samples. *)
Definition batches_within (m : Z) (batches : list (Z * Z)) : bool :=
  forallb (fun idx => (0 <=? numel_trim2 idx) && (numel_trim2 idx <=? m))
          batches.

(** Counting the calls of an evaluation. *)
Definition is_eval_step (e : eval_event) : bool :=
  match e with EvalStep => true | _ => false end.

Definition is_round_scores (e : eval_event) : bool :=
  match e with RoundScores _ => true | _ => false end.

Definition is_eval_reset (e : eval_event) : bool :=
  match e with EvalReset _ => true | _ => false end.

Definition eval_count (p : eval_event -> bool) (tr : list eval_event) : Z :=
  Z.of_nat (List.length (filter p tr)).

(** The state of the evaluation loop after [k] completed rounds that did
    not yet give [num_episodes] scores: [k] rounds of [num_envs] scores
    each, as many resets, and one recorded step per tick of the clock. *)
Definition rounds_done (num_envs : nat) (k : Z) (s : eval_state) : Prop :=
  0 <= k
  /\ Z.of_nat (List.length (scores s)) = k * Z.of_nat num_envs
  /\ Z.of_nat (List.length (round_scores (eval_trace s))) = k * Z.of_nat num_envs
  /\ eval_count is_round_scores (eval_trace s) = k
  /\ eval_count is_eval_reset (eval_trace s) = k
  /\ eval_count is_eval_step (eval_trace s) = Z.of_nat (clock s).

(** * The rest of [twm/trainer.py] *)

(** ** Python exceptions *)

Module Py.

Inductive error : Type :=
| ValueError
| NotImplementedError (msg : string)
| UnboundLocalError (name : string)
| KeyError (key : string)
| IndexError.

End Py.

(** [range(n)] *)
Definition py_range (n : Z) : list nat := seq 0 (Z.to_nat n).

(** ** One training round: [_train_step] (lines 315-361) *)

Inductive train_event : Type :=
| SampleIndices (batch len : Z)  (* replay_buffer.sample_indices(batch, len) *)
| WmOptimize (i : nat)           (* wm.optimize on the batch of iteration i *)
| RandomChoice (n : Z)           (* utils.random_choice(start_z.shape[0], n) *)
| ImagineReset (i : nat)
    (* dreamer.imagine_reset on starts cut from z, a, r, ... of iteration i *)
| DreamerAct                     (* dreamer.act() *)
| ImagineStep                    (* dreamer.imagine_step(a) *)
| AcOptimize (with_dones : bool).
    (* ac.optimize(z, h, a, r, g, d, weights); [d] is [None] when
       [wm_discount_threshold == 0] *)

(** The names that outlive the first loop: [metrics_i] and [z, a, r, ...]
    are bound by the latest iteration, and unbound before the first. *)
Record train_locals : Type := mkLocals {
  tl_trace : list train_event;
  tl_last : option nat
}.

Definition wm_iteration (config : Config) (l : train_locals) (i : nat)
  : train_locals :=
  mkLocals (tl_trace l
            ++ [SampleIndices (wm_batch_size config) (wm_sequence_length config);
                WmOptimize i])
           (Some i).

Definition imagine_iteration (tr : list train_event) (_ : nat)
  : list train_event :=
  tr ++ [DreamerAct; ImagineStep].

(** The metrics returned: the world-model metrics of one iteration, and the
    actor-critic metrics. *)
Record train_metrics : Type := mkTrainMetrics {
  wm_metrics_of : nat;
  ac_metrics : bool
}.

Definition _train_step (config : Config) (wm_discount_threshold : Q)
  : list train_event * (Py.error + train_metrics) :=
  (* train wm *)
  let l := fold_left (wm_iteration config) (py_range (wm_train_steps config))
                     (mkLocals [] None) in
  (* metrics = metrics_i *)
  match tl_last l with
  | None => (tl_trace l, inl (Py.UnboundLocalError "metrics_i"))
  | Some i =>
      (* train actor-critic *)
      let tr := tl_trace l ++ [RandomChoice (ac_batch_size config);
                               ImagineReset i] in
      let tr := fold_left imagine_iteration (py_range (ac_horizon config)) tr in
      let d := negb (Qeq_bool wm_discount_threshold 0) in
      (tr ++ [AcOptimize d], inr (mkTrainMetrics i true))
  end.

(** The samples a training round asks for: the index windows of the
    world-model batches, and one sample per imagination start and
    imagination step. *)
Definition wm_samples (tr : list train_event) : Z :=
  fold_right (fun e a => match e with SampleIndices b l => b * l + a | _ => a end)
             0 tr.

Definition imagine_starts (tr : list train_event) : Z :=
  fold_right (fun e a => match e with RandomChoice n => n + a | _ => a end) 0 tr.

Definition imagine_steps (tr : list train_event) : Z :=
  Z.of_nat (List.length
    (filter (fun e => match e with ImagineStep => true | _ => false end) tr)).

Definition train_samples (tr : list train_event) : Z :=
  wm_samples tr + imagine_starts tr * imagine_steps tr.

(** ** Environments: [_create_env_from_config] (lines 62-81) *)

(** The keys of [config] handed on to the environment constructors. *)
Record EnvConfig : Type := mkEnvConfig {
  env_noop_max : Z;
  env_frame_skip : Z;
  env_frame_stack : Z;
  env_frame_size : Z;
  env_episodic_lives : bool;
  env_grayscale : bool;
  env_time_limit : Z;
  env_render_mode : string
}.

(** The environments [utils] builds, by constructor call. *)
Inductive env : Type :=
| create_atari_env (game : string) (noop_max frame_skip frame_stack
                    frame_size : Z) (episodic_lives grayscale : bool)
                   (time_limit : Z)
| create_d4rl_env (game render_mode : string)
| create_d3rl_env (game render_mode : string)
                  (frame_stack max_episode_steps : Z)
| NoAutoReset (e : env).

Definition _create_env_from_config (config : Config) (ec : EnvConfig)
  (eval : bool) : Py.error + env :=
  let made :=
    if String.eqb (env_suite config) "atari" then
      let noop_max := if eval then 0 else env_noop_max ec in
      inr (create_atari_env (game config) noop_max (env_frame_skip ec)
             (env_frame_stack ec) (env_frame_size ec)
             (env_episodic_lives ec) (env_grayscale ec) (env_time_limit ec))
    else if String.eqb (env_suite config) "d4rl" then
      inr (create_d4rl_env (game config) (env_render_mode ec))
    else if String.eqb (env_suite config) "d3rl" then
      inr (create_d3rl_env (game config) (env_render_mode ec)
             (env_frame_stack ec) (env_time_limit ec))
    else
      inl (Py.NotImplementedError
             ("Invalid Environment Suite: " ++ env_suite config)) in
  match made with
  | inr e => inr (if eval then NoAutoReset e else e)
  | inl err => inl err
  end.

(** ** Evaluation images: [_create_eval_images] (lines 465-477) *)

Section EvalImages.

(** The images [_create_eval_images_atari] builds. *)
Variable Image : Type.
Variable _create_eval_images_atari : bool -> option Image * option Image.

Definition _create_eval_images_d3rl (is_final : bool)
  : option Image * option Image := (None, None).

Definition _create_eval_images_d4rl (is_final : bool)
  : option Image * option Image := (None, None).

Definition _create_eval_images (is_final : bool) (suite : string)
  : Py.error + (option Image * option Image) :=
  if String.eqb suite "atari" then inr (_create_eval_images_atari is_final)
  else if String.eqb suite "d4rl" then inr (_create_eval_images_d4rl is_final)
  else if String.eqb suite "d3rl" then inr (_create_eval_images_d3rl is_final)
  else inl (Py.NotImplementedError
              ("Unrecognized Environment Suite: " ++ suite ++ "!")).

(** The image entries [_evaluate] adds to its metrics (lines 377-381). *)
Definition image_metrics (imgs : option Image * option Image)
  : list (string * Image) :=
  (match fst imgs with Some i => [("eval/recons"%string, i)] | None => [] end)
  ++ (match snd imgs with Some i => [("eval/imagine"%string, i)] | None => [] end).

End EvalImages.

(** The colour of the annotations of an imagined frame (lines 634-644), from
    the weight and the reward of the step. *)
Definition text_color (weight reward : Q) : Z * Z * Z :=
  if Qltb (Qabs reward) (1 # 10000) then
    let color_rgb := py_int (weight * 255) in
    (color_rgb, color_rgb, color_rgb)
  else if Qltb 0 reward then
    let color_rb := py_int (weight * 100) in
    let color_g := py_int (weight * (255 + reward * 255) / 2) in
    (color_rb, color_g, color_rb)
  else
    let color_gb := py_int (weight * 80) in
    let color_r := py_int (weight * (255 + (- reward) * 255) / 2) in
    (color_r, color_gb, color_gb).

(** [ec] with [env_noop_max] replaced. *)
Definition with_noop_max (n : Z) (ec : EnvConfig) : EnvConfig :=
  mkEnvConfig n (env_frame_skip ec) (env_frame_stack ec) (env_frame_size ec)
              (env_episodic_lives ec) (env_grayscale ec) (env_time_limit ec)
              (env_render_mode ec).

(** The environment suites the trainer knows. *)
Definition known_suite (suite : string) : bool :=
  String.eqb suite "atari" || String.eqb suite "d4rl" || String.eqb suite "d3rl".

(** ** The collection policy: [_create_buffer_obs_policy] (lines 83-121) *)

Inductive policy_event : Type :=
| GetContext (index prefix : Z)
    (* replay_buffer.get_obs([[index]], prefix=prefix + 1) and
       get_actions, get_rewards, get_terminated,
       get_truncated([[index - 1]], prefix=prefix) *)
| ObserveReset            (* Dreamer(...); dreamer.observe_reset(...) *)
| GetTransition (index : Z)
    (* get_obs([[index]]) and get_actions, ...([[index - 1]]) *)
| ObserveStep             (* dreamer.observe_step(a, o, r, ...) *)
| PolicyAct.              (* dreamer.act() *)

(** One call of the closure [policy(index)]; [dreamer] tells whether the
    closure variable [dreamer] is bound to a [Dreamer] (it starts as
    [None]). *)
Definition policy_call (wm_memory_length : Z) (dreamer : bool) (index : Z)
  : list policy_event * bool :=
  if negb dreamer then
    let prefix := wm_memory_length - 1 in
    ([GetContext index prefix; ObserveReset; PolicyAct], true)
  else
    ([GetTransition index; ObserveStep; PolicyAct], dreamer).

(** The successive calls of one policy object, from its creation. *)
Definition policy_calls (wm_memory_length : Z) (indices : list Z)
  : list policy_event * bool :=
  fold_left (fun st index =>
               let '(evs, dreamer) := policy_call wm_memory_length (snd st) index in
               (fst st ++ evs, dreamer))
            indices ([], false).

Definition is_observe_reset (e : policy_event) : bool :=
  match e with ObserveReset => true | _ => false end.

Definition is_observe_step (e : policy_event) : bool :=
  match e with ObserveStep => true | _ => false end.

Definition is_policy_act (e : policy_event) : bool :=
  match e with PolicyAct => true | _ => false end.

(** * [analysis/download_d4rl_datasets.py] *)

Module D4rl.

(** [m] then [k], an exception of [m] ending the computation. *)
Definition and_then {A B : Type} (m : Py.error + A) (k : A -> Py.error + B)
  : Py.error + B :=
  match m with
  | inr a => k a
  | inl e => inl e
  end.

Notation "x <~ m ;; k" := (and_then m (fun x => k))
  (at level 61, m at next level, right associativity).

(** [x[i]] on an array. *)
Definition index {A : Type} (x : list A) (i : nat) : Py.error + A :=
  match nth_error x i with
  | Some a => inr a
  | None => inl Py.IndexError
  end.

(** [for i in l: s = body(s, i)] *)
Fixpoint for_each {S : Type} (body : S -> nat -> Py.error + S) (l : list nat)
  (s : S) : Py.error + S :=
  match l with
  | [] => inr s
  | i :: l' => s' <~ body s i ;; for_each body l' s'
  end.

Section Download.

(** Observations and actions are carried as they are. *)
Variables Obs Act : Type.

(** The dictionary [env.get_dataset()] returns; ["timeouts"] may be
    missing. *)
Record dataset : Type := mkDataset {
  observations : list Obs;
  actions : list Act;
  rewards : list Q;
  terminals : list bool;
  timeouts : option (list bool)
}.

(** [data_] and [episode_data]: one list per key. *)
Record path : Type := mkPath {
  p_observations : list Obs;
  p_timeouts : list bool;
  p_actions : list Act;
  p_rewards : list Q;
  p_terminals : list bool
}.

Definition empty_path : path := mkPath [] [] [] [] [].

(** [dataset["timeouts"]] *)
Definition get_timeouts (ds : dataset) : Py.error + list bool :=
  match timeouts ds with
  | Some t => inr t
  | None => inl (Py.KeyError "timeouts")
  end.

Record loop_state : Type := mkState {
  episode_step : Z;
  data_ : path;
  paths : list path
}.

(** The body of [for i in range(N)] (lines 23-43). *)
Definition body (ds : dataset) (use_timeouts : bool) (s : loop_state)
  (i : nat) : Py.error + loop_state :=
  done_bool <~ index (terminals ds) i ;;
  final_timestep <~
    (if use_timeouts then t <~ get_timeouts ds ;; index t i
     else inr (episode_step s =? 1000 - 1)) ;;
  o <~ index (observations ds) i ;;
  t <~ get_timeouts ds ;;
  to <~ index t i ;;
  a <~ index (actions ds) i ;;
  r <~ index (rewards ds) i ;;
  te <~ index (terminals ds) i ;;
  let d := data_ s in
  let d := mkPath (p_observations d ++ [o]) (p_timeouts d ++ [to])
                  (p_actions d ++ [a]) (p_rewards d ++ [r])
                  (p_terminals d ++ [te]) in
  let s :=
    if done_bool || final_timestep
    then mkState 0 empty_path (paths s ++ [d])
    else mkState (episode_step s) d (paths s) in
  inr (mkState (episode_step s + 1) (data_ s) (paths s)).

(** What the function prints and pickles. *)
Record output : Type := mkOutput {
  num_samples : Z;
  returns : list Q;
  pickled : list path
}.

Definition download_dataset (ds : dataset) : Py.error + output :=
  let N := List.length (rewards ds) in
  let use_timeouts := match timeouts ds with Some _ => true | None => false end in
  s <~ for_each (body ds use_timeouts) (seq 0 N) (mkState 0 empty_path []) ;;
  let returns := map (fun p => np_sum (p_rewards p)) (paths s) in
  let num_samples :=
    fold_right Z.add 0
      (map (fun p => Z.of_nat (List.length (p_rewards p))) (paths s)) in
  (* np.max(returns) *)
  match returns with
  | [] => inl Py.ValueError
  | _ => inr (mkOutput num_samples returns (paths s))
  end.

(** The rows of a dataset with the time-out column [t], and of a path, in
    the order the keys are copied. *)
Definition row : Type := Obs * bool * Act * Q * bool.

Definition rows (ds : dataset) (t : list bool) : list row :=
  combine (combine (combine (combine (observations ds) t) (actions ds))
                   (rewards ds)) (terminals ds).

Definition path_rows (p : path) : list row :=
  combine (combine (combine (combine (p_observations p) (p_timeouts p))
                            (p_actions p)) (p_rewards p)) (p_terminals p).

(** A row that ends an episode: terminal or timed out. *)
Definition is_end (x : row) : bool :=
  let '(_, to, _, _, te) := x in te || to.

(** An episode: rows none of which ends an episode, then one that does. *)
Definition episode (p : path) : Prop :=
  exists init last,
    path_rows p = init ++ [last]
    /\ forallb (fun x => negb (is_end x)) init = true
    /\ is_end last = true.

(** The columns of the dataset have the length of ["rewards"]. *)
Definition aligned (ds : dataset) (t : list bool) : Prop :=
  List.length (observations ds) = List.length (rewards ds)
  /\ List.length t = List.length (rewards ds)
  /\ List.length (actions ds) = List.length (rewards ds)
  /\ List.length (terminals ds) = List.length (rewards ds).

End Download.

Arguments mkDataset {Obs Act} _ _ _ _ _.
Arguments observations {Obs Act} _.
Arguments actions {Obs Act} _.
Arguments rewards {Obs Act} _.
Arguments terminals {Obs Act} _.
Arguments timeouts {Obs Act} _.
Arguments mkPath {Obs Act} _ _ _ _ _.
Arguments p_observations {Obs Act} _.
Arguments p_timeouts {Obs Act} _.
Arguments p_actions {Obs Act} _.
Arguments p_rewards {Obs Act} _.
Arguments p_terminals {Obs Act} _.
Arguments empty_path {Obs Act}.
Arguments get_timeouts {Obs Act} _.
Arguments mkState {Obs Act} _ _ _.
Arguments episode_step {Obs Act} _.
Arguments data_ {Obs Act} _.
Arguments paths {Obs Act} _.
Arguments body {Obs Act} _ _ _ _.
Arguments mkOutput {Obs Act} _ _ _.
Arguments num_samples {Obs Act} _.
Arguments returns {Obs Act} _.
Arguments pickled {Obs Act} _.
Arguments download_dataset {Obs Act} _.
Arguments rows {Obs Act} _ _.
Arguments path_rows {Obs Act} _.
Arguments is_end {Obs Act} _.
Arguments episode {Obs Act} _.
Arguments aligned {Obs Act} _ _.

End D4rl.

(** The lists of a path have the same length. *)
Definition path_aligned {Obs Act : Type} (p : D4rl.path Obs Act) : Prop :=
  List.length (D4rl.p_observations p) = List.length (D4rl.p_rewards p)
  /\ List.length (D4rl.p_timeouts p) = List.length (D4rl.p_rewards p)
  /\ List.length (D4rl.p_actions p) = List.length (D4rl.p_rewards p)
  /\ List.length (D4rl.p_terminals p) = List.length (D4rl.p_rewards p).

(** The state of the splitting loop before row [i]: the episodes closed so
    far and the open one hold the first [i] rows in order, every closed
    episode ends at its last row only, and the open one has not ended. *)
Definition split_inv {Obs Act : Type} (ds : D4rl.dataset Obs Act)
  (t : list bool) (i : nat) (s : D4rl.loop_state Obs Act) : Prop :=
  path_aligned (D4rl.data_ s)
  /\ Forall path_aligned (D4rl.paths s)
  /\ List.concat (map D4rl.path_rows (D4rl.paths s))
     ++ D4rl.path_rows (D4rl.data_ s)
     = firstn i (D4rl.rows ds t)
  /\ Forall D4rl.episode (D4rl.paths s)
  /\ forallb (fun x => negb (D4rl.is_end x)) (D4rl.path_rows (D4rl.data_ s))
     = true.

(** ** Evaluation seeds (lines 389 and 433-434) *)

(** The seed of the first reset of an evaluation, from [config['seed']]. *)
Definition eval_seed (seed : option Z) : option Z :=
  option_map (fun s => (s + 13) * 7919 + 13) seed.

(** The seed of the reset that follows a round. *)
Definition next_seed (num_envs : Z) (seed : option Z) : option Z :=
  option_map (fun s => s * 3 + 13 + num_envs) seed.

(** The seed of the reset that opens round [k]. *)
Definition round_seed (num_envs : Z) (seed : option Z) (k : nat) : option Z :=
  Nat.iter k (next_seed num_envs) (eval_seed seed).

(** ** Construction with the environment (lines 23-42) *)

(** [Trainer.__init__] with the environment it builds: the guards, then
    [_create_env_from_config(config)], then the store. *)
Definition Trainer__init__ {B : Type} `{ReplayBuffer B} (config : Config)
  (ec : EnvConfig) : Py.error + (env * Trainer B) :=
  match init_checks config with
  | Ok _ =>
      match _create_env_from_config config ec false with
      | inr e => inr (e, mkTrainer config (rb_new config) 0 [])
      | inl err => inl err
      end
  | _ => inl Py.ValueError
  end.


(** One of the two guards of the constructor fails. *)
Definition guards_fail (config : Config) : Prop :=
  buffer_prefill config <= 0
  \/ (1 < pretrain_obs_p config + pretrain_dyn_p config)%Q.

(** ** Episode returns *)

(** The rewards environment [i] receives at the steps [t0, ..., t0 + k - 1]
    of the vectorized environment, added up in this order from 0. *)
Fixpoint reward_sum (eval_env : nat -> step_result) (i t0 k : nat) : Q :=
  match k with
  | O => 0%Q
  | Datatypes.S k' =>
      (reward_sum eval_env i t0 k'
       + nth i (rewards (eval_env (t0 + k')%nat)) 0)%Q
  end.

(** [x] is the return of the episode environment [i] starts at step [t0]:
    the rewards up to and including the first step that finishes it. *)
Definition episode_return (eval_env : nat -> step_result) (t0 i : nat) (x : Q)
  : Prop :=
  exists k,
    finishes (eval_env (t0 + k)%nat) i = true
    /\ (forall j, (j < k)%nat -> finishes (eval_env (t0 + j)%nat) i = false)
    /\ x = reward_sum eval_env i t0 (Datatypes.S k).

(** The scores a round records are the returns of the episodes the
    environments started together. *)
Definition round_returns (eval_env : nat -> step_result) (num_envs : nat)
  (e : eval_event) : Prop :=
  match e with
  | RoundScores cs =>
      List.length cs = num_envs
      /\ exists t0, forall i, (i < num_envs)%nat ->
           episode_return eval_env t0 i (nth i cs 0%Q)
  | _ => True
  end.

(** The state of the evaluation loop inside a round started at step [t0]:
    a finished environment holds the return of its episode, an unfinished
    one the rewards received so far. *)
Definition in_round (eval_env : nat -> step_result) (num_envs t0 : nat)
  (s : eval_state) : Prop :=
  (t0 <= clock s)%nat
  /\ forall i, (i < num_envs)%nat ->
       if nth i (finished s) false
       then exists k,
              (t0 + k < clock s)%nat
              /\ finishes (eval_env (t0 + k)%nat) i = true
              /\ (forall j, (j < k)%nat ->
                    finishes (eval_env (t0 + j)%nat) i = false)
              /\ nth i (current_scores s) 0%Q
                 = reward_sum eval_env i t0 (Datatypes.S k)
       else (forall j, (t0 + j < clock s)%nat ->
               finishes (eval_env (t0 + j)%nat) i = false)
            /\ nth i (current_scores s) 0%Q
               = reward_sum eval_env i t0 (clock s - t0).

(** * Properties *)

(** ** Comparisons and loops *)

Lemma Qltb_lt (x y : Q) : Qltb x y = true <-> (x < y)%Q.
Proof.
  unfold Qltb. rewrite negb_true_iff. split; intro H.
  - apply Qnot_le_lt. intro Hle. apply Qle_bool_iff in Hle. congruence.
  - destruct (Qle_bool y x) eqn:E; [|reflexivity].
    apply Qle_bool_iff in E. exfalso. apply (Qlt_not_le _ _ H E).
Qed.

Lemma Qltb_ge (x y : Q) : Qltb x y = false <-> (y <= x)%Q.
Proof.
  unfold Qltb. rewrite negb_false_iff. apply Qle_bool_iff.
Qed.

Lemma Qle_bool_gt (x y : Q) : Qle_bool x y = false <-> (y < x)%Q.
Proof.
  rewrite <- Qltb_lt. unfold Qltb. rewrite negb_true_iff. reflexivity.
Qed.

Lemma while_unfold {S : Type} n c (b : S -> result S) s :
  while (Datatypes.S n) c b s =
  if c s then s' <- b s ;; while n c b s' else Ok s.
Proof. reflexivity. Qed.

(** More fuel, and a body that agrees wherever the first one answers, give
    the same answer. *)
Lemma while_mono {S : Type} c (b1 b2 : S -> result S) :
  (forall s r, b1 s = r -> r <> OutOfFuel -> b2 s = r) ->
  forall n m s r, (n <= m)%nat ->
    while n c b1 s = r -> r <> OutOfFuel -> while m c b2 s = r.
Proof.
  intros Hb n. induction n as [|n IH]; intros m s r Hle Hw Hr.
  - simpl in Hw. congruence.
  - destruct m as [|m]; [lia|]. simpl in *.
    destruct (c s); [|assumption].
    destruct (b1 s) as [s1| |] eqn:E1; simpl in Hw.
    + rewrite (Hb s (Ok s1) E1) by discriminate. simpl.
      apply IH; [lia|assumption|assumption].
    + rewrite (Hb s (Raise e tr) E1) by discriminate. assumption.
    + congruence.
Qed.

(** An invariant of the body holds when the loop returns, and the guard is
    then false. *)
Lemma while_inv {S : Type} (I : S -> Prop) c (b : S -> result S) :
  (forall s s', I s -> c s = true -> b s = Ok s' -> I s') ->
  forall n s s', I s -> while n c b s = Ok s' -> I s' /\ c s' = false.
Proof.
  intros Hb n. induction n as [|n IH]; intros s s' HI Hw; simpl in Hw.
  - discriminate.
  - destruct (c s) eqn:Ec.
    + destruct (b s) as [s1| |] eqn:E1; simpl in Hw; try discriminate.
      apply (IH s1); [|assumption]. eapply Hb; eassumption.
    + injection Hw as <-. split; assumption.
Qed.

(** A loop whose body returns and decreases a measure returns. *)
Lemma while_terminates {S : Type} (I : S -> Prop) (m : S -> nat) c
  (b : S -> result S) :
  (forall s, I s -> c s = true ->
     exists s', b s = Ok s' /\ I s' /\ (m s' < m s)%nat) ->
  forall n s, I s -> (m s < n)%nat -> exists s', while n c b s = Ok s'.
Proof.
  intros Hb n. induction n as [|n IH]; intros s HI Hm; [lia|].
  simpl. destruct (c s) eqn:Ec; [|eauto].
  destruct (Hb s HI Ec) as (s1 & E1 & HI1 & Hlt).
  rewrite E1. simpl. apply IH; [assumption|lia].
Qed.


(** The counting store appends one transition at each step. *)
Lemma CounterBufferSpec (cap : Z) :
  @ReplayBufferSpec counter_buffer (CounterBuffer cap).
Proof. split; reflexivity. Qed.

(** ** Construction *)

(** C3: [Trainer.__init__] raises exactly when [buffer_prefill <= 0] or
    [pretrain_obs_p + pretrain_dyn_p > 1], and otherwise builds the trainer;
    fractions 0.6 and 0.3 pass, fractions 0.7 and 0.4 raise. *)
Theorem Trainer_init_raises_iff :
  (forall (B : Type) (RB : ReplayBuffer B) (config : Config),
     (Trainer_init config = Raise ValueError []
      <-> (buffer_prefill config <= 0
           \/ (1 < pretrain_obs_p config + pretrain_dyn_p config)%Q))
     /\ (Trainer_init config = Ok (mkTrainer config (rb_new config) 0 [])
         <-> ~ (buffer_prefill config <= 0
                \/ (1 < pretrain_obs_p config + pretrain_dyn_p config)%Q)))
  /\ (forall (B : Type) (RB : ReplayBuffer B) (prefill : positive)
             pb total ee se sv,
        let config :=
          scenario (Z.pos prefill) pb total (6 # 10) (3 # 10) ee se sv in
        Trainer_init config = Ok (mkTrainer config (rb_new config) 0 []))
  /\ (forall (B : Type) (RB : ReplayBuffer B) prefill pb total ee se sv,
        @Trainer_init B RB (scenario prefill pb total (7 # 10) (4 # 10) ee se sv)
        = Raise ValueError []).
Proof.
  split; [|split].
  - intros B RB config. unfold Trainer_init, init_checks.
    destruct (buffer_prefill config <=? 0) eqn:E1.
    + apply Z.leb_le in E1. simpl. split; split; intro H;
        try discriminate; try tauto.
    + apply Z.leb_gt in E1.
      destruct (Qltb 1 (pretrain_obs_p config + pretrain_dyn_p config)) eqn:E2;
        simpl.
      * apply Qltb_lt in E2. split; split; intro H;
          try discriminate; try tauto.
      * apply Qltb_ge in E2. split; split; intro H; try discriminate;
          try reflexivity.
        -- destruct H as [H|H]; [lia|].
           exfalso. apply (Qlt_not_le _ _ H E2).
        -- intros [H'|H']; [lia|]. apply (Qlt_not_le _ _ H' E2).
  - intros B RB prefill pb total ee se sv. reflexivity.
  - intros B RB prefill pb total ee se sv.
    unfold Trainer_init, init_checks. simpl buffer_prefill.
    destruct (prefill <=? 0); reflexivity.
Qed.

(** ** Traces *)

Lemma count_app p tr1 tr2 : count p (tr1 ++ tr2) = count p tr1 + count p tr2.
Proof.
  unfold count. rewrite filter_app, length_app. lia.
Qed.


Lemma count_single p e : count p [e] = if p e then 1 else 0.
Proof. unfold count. simpl. destruct (p e); reflexivity. Qed.

Lemma count_cons p e tr : count p (e :: tr) = (if p e then 1 else 0) + count p tr.
Proof. change (e :: tr) with ([e] ++ tr). rewrite count_app, count_single. reflexivity. Qed.

Lemma located_app P evs1 : forall n evs2,
  located P n (evs1 ++ evs2)
  <-> located P n evs1 /\ located P (n + env_steps evs1) evs2.
Proof.
  induction evs1 as [|e evs1 IH]; intros n evs2; simpl.
  - unfold env_steps, count. simpl. rewrite Z.add_0_r. tauto.
  - rewrite IH. unfold env_steps. rewrite count_cons.
    destruct (is_env_step e);
      [replace (n + (1 + count is_env_step evs1))
         with (n + 1 + count is_env_step evs1) by lia
      |replace (n + (0 + count is_env_step evs1))
         with (n + count is_env_step evs1) by lia]; tauto.
Qed.

Lemma located_weaken (P Q : Z -> event -> Prop) :
  (forall n e, P n e -> Q n e) ->
  forall evs n, located P n evs -> located Q n evs.
Proof.
  intros HPQ evs. induction evs as [|e evs IH]; intros n; simpl; [tauto|].
  intros [H1 H2]. split; [apply HPQ; assumption|apply IH; assumption].
Qed.

(** An event of a located trace satisfies the predicate at the number of
    steps taken before it. *)
Lemma located_at P n evs pre e post :
  located P n evs -> evs = pre ++ e :: post -> P (n + env_steps pre) e.
Proof.
  intros H ->. apply located_app in H. destruct H as [_ H]. simpl in H. tauto.
Qed.

Section Frames.

Context {B : Type} {RB : ReplayBuffer B} {RBS : ReplayBufferSpec B}.

Lemma extends_refl P (t : Trainer B) : extends P t t.
Proof.
  repeat split. exists []. rewrite app_nil_r. simpl.
  unfold env_steps, count. simpl. repeat split. lia.
Qed.

Lemma extends_trans P (t1 t2 t3 : Trainer B) :
  extends P t1 t2 -> extends P t2 t3 -> extends P t1 t3.
Proof.
  intros (Hc1 & Hk1 & evs1 & Ht1 & Hl1 & Hs1) (Hc2 & Hk2 & evs2 & Ht2 & Hl2 & Hs2).
  split; [congruence|]. split; [congruence|].
  exists (evs1 ++ evs2). split; [|split].
  - rewrite Ht2, Ht1, app_assoc. reflexivity.
  - apply located_app. split; [assumption|]. rewrite <- Hs1. assumption.
  - unfold env_steps in *. rewrite count_app. lia.
Qed.

Lemma extends_weaken (P Q : Z -> event -> Prop) (t t' : Trainer B) :
  (forall n e, P n e -> Q n e) -> extends P t t' -> extends Q t t'.
Proof.
  intros HPQ (Hc & Hk & evs & Ht & Hl & Hs).
  split; [assumption|]. split; [assumption|].
  exists evs. repeat split; try assumption.
  eapply located_weaken; eassumption.
Qed.

Lemma extends_emit P e (t : Trainer B) :
  is_env_step e = false -> P (size (replay_buffer t)) e ->
  extends P t (emit e t).
Proof.
  intros He HP. split; [reflexivity|]. split; [reflexivity|].
  exists [e]. split; [reflexivity|]. cbn [located].
  unfold env_steps. rewrite count_single, He. cbn [emit replay_buffer].
  repeat split; [assumption|lia].
Qed.

Lemma extends_buffer_step P p (t : Trainer B) :
  P (size (replay_buffer t)) (EnvStep p) -> extends P t (buffer_step p t).
Proof.
  intros HP. split; [reflexivity|]. split; [apply step_capacity|].
  exists [EnvStep p]. simpl. unfold env_steps. rewrite count_single. simpl.
  repeat split; [assumption|apply step_size].
Qed.

Lemma extends_call_evaluate P b (t : Trainer B) :
  P (size (replay_buffer t)) (Evaluate b) -> extends P t (call_evaluate b t).
Proof.
  intros HP. repeat split. exists [Evaluate b]. simpl.
  unfold env_steps. rewrite count_single. simpl. repeat split;
    [assumption|lia].
Qed.

Lemma extends_buffer_metrics P (t : Trainer B) :
  P (size (replay_buffer t)) (BufferMetrics (size (replay_buffer t))) ->
  extends P t (buffer_metrics t).
Proof. intros HP. apply extends_emit; [reflexivity|assumption]. Qed.


End Frames.

(** ** Prefill *)

Section Prefill.

Context {B : Type} {RB : ReplayBuffer B} {RBS : ReplayBufferSpec B}.

Lemma steps_and_metrics_app tr1 tr2 :
  steps_and_metrics (tr1 ++ tr2) = steps_and_metrics tr1 ++ steps_and_metrics tr2.
Proof. apply filter_app. Qed.

Lemma prefill_record_succ n k :
  prefill_record n (S k)
  = prefill_record n k
    ++ [EnvStep random_policy; BufferMetrics (n + Z.of_nat k + 1)].
Proof.
  unfold prefill_record. rewrite seq_S, flat_map_app. reflexivity.
Qed.

Lemma prefill_body_spec (t : Trainer B) :
  extends prefill_call t (prefill_body t)
  /\ size (replay_buffer (prefill_body t)) = size (replay_buffer t) + 1
  /\ last_eval (prefill_body t) = last_eval t
  /\ steps_and_metrics (trace (prefill_body t))
     = steps_and_metrics (trace t)
       ++ [EnvStep random_policy; BufferMetrics (size (replay_buffer t) + 1)].
Proof.
  unfold prefill_body.
  set (t1 := buffer_step random_policy t).
  set (t2 := buffer_metrics t1).
  set (t3 := emit SummarizerAppend t2).
  assert (H1 : extends prefill_call t t1)
    by (apply extends_buffer_step; reflexivity).
  assert (H2 : extends prefill_call t1 t2)
    by (apply extends_buffer_metrics; reflexivity).
  assert (H3 : extends prefill_call t2 t3)
    by (apply extends_emit; [reflexivity|exact I]).
  assert (Hs : size (replay_buffer t3) = size (replay_buffer t) + 1)
    by (simpl; apply step_size).
  assert (Htr : steps_and_metrics (trace t3)
                = steps_and_metrics (trace t)
                  ++ [EnvStep random_policy;
                      BufferMetrics (size (replay_buffer t) + 1)]).
  { simpl. rewrite !steps_and_metrics_app. simpl.
    rewrite step_size, app_nil_r, <- app_assoc. reflexivity. }
  destruct (size (replay_buffer t3) mod log_every =? 0).
  - split; [|split; [|split]].
    + eapply extends_trans; [eassumption|].
      eapply extends_trans; [eassumption|].
      eapply extends_trans; [eassumption|].
      apply extends_emit; [reflexivity|exact I].
    + exact Hs.
    + reflexivity.
    + simpl trace. rewrite steps_and_metrics_app. simpl.
      rewrite app_nil_r. exact Htr.
  - split; [|split; [|split]]; try assumption; try reflexivity.
    eapply extends_trans; [eassumption|].
    eapply extends_trans; eassumption.
Qed.

Lemma prefill_iter_spec (k : nat) (t : Trainer B) :
  let t' := Nat.iter k prefill_body t in
  extends prefill_call t t'
  /\ size (replay_buffer t') = size (replay_buffer t) + Z.of_nat k
  /\ last_eval t' = last_eval t
  /\ steps_and_metrics (trace t')
     = steps_and_metrics (trace t) ++ prefill_record (size (replay_buffer t)) k.
Proof.
  induction k as [|k IH]; cbn zeta.
  - simpl. split; [apply extends_refl|]. split; [lia|]. split; [reflexivity|].
    unfold prefill_record. simpl. rewrite app_nil_r. reflexivity.
  - cbn zeta in IH. destruct IH as (He & Hs & Hl & Htr).
    simpl Nat.iter.
    destruct (prefill_body_spec (Nat.iter k prefill_body t))
      as (He' & Hs' & Hl' & Htr').
    split; [eapply extends_trans; eassumption|].
    split; [lia|]. split; [congruence|].
    rewrite Htr', Htr, prefill_record_succ, Hs, <- app_assoc. reflexivity.
Qed.

Lemma prefill_spec (t : Trainer B) :
  0 < buffer_prefill (config t) ->
  extends prefill_call t (prefill t)
  /\ size (replay_buffer (prefill t))
     = size (replay_buffer t) + buffer_prefill (config t)
  /\ last_eval (prefill t) = last_eval t
  /\ steps_and_metrics (trace (prefill t))
     = steps_and_metrics (trace t)
       ++ prefill_record (size (replay_buffer t))
                         (Z.to_nat (buffer_prefill (config t))).
Proof.
  intro Hp. unfold prefill.
  set (k := Z.to_nat (buffer_prefill (config t) - 1)).
  destruct (prefill_iter_spec k t) as (He & Hs & Hl & Htr).
  set (t1 := Nat.iter k prefill_body t) in *.
  assert (Hk : Z.to_nat (buffer_prefill (config t)) = S k) by (unfold k; lia).
  split; [|split; [|split]].
  - eapply extends_trans; [eassumption|].
    eapply extends_trans;
      [apply extends_buffer_step|apply extends_buffer_metrics]; reflexivity.
  - simpl. rewrite step_size, Hs. unfold k. lia.
  - simpl. exact Hl.
  - simpl. rewrite !steps_and_metrics_app, Htr, Hk, prefill_record_succ.
    simpl. rewrite step_size, Hs, <- !app_assoc. reflexivity.
Qed.

Lemma Trainer_init_ok (config0 : Config) (t : Trainer B) :
  Trainer_init config0 = Ok t ->
  t = mkTrainer config0 (rb_new config0) 0 []
  /\ 0 < buffer_prefill config0
  /\ (pretrain_obs_p config0 + pretrain_dyn_p config0 <= 1)%Q.
Proof.
  unfold Trainer_init, init_checks.
  destruct (buffer_prefill config0 <=? 0) eqn:E1; [discriminate|].
  destruct (Qltb 1 _) eqn:E2; [discriminate|]. simpl.
  intro Heq. injection Heq as <-. apply Z.leb_gt in E1. apply Qltb_ge in E2.
  auto.
Qed.

End Prefill.

(** C9: from an empty store, the prefill makes exactly [buffer_prefill]
    calls of the step operation, all under the random policy, each followed
    by the buffer metrics, and leaves [size = buffer_prefill]; with capacity
    100 and prefill 10 that is 10 appends and size 10. *)
Theorem prefill_fills_to_buffer_prefill (B : Type) (RB : ReplayBuffer B)
  (RBS : ReplayBufferSpec B) (config0 : Config) (t : Trainer B) :
  Trainer_init config0 = Ok t ->
  (env_steps (trace (prefill t)) = buffer_prefill config0
   /\ located prefill_call 0 (trace (prefill t))
   /\ steps_and_metrics (trace (prefill t))
      = prefill_record 0 (Z.to_nat (buffer_prefill config0))
   /\ size (replay_buffer (prefill t)) = buffer_prefill config0)
  /\ (let t10 := mkTrainer (scenario 10 0 100 (6 # 10) (3 # 10) 5 5 false)
                            (mkCounter 0 100) 0 [] in
      let t10' := @prefill _ (CounterBuffer 100) t10 in
      env_steps (trace t10') = 10 /\ cb_size (replay_buffer t10') = 10).
Proof.
  intro Hinit. apply Trainer_init_ok in Hinit.
  destruct Hinit as (-> & Hp & _). split; [|split; reflexivity].
  set (t0 := mkTrainer config0 (rb_new config0) 0 []).
  destruct (prefill_spec t0 Hp)
    as ((_ & _ & evs & Ht & Hl & Hs) & Hs' & _ & Htr).
  change (trace t0) with (@nil event) in *.
  change (replay_buffer t0) with (rb_new config0) in *.
  change (config t0) with config0 in *.
  rewrite rb_new_empty in *. simpl app in *.
  rewrite Ht in *. split; [lia|]. split; [assumption|].
  split; [assumption|lia].
Qed.

(** An instance: capacity 100 and prefill 10. *)
Lemma prefill_fills_to_buffer_prefill_witness :
  let RB := CounterBuffer 100 in
  let config0 := scenario 10 0 100 (6 # 10) (3 # 10) 5 5 false in
  let t := mkTrainer config0 (mkCounter 0 100) 0 [] in
  Trainer_init config0 = Ok t
  /\ env_steps (trace (prefill t)) = buffer_prefill config0
  /\ located prefill_call 0 (trace (prefill t))
  /\ steps_and_metrics (trace (prefill t))
     = prefill_record 0 (Z.to_nat (buffer_prefill config0))
  /\ size (replay_buffer (prefill t)) = buffer_prefill config0.
Proof.
  intros RB config0 t. split; [reflexivity|].
  exact (proj1 (prefill_fills_to_buffer_prefill counter_buffer RB
                  (CounterBufferSpec 100) config0 t eq_refl)).
Defined.

(** ** Pretraining *)

Section Pretrain.

Context {B : Type} {RB : ReplayBuffer B}.

Lemma calls_only_refl P (t : Trainer B) : calls_only P t t.
Proof. repeat split. exists []. rewrite app_nil_r. auto. Qed.

Lemma calls_only_trans P (t1 t2 t3 : Trainer B) :
  calls_only P t1 t2 -> calls_only P t2 t3 -> calls_only P t1 t3.
Proof.
  intros (Hc1 & Hb1 & Hl1 & evs1 & Ht1 & Hf1)
         (Hc2 & Hb2 & Hl2 & evs2 & Ht2 & Hf2).
  repeat split; try congruence.
  exists (evs1 ++ evs2). rewrite Ht2, Ht1, app_assoc, forallb_app, Hf1, Hf2.
  auto.
Qed.

Lemma calls_only_emit (P : event -> bool) e (t : Trainer B) :
  P e = true -> calls_only P t (emit e t).
Proof.
  intro HP. repeat split. exists [e]. simpl. rewrite HP. auto.
Qed.

Lemma sweep_for_calls (P : event -> bool) opt :
  (forall n, P (opt n) = true) ->
  forall batches budget (t : Trainer B),
    calls_only P t (snd (sweep_for opt batches budget t)).
Proof.
  intros HP batches. induction batches as [|idx rest IH]; intros budget t.
  - apply calls_only_refl.
  - simpl. destruct (Qle_bool _ 0).
    + apply calls_only_emit, HP.
    + eapply calls_only_trans; [apply calls_only_emit, HP|apply IH].
Qed.

Lemma sweep_loop_calls (P : event -> bool) opt batch len :
  (forall n, P (opt n) = true) ->
  forall fuel (s s' : sweep B),
    while fuel budget_cond (sweep_body opt batch len) s = Ok s' ->
    calls_only P (sw_self s) (sw_self s').
Proof.
  intros HP fuel s s' Hw.
  apply (while_inv (fun x => calls_only P (sw_self s) (sw_self x)))
    in Hw; [tauto| |apply calls_only_refl].
  intros x x' Hx _. unfold sweep_body.
  pose proof (sweep_for_calls P opt HP
    (generate_uniform_indices (replay_buffer (sw_self x)) batch len 2)
    (sw_budget x) (sw_self x)) as Hsf.
  destruct (sweep_for _ _ _ _) as [b' t']. simpl in Hsf.
  intro Heq. injection Heq as <-. simpl.
  eapply calls_only_trans; eassumption.
Qed.

Lemma obs_inner_calls batch fuel (s s' : sweep B) :
  while fuel obs_inner_cond (obs_inner_body batch) s = Ok s' ->
  calls_only is_pretrain_call (sw_self s) (sw_self s').
Proof.
  intro Hw.
  apply (while_inv (fun x => calls_only is_pretrain_call (sw_self s) (sw_self x)))
    in Hw; [tauto| |apply calls_only_refl].
  intros x x' Hx _ Heq. injection Heq as <-. simpl.
  eapply calls_only_trans; [eassumption|].
  apply calls_only_emit. reflexivity.
Qed.

Lemma pretrain_obs_calls fuel (t t' : Trainer B) :
  pretrain_obs fuel t = Ok t' -> calls_only is_pretrain_call t t'.
Proof.
  unfold pretrain_obs.
  destruct (while fuel budget_cond _ _) as [s'| |] eqn:Hw; try discriminate.
  simpl. intro Heq. injection Heq as <-.
  apply (while_inv (fun x => calls_only is_pretrain_call t (sw_self x)))
    in Hw; [tauto| |apply calls_only_refl].
  intros x x' Hx _ Hb. unfold obs_outer_body in Hb.
  apply obs_inner_calls in Hb. simpl in Hb.
  eapply calls_only_trans; eassumption.
Qed.

Lemma pretrain_dyn_calls fuel (t t' : Trainer B) :
  pretrain_dyn fuel t = Ok t' -> calls_only is_pretrain_call t t'.
Proof.
  unfold pretrain_dyn.
  destruct (while fuel budget_cond _ _) as [s'| |] eqn:Hw; try discriminate.
  simpl. intro Heq. injection Heq as <-.
  apply (sweep_loop_calls is_pretrain_call) in Hw; [exact Hw|reflexivity].
Qed.

(** The pretraining phase only optimizes and encodes, and its last call is
    [sync_target]. *)
Lemma pretrain_shape fuel (t t' : Trainer B) :
  _pretrain fuel t = Ok t' ->
  config t' = config t
  /\ replay_buffer t' = replay_buffer t
  /\ last_eval t' = last_eval t
  /\ exists evs, trace t' = trace t ++ evs ++ [SyncTarget]
                 /\ forallb is_pretrain_call evs = true.
Proof.
  unfold _pretrain.
  destruct (pretrain_obs fuel t) as [t1| |] eqn:H1; try discriminate.
  simpl. destruct (pretrain_dyn fuel (emit EncodeAll t1)) as [t2| |] eqn:H2;
    try discriminate.
  simpl. unfold pretrain_ac.
  destruct (while fuel budget_cond _ _) as [s3| |] eqn:H3; try discriminate.
  simpl. intro Heq. injection Heq as <-.
  apply pretrain_obs_calls in H1. apply pretrain_dyn_calls in H2.
  apply (sweep_loop_calls is_pretrain_call) in H3; [|reflexivity].
  simpl in H3.
  assert (Hall : calls_only is_pretrain_call t (sw_self s3)).
  { eapply calls_only_trans; [exact H1|].
    eapply calls_only_trans;
      [apply (calls_only_emit is_pretrain_call EncodeAll); reflexivity|].
    eapply calls_only_trans; eassumption. }
  destruct Hall as (Hc & Hb & Hl & evs & Ht & Hf).
  simpl. repeat split; try assumption.
  exists evs. rewrite Ht, <- app_assoc. auto.
Qed.

End Pretrain.

(** ** Fuel *)

(** A computation that answers keeps its answer with more fuel. *)
Definition fuel_monotone {A : Type} (f : nat -> result A) : Prop :=
  forall n m r, (n <= m)%nat -> f n = r -> r <> OutOfFuel -> f m = r.

Lemma bind_mono {A C : Type} (f : nat -> result A) (k : nat -> A -> result C) :
  fuel_monotone f -> (forall a, fuel_monotone (fun n => k n a)) ->
  fuel_monotone (fun n => a <- f n ;; k n a).
Proof.
  intros Hf Hk n m r Hle Hr Hne. cbn beta in *.
  destruct (f n) as [a|e tr|] eqn:E; simpl in Hr.
  - rewrite (Hf n m (Ok a) Hle E) by discriminate. simpl.
    apply (Hk a n m r Hle Hr Hne).
  - rewrite (Hf n m (Raise e tr) Hle E) by discriminate. exact Hr.
  - congruence.
Qed.

Lemma const_mono {A : Type} (r : result A) : fuel_monotone (fun _ => r).
Proof. intros n m r' _ H _. exact H. Qed.

Lemma while_fuel_mono {S : Type} c (b : nat -> S -> result S) s :
  (forall x, fuel_monotone (fun n => b n x)) ->
  fuel_monotone (fun n => while n c (b n) s).
Proof.
  intros Hb n m r Hle Hr Hne. cbn beta in *.
  apply (while_mono c (b n) (b m)) with (n := n) (s := s); try assumption.
  intros x r' Hx Hne'. apply (Hb x n m r' Hle Hx Hne').
Qed.

Section FuelMonotone.

Context {B : Type} {RB : ReplayBuffer B}.

Lemma pretrain_mono (t : Trainer B) : fuel_monotone (fun n => _pretrain n t).
Proof.
  unfold _pretrain. apply bind_mono.
  - unfold pretrain_obs. apply bind_mono; [|intro; apply const_mono].
    apply while_fuel_mono. intro x. unfold obs_outer_body.
    apply while_fuel_mono. intro y. apply const_mono.
  - intro t1. apply bind_mono.
    + unfold pretrain_dyn. apply bind_mono; [|intro; apply const_mono].
      apply while_fuel_mono. intro x. apply const_mono.
    + intro t2. unfold pretrain_ac.
      apply bind_mono; [|intro; apply const_mono].
      apply while_fuel_mono. intro x. apply const_mono.
Qed.





End FuelMonotone.

(** ** Main loop: the calls it makes *)

Section MainLoopCalls.

Context {B : Type} {RB : ReplayBuffer B} {RBS : ReplayBufferSpec B}.

Lemma extends_config P (t t' : Trainer B) :
  extends P t t' -> config t' = config t.
Proof. intros (H & _). exact H. Qed.

Lemma extends_capacity P (t t' : Trainer B) :
  extends P t t' ->
  capacity (replay_buffer t') = capacity (replay_buffer t).
Proof. intros (_ & H & _). exact H. Qed.

Lemma collect_body_calls (l l' : loop B) :
  below_capacity (self l) = true ->
  collect_body l = Ok l' ->
  extends (main_call (config (self l)) (capacity (replay_buffer (self l))))
          (self l) (self l')
  /\ size (replay_buffer (self l')) = size (replay_buffer (self l)) + 1
  /\ (step_counter l' == step_counter l + 1)%Q.
Proof.
  unfold collect_body, below_capacity. intros Hcap Heq.
  apply Z.ltb_lt in Hcap.
  injection Heq as <-. cbn [self step_counter].
  split; [|split; [|reflexivity]].
  - destruct (eval_every (config (self l)) <=? _).
    + eapply extends_trans;
        [|apply extends_buffer_step; split; [reflexivity|exact Hcap]].
      eapply extends_trans; [apply extends_call_evaluate; reflexivity|].
      eapply extends_trans; [apply extends_buffer_metrics; reflexivity|].
      eapply extends_trans; apply extends_emit; try reflexivity; exact I.
    + apply extends_buffer_step. split; [reflexivity|exact Hcap].
  - destruct (eval_every (config (self l)) <=? _); simpl; apply step_size.
Qed.

Lemma collect_loop_calls te fuel (l l' : loop B) :
  while fuel (collect_cond te) collect_body l = Ok l' ->
  extends (main_call (config (self l)) (capacity (replay_buffer (self l))))
          (self l) (self l')
  /\ (size (replay_buffer (self l)) <= capacity (replay_buffer (self l)) ->
      size (replay_buffer (self l')) <= capacity (replay_buffer (self l))).
Proof.
  intro Hw.
  apply (while_inv (fun x =>
           extends (main_call (config (self l)) (capacity (replay_buffer (self l))))
                   (self l) (self x)
           /\ (size (replay_buffer (self l)) <= capacity (replay_buffer (self l)) ->
               size (replay_buffer (self x)) <= capacity (replay_buffer (self l)))))
    in Hw; [tauto| |split; [apply extends_refl|tauto]].
  intros x x' [Hx Hsz] Hc Hb.
  unfold collect_cond in Hc.
  apply andb_prop in Hc. destruct Hc as [_ Hc].
  apply (collect_body_calls _ _ Hc) in Hb. destruct Hb as (Hb & Hs & _).
  rewrite (extends_config _ _ _ Hx), (extends_capacity _ _ _ Hx) in Hb.
  split; [eapply extends_trans; eassumption|].
  intros _. unfold below_capacity in Hc. apply Z.ltb_lt in Hc.
  rewrite (extends_capacity _ _ _ Hx) in Hc. lia.
Qed.

Lemma train_loop_calls te fuel (l l' : loop B) :
  while fuel (train_cond te) (train_body te) l = Ok l' ->
  extends (main_call (config (self l)) (capacity (replay_buffer (self l))))
          (self l) (self l')
  /\ replay_buffer (self l') = replay_buffer (self l)
  /\ last_eval (self l') = last_eval (self l).
Proof.
  intro Hw.
  apply (while_inv (fun x =>
           extends (main_call (config (self l)) (capacity (replay_buffer (self l))))
                   (self l) (self x)
           /\ replay_buffer (self x) = replay_buffer (self l)
           /\ last_eval (self x) = last_eval (self l)))
    in Hw; [tauto| |split; [apply extends_refl|tauto]].
  intros x x' (Hx & Hrb & Hle) _ Hb. injection Hb as <-. cbn [self].
  split; [|split; assumption].
  eapply extends_trans; [eassumption|].
  apply extends_emit; [reflexivity|exact I].
Qed.

Lemma periodic_save_calls (t : Trainer B) :
  extends (main_call (config t) (capacity (replay_buffer t))) t (periodic_save t)
  /\ replay_buffer (periodic_save t) = replay_buffer t.
Proof.
  unfold periodic_save. destruct (save (config t)) eqn:Es; simpl;
    [|split; [apply extends_refl|reflexivity]].
  destruct (save_every (config t) <=? _); simpl;
    [|split; [apply extends_refl|reflexivity]].
  destruct (below_capacity t) eqn:Ec;
    [|split; [apply extends_refl|reflexivity]].
  split; [|reflexivity]. unfold below_capacity in Ec. apply Z.ltb_lt in Ec.
  apply extends_emit; [reflexivity|]. simpl. auto.
Qed.

Lemma main_body_calls te fuel (l l' : loop B) :
  main_body fuel te l = Ok l' ->
  extends (main_call (config (self l)) (capacity (replay_buffer (self l))))
          (self l) (self l')
  /\ (size (replay_buffer (self l)) <= capacity (replay_buffer (self l)) ->
      size (replay_buffer (self l')) <= capacity (replay_buffer (self l))).
Proof.
  unfold main_body.
  destruct (while fuel (collect_cond te) _ _) as [l1| |] eqn:H1;
    try discriminate. cbn [bind].
  destruct (while fuel (train_cond te) _ _) as [l2| |] eqn:H2;
    try discriminate. cbn [bind].
  apply collect_loop_calls in H1. cbn [self] in H1. destruct H1 as [H1 Hs1].
  apply train_loop_calls in H2. destruct H2 as (H2 & Hrb2 & _).
  rewrite (extends_config _ _ _ H1), (extends_capacity _ _ _ H1) in H2.
  set (cfg := config (self l)) in *.
  set (cap := capacity (replay_buffer (self l))) in *.
  set (t3 := buffer_metrics (self l2)).
  assert (H3 : extends (main_call cfg cap) (self l) t3).
  { eapply extends_trans; [exact H1|]. eapply extends_trans; [exact H2|].
    apply extends_buffer_metrics. reflexivity. }
  assert (Hrb3 : replay_buffer t3 = replay_buffer (self l1)) by exact Hrb2.
  assert (Hsave : forall t5, extends (main_call cfg cap) (self l) t5 ->
            replay_buffer t5 = replay_buffer (self l1) ->
            extends (main_call cfg cap) (self l) (periodic_save t5)
            /\ (size (replay_buffer (self l)) <= cap ->
                size (replay_buffer (periodic_save t5)) <= cap)).
  { intros t5 H5 Hrb5. destruct (periodic_save_calls t5) as [H6 Hrb6].
    rewrite (extends_config _ _ _ H5), (extends_capacity _ _ _ H5) in H6.
    split; [eapply extends_trans; eassumption|].
    rewrite Hrb6, Hrb5. exact Hs1. }
  destruct (_ && below_capacity t3).
  - intro Heq. injection Heq as <-. cbn [self].
    apply Hsave; [|exact Hrb3].
    eapply extends_trans; [exact H3|].
    eapply extends_trans; [apply extends_call_evaluate; reflexivity|].
    eapply extends_trans; apply extends_emit; try reflexivity; exact I.
  - intro Heq. injection Heq as <-. cbn [self].
    assert (H4 : extends (main_call cfg cap) (self l) (emit SummarizerAppend t3)).
    { eapply extends_trans; [exact H3|].
      apply extends_emit; [reflexivity|exact I]. }
    destruct (should_log l2).
    + apply Hsave; [|exact Hrb3].
      eapply extends_trans; [exact H4|].
      apply extends_emit; [reflexivity|exact I].
    + apply Hsave; [exact H4|exact Hrb3].
Qed.

(** The main loop only makes main-loop calls, and leaves with the store at
    capacity or beyond. *)
Lemma main_loop_calls te fuel (t t' : Trainer B) :
  main_loop fuel te t = Ok t' ->
  extends (main_call (config t) (capacity (replay_buffer t))) t t'
  /\ capacity (replay_buffer t) <= size (replay_buffer t')
  /\ (size (replay_buffer t) <= capacity (replay_buffer t) ->
      size (replay_buffer t') = capacity (replay_buffer t)).
Proof.
  unfold main_loop.
  destruct (while fuel main_cond _ _) as [l'| |] eqn:Hw; try discriminate.
  cbn [bind]. intro Heq. injection Heq as <-.
  apply (while_inv (fun x =>
           extends (main_call (config t) (capacity (replay_buffer t))) t (self x)
           /\ (size (replay_buffer t) <= capacity (replay_buffer t) ->
               size (replay_buffer (self x)) <= capacity (replay_buffer t))))
    in Hw.
  - destruct Hw as [[He Hs] Hc]. unfold main_cond, below_capacity in Hc.
    apply Z.ltb_ge in Hc. rewrite (extends_capacity _ _ _ He) in Hc.
    split; [assumption|]. split; [assumption|]. intro Hle.
    specialize (Hs Hle). lia.
  - intros x x' [Hx Hs] _ Hb. apply main_body_calls in Hb.
    destruct Hb as [Hb Hs'].
    rewrite (extends_config _ _ _ Hx), (extends_capacity _ _ _ Hx) in Hb.
    rewrite (extends_capacity _ _ _ Hx) in Hs'.
    split; [eapply extends_trans; eassumption|]. auto.
  - cbn [self]. split; [apply extends_refl|tauto].
Qed.

End MainLoopCalls.

(** ** Main loop: the schedule *)



Section Schedule.

Context {B : Type} {RB : ReplayBuffer B} {RBS : ReplayBufferSpec B}.

Variable train_every : Q.
Hypothesis train_every_pos : (0 < train_every)%Q.





End Schedule.

Section MainLoopTermination.

Context {B : Type} {RB : ReplayBuffer B} {RBS : ReplayBufferSpec B}.

(** What a pass through the body of the main loop is made of: a collection
    phase, a training phase, and calls that neither step nor train. *)
Lemma main_body_inv fuel te (l l' : loop B) :
  main_body fuel te l = Ok l' ->
  exists l1 l2,
    while fuel (collect_cond te) collect_body
          (mkLoop (self l) (step_counter l) false) = Ok l1
    /\ while fuel (train_cond te) (train_body te) l1 = Ok l2
    /\ replay_buffer (self l') = replay_buffer (self l2)
    /\ step_counter l' = step_counter l2
    /\ collect_steps (trace (self l')) = collect_steps (trace (self l2))
    /\ train_rounds (trace (self l')) = train_rounds (trace (self l2)).
Proof.
  unfold main_body.
  destruct (while fuel (collect_cond te) _ _) as [l1| |] eqn:H1;
    try discriminate. cbn [bind].
  destruct (while fuel (train_cond te) _ _) as [l2| |] eqn:H2;
    try discriminate. cbn [bind].
  intro Heq. exists l1, l2. split; [reflexivity|]. split; [exact H2|].
  destruct (_ && below_capacity _); injection Heq as <-;
    cbn [self step_counter]; unfold periodic_save;
    repeat match goal with
           | |- context [if ?c then _ else _] => destruct c
           end;
    cbn [emit call_evaluate buffer_metrics replay_buffer trace];
    unfold collect_steps, train_rounds; rewrite ?count_app, ?count_single;
    cbn [is_collect_step is_train_step];
    repeat split; lia.
Qed.

Variable train_every : Q.
Hypothesis train_every_pos : (0 < train_every)%Q.



End MainLoopTermination.

(** ** The shape of a run *)

Lemma located_count_zero (P : Z -> event -> Prop) (p : event -> bool) :
  (forall k e, P k e -> p e = false) ->
  forall evs n, located P n evs -> count p evs = 0.
Proof.
  intros HP evs. induction evs as [|e evs IH]; intros n Hl; [reflexivity|].
  destruct Hl as [He Hl]. rewrite count_cons, (HP _ _ He), (IH _ Hl).
  reflexivity.
Qed.

Lemma forallb_count_zero (P p : event -> bool) :
  (forall e, P e = true -> p e = false) ->
  forall evs, forallb P evs = true -> count p evs = 0.
Proof.
  intros HP evs. induction evs as [|e evs IH]; intro Hf; [reflexivity|].
  simpl in Hf. apply andb_prop in Hf. destruct Hf as [He Hf].
  rewrite count_cons, (HP _ He), (IH Hf). reflexivity.
Qed.

Section RunShape.

Context {B : Type} {RB : ReplayBuffer B} {RBS : ReplayBufferSpec B}.

Lemma run_prologue_shape config0 (t t1 : Trainer B) fuel :
  Trainer_init config0 = Ok t ->
  run_prologue fuel t = Ok t1 ->
  config t1 = config0
  /\ capacity (replay_buffer t1) = capacity (rb_new config0)
  /\ size (replay_buffer t1) = buffer_prefill config0
  /\ last_eval t1 = buffer_prefill config0
  /\ exists evs_pre evs_pt,
       trace t1 = evs_pre ++ evs_pt
                  ++ [SyncTarget; Evaluate false; SummarizerAppend; WandbLog]
       /\ located prefill_call 0 evs_pre
       /\ env_steps evs_pre = buffer_prefill config0
       /\ forallb is_pretrain_call evs_pt = true.
Proof.
  intros Hinit Hrun. apply Trainer_init_ok in Hinit.
  destruct Hinit as (-> & Hp & _).
  unfold run_prologue in Hrun. cbn [config replay_buffer trace] in Hrun.
  set (t0 := mkTrainer config0 (rb_new config0) 0 []) in *.
  destruct (_pretrain fuel (prefill t0)) as [t2| |] eqn:Hpt; try discriminate.
  cbn [bind] in Hrun. injection Hrun as <-.
  destruct (prefill_spec t0 Hp) as ((Hc & Hk & evs & Ht & Hl & Hs) & Hs' & _ & _).
  apply pretrain_shape in Hpt.
  destruct Hpt as (Hc2 & Hb2 & _ & evs2 & Ht2 & Hf2).
  cbn [emit call_evaluate config replay_buffer last_eval trace].
  rewrite Hb2, Hc2, Hc, Hk, Hs'. cbn [t0 config replay_buffer].
  rewrite rb_new_empty.
  split; [reflexivity|]. split; [reflexivity|]. split; [lia|]. split; [lia|].
  exists evs, evs2. rewrite Ht2, Ht. cbn [t0 trace app].
  change (replay_buffer t0) with (rb_new config0) in *.
  change (config t0) with config0 in *.
  rewrite rb_new_empty in Hl, Hs, Hs'.
  split; [rewrite <- !app_assoc; reflexivity|].
  split; [assumption|]. split; [lia|assumption].
Qed.

Lemma run_shape config0 (t t' : Trainer B) fuel :
  Trainer_init config0 = Ok t ->
  run fuel t = Ok t' ->
  exists t1 te evs_main,
    run_prologue fuel t = Ok t1
    /\ train_every t1 = Ok te
    /\ trace t' = trace t1 ++ evs_main
         ++ [Evaluate true; BufferMetrics (size (replay_buffer t'));
             SummarizerAppend; WandbLog]
         ++ (if save config0
             then [Save "agent_final.pt"
                        (checkpoint_of config0 (size (replay_buffer t')))]
             else [])
    /\ located (main_call config0 (capacity (rb_new config0)))
               (buffer_prefill config0) evs_main
    /\ size (replay_buffer t') = buffer_prefill config0 + env_steps evs_main
    /\ capacity (rb_new config0) <= size (replay_buffer t')
    /\ (buffer_prefill config0 <= capacity (rb_new config0) ->
        size (replay_buffer t') = capacity (rb_new config0)).
Proof.
  intros Hinit Hrun. unfold run in Hrun.
  destruct (run_prologue fuel t) as [t1| |] eqn:Hpro; try discriminate.
  cbn [bind] in Hrun.
  destruct (train_every t1) as [te| |] eqn:Hte; try discriminate.
  cbn [bind] in Hrun.
  destruct (main_loop fuel te t1) as [t2| |] eqn:Hml; try discriminate.
  cbn [bind] in Hrun. injection Hrun as <-.
  destruct (run_prologue_shape _ _ _ _ Hinit Hpro) as (Hc1 & Hk1 & Hs1 & _).
  apply main_loop_calls in Hml.
  destruct Hml as ((Hc2 & Hk2 & evs & Ht2 & Hl2 & Hs2) & Hge & Heq).
  rewrite Hc1, Hk1, Hs1 in *.
  exists t1, te, evs. split; [reflexivity|]. split; [exact Hte|].
  assert (Hsz : size (replay_buffer
                  (final_save (emit WandbLog (emit SummarizerAppend
                     (buffer_metrics (call_evaluate true t2))))))
                = size (replay_buffer t2)).
  { unfold final_save. destruct (save _); reflexivity. }
  rewrite Hsz. split; [|repeat split; assumption].
  unfold final_save.
  cbn [emit buffer_metrics call_evaluate config replay_buffer trace].
  destruct t2 as [c2 b2 le2 tr2].
  cbn [config replay_buffer trace] in Hc2, Ht2 |- *. subst c2 tr2.
  unfold final_save, make_checkpoint, checkpoint_of.
  cbn [emit buffer_metrics call_evaluate config replay_buffer trace].
  destruct (save config0);
    cbn [emit buffer_metrics call_evaluate config replay_buffer trace];
    rewrite <- !app_assoc; reflexivity.
Qed.

End RunShape.

Lemma forallb_located (P : event -> bool) (Q : Z -> event -> Prop) :
  (forall n e, P e = true -> Q n e) ->
  forall evs n, forallb P evs = true -> located Q n evs.
Proof.
  intros HPQ evs. induction evs as [|e evs IH]; intros n Hf; [exact I|].
  simpl in Hf. apply andb_prop in Hf. destruct Hf as [He Hf].
  split; [apply HPQ; assumption|apply IH; assumption].
Qed.

Section Prologue.

Context {B : Type} {RB : ReplayBuffer B} {RBS : ReplayBufferSpec B}.

(** Before the main loop the trainer has taken [buffer_prefill] steps, all
    of the prefill, and has made only prologue calls. *)
Lemma run_prologue_located config0 (t t1 : Trainer B) fuel :
  Trainer_init config0 = Ok t ->
  run_prologue fuel t = Ok t1 ->
  located prologue_call 0 (trace t1)
  /\ env_steps (trace t1) = buffer_prefill config0.
Proof.
  intros Hinit Hpro.
  destruct (run_prologue_shape _ _ _ _ Hinit Hpro)
    as (_ & _ & _ & _ & evs_pre & evs_pt & Ht & Hl & Hs & Hf).
  assert (Hpt : env_steps evs_pt = 0).
  { apply (forallb_count_zero is_pretrain_call); [|assumption].
    intros [] He; try discriminate; reflexivity. }
  rewrite Ht. split.
  - apply located_app. split.
    + eapply located_weaken; [|exact Hl].
      intros n [] He; simpl in *; tauto.
    + apply located_app. split.
      * apply (forallb_located is_pretrain_call); [|assumption].
        intros n [] He; try discriminate; exact I.
      * simpl. auto.
  - unfold env_steps in *. rewrite !count_app, Hs, Hpt.
    change (count is_env_step
              [SyncTarget; Evaluate false; SummarizerAppend; WandbLog])
      with 0. lia.
Qed.

End Prologue.

(** ** Budget of environment steps *)



(** ** A negative period *)

Section NegativePeriod.

Context {B : Type} {RB : ReplayBuffer B} {RBS : ReplayBufferSpec B}.

Variable train_every : Q.
Hypothesis train_every_neg : (train_every < 0)%Q.




End NegativePeriod.



(** ** Degenerate budget arithmetic *)





Section MainLoopNoRaise.

Context {B : Type} {RB : ReplayBuffer B}.


End MainLoopNoRaise.




(** ** The fractional step counter *)

Section StepCounter.

Context {B : Type} {RB : ReplayBuffer B}.

Lemma collect_body_counts (l l' : loop B) :
  collect_body l = Ok l' ->
  collect_steps (trace (self l')) = collect_steps (trace (self l)) + 1
  /\ train_rounds (trace (self l')) = train_rounds (trace (self l))
  /\ step_counter l' = (step_counter l + 1)%Q.
Proof.
  unfold collect_body. intro Heq. injection Heq as <-.
  cbn [self step_counter]. split; [|split; [|reflexivity]];
    destruct (eval_every _ <=? _);
    cbn [buffer_step emit buffer_metrics call_evaluate trace];
    unfold collect_steps, train_rounds; rewrite ?count_app, ?count_single;
    cbn [is_collect_step is_train_step]; lia.
Qed.

Lemma train_body_counts te (l l' : loop B) :
  train_body te l = Ok l' ->
  collect_steps (trace (self l')) = collect_steps (trace (self l))
  /\ train_rounds (trace (self l')) = train_rounds (trace (self l)) + 1
  /\ step_counter l' = (step_counter l - te)%Q.
Proof.
  unfold train_body. intro Heq. injection Heq as <-.
  cbn [self step_counter emit trace].
  unfold collect_steps, train_rounds. rewrite !count_app, !count_single.
  cbn [is_collect_step is_train_step]. repeat split; lia.
Qed.






End StepCounter.



(** ** Pretraining returns *)

Lemma Qceiling_pos_lt (x y : Q) :
  (0 < x)%Q -> (y <= 0 \/ y <= x - 1)%Q ->
  (Z.to_nat (Qceiling y) < Z.to_nat (Qceiling x))%nat.
Proof.
  intros Hx Hy.
  assert (H1 : 0 < Qceiling x).
  { pose proof (Qle_ceiling x) as H. rewrite Zlt_Qlt.
    change (inject_Z 0) with 0%Q. lra. }
  destruct Hy as [Hy|Hy].
  - apply Qceiling_resp_le in Hy. change (Qceiling 0) with 0 in Hy. lia.
  - apply Qceiling_resp_le in Hy.
    assert (H2 : Qceiling (x - 1) < Qceiling x).
    { pose proof (Qceiling_lt (x - 1)) as Ha.
      pose proof (Qle_ceiling x) as Hb.
      rewrite Zlt_Qlt. unfold Z.sub in Ha. rewrite inject_Z_plus in Ha.
      change (inject_Z (- (1))) with (- (1))%Q in Ha. lra. }
    lia.
Qed.

Section PretrainReturns.

Context {B : Type} {RB : ReplayBuffer B}.

(** One pass over a productive sweep spends at least one sample of budget,
    or exhausts the budget. *)
Lemma sweep_for_budget opt batches : forall budget (t : Trainer B),
  forallb (fun idx => 0 <=? numel_trim2 idx) batches = true ->
  let b' := fst (sweep_for opt batches budget t) in
  (b' <= budget)%Q
  /\ (existsb (fun idx => 0 <? numel_trim2 idx) batches = true ->
      (b' <= 0 \/ b' <= budget - 1)%Q).
Proof.
  induction batches as [|idx rest IH]; intros budget t Hf; cbn zeta.
  - simpl. split; [lra|discriminate].
  - simpl in Hf. apply andb_prop in Hf. destruct Hf as [Hn Hf].
    apply Z.leb_le in Hn.
    assert (Hq : (0 <= inject_Z (numel_trim2 idx))%Q)
      by (change 0%Q with (inject_Z 0); rewrite <- Zle_Qle; exact Hn).
    cbn [sweep_for].
    destruct (Qle_bool (budget - inject_Z (numel_trim2 idx)) 0) eqn:Eb.
    + apply Qle_bool_iff in Eb. cbn [fst]. split; [lra|]. intros _. left. exact Eb.
    + destruct (IH (budget - inject_Z (numel_trim2 idx))%Q
                   (emit (opt (numel_trim2 idx)) t) Hf) as [H1 H2].
      cbn zeta in H1, H2. split; [lra|].
      intro He. simpl in He. apply orb_prop in He. destruct He as [He|He].
      * apply Z.ltb_lt in He.
        assert (Hq1 : (1 <= inject_Z (numel_trim2 idx))%Q)
          by (change 1%Q with (inject_Z 1); rewrite <- Zle_Qle; lia).
        right. lra.
      * destruct (H2 He) as [H|H]; [left; exact H|right; lra].
Qed.

Lemma sweep_loop_returns opt batch len (t : Trainer B) (budget : Q) (n : nat) :
  productive (generate_uniform_indices (replay_buffer t) batch len 2) = true ->
  (Z.to_nat (Qceiling budget) < n)%nat ->
  exists s', while n budget_cond (sweep_body opt batch len)
                   (mkSweep budget 0 t) = Ok s'.
Proof.
  intros Hp Hn.
  apply (while_terminates
           (fun x : sweep B => replay_buffer (sw_self x) = replay_buffer t)
           (fun x => Z.to_nat (Qceiling (sw_budget x))));
    [|reflexivity|exact Hn].
  intros s Hs Hc. unfold budget_cond in Hc. apply Qltb_lt in Hc.
  unfold sweep_body. rewrite Hs.
  unfold productive in Hp. apply andb_prop in Hp. destruct Hp as [Hf He].
  pose proof (sweep_for_budget opt _ (sw_budget s) (sw_self s) Hf) as Hb.
  pose proof (sweep_for_calls (fun _ => true) opt (fun _ => eq_refl)
                (generate_uniform_indices (replay_buffer t) batch len 2)
                (sw_budget s) (sw_self s)) as Hcalls.
  destruct (sweep_for opt _ (sw_budget s) (sw_self s)) as [b' t'].
  cbn [fst snd] in Hb, Hcalls. cbn zeta in Hb. destruct Hb as [_ Hb].
  eexists. split; [reflexivity|]. cbn [sw_self sw_budget].
  split.
  - destruct Hcalls as (_ & Hrb & _). congruence.
  - apply Qceiling_pos_lt; [exact Hc|exact (Hb He)].
Qed.

Lemma slice_to_pos (n k : Z) : 0 < n -> 0 < k -> 1 <= slice_to n k.
Proof. unfold slice_to. intros Hn Hk. destruct (0 <=? k) eqn:E; lia. Qed.

Lemma slice_from_lt (n k : Z) :
  0 < n -> 0 < k -> 0 <= slice_from n k < n.
Proof.
  unfold slice_from. intros Hn Hk.
  destruct (0 <=? k) eqn:E; [lia|]. apply Z.leb_gt in E. lia.
Qed.

Lemma obs_inner_returns batch (s : sweep B) (n : nat) :
  0 < batch ->
  (Z.to_nat (sw_indices s) < n)%nat ->
  exists s', while n obs_inner_cond (obs_inner_body batch) s = Ok s'.
Proof.
  intros Hb Hn.
  apply (while_terminates (fun _ => True)
           (fun x : sweep B => Z.to_nat (sw_indices x)));
    [|exact I|exact Hn].
  intros x _ Hc. unfold obs_inner_cond in Hc.
  apply andb_prop in Hc. destruct Hc as [Hc _]. apply Z.ltb_lt in Hc.
  eexists. split; [reflexivity|]. split; [exact I|].
  cbn [sw_indices]. pose proof (slice_from_lt _ _ Hc Hb). lia.
Qed.

Lemma obs_inner_budget batch fuel (s s' : sweep B) :
  0 < batch ->
  while fuel obs_inner_cond (obs_inner_body batch) s = Ok s' ->
  (sw_budget s' <= sw_budget s)%Q
  /\ replay_buffer (sw_self s') = replay_buffer (sw_self s).
Proof.
  intros Hb Hw.
  apply (while_inv (fun x => (sw_budget x <= sw_budget s)%Q
             /\ replay_buffer (sw_self x) = replay_buffer (sw_self s)))
    in Hw; [tauto| |split; [lra|reflexivity]].
  intros x x' [Hx Hrb] Hc Heq. injection Heq as <-.
  cbn [sw_budget sw_self emit replay_buffer]. split; [|exact Hrb].
  unfold obs_inner_cond in Hc. apply andb_prop in Hc.
  destruct Hc as [Hc _]. apply Z.ltb_lt in Hc.
  pose proof (slice_to_pos _ _ Hc Hb) as Hs.
  assert (Hq : (1 <= inject_Z (slice_to (sw_indices x) batch))%Q)
    by (change 1%Q with (inject_Z 1); rewrite <- Zle_Qle; exact Hs).
  lra.
Qed.

Lemma pretrain_obs_returns (t : Trainer B) (n : nat) :
  0 < size (replay_buffer t) ->
  0 < wm_batch_size (config t) * wm_sequence_length (config t) ->
  (Z.to_nat (size (replay_buffer t)) < n)%nat ->
  (Z.to_nat (Qceiling (inject_Z (pretrain_budget (config t))
                       * pretrain_obs_p (config t))) < n)%nat ->
  exists t', pretrain_obs n t = Ok t'.
Proof.
  intros Hsz Hb Hn1 Hn2. unfold pretrain_obs.
  set (batch := wm_batch_size (config t) * wm_sequence_length (config t)) in *.
  destruct (while_terminates
    (fun x : sweep B => replay_buffer (sw_self x) = replay_buffer t)
    (fun x => Z.to_nat (Qceiling (sw_budget x)))
    budget_cond (obs_outer_body n batch)) with (n := n)
    (s := mkSweep (inject_Z (pretrain_budget (config t))
                   * pretrain_obs_p (config t))%Q 0 t) as [s' Hw];
    [|reflexivity|exact Hn2|rewrite Hw; cbn [bind]; eauto].
  intros s Hs Hc. unfold budget_cond in Hc. pose proof Hc as Hc'.
  apply Qltb_lt in Hc. unfold obs_outer_body. rewrite Hs.
  set (s0 := mkSweep (sw_budget s) (size (replay_buffer t)) (sw_self s)).
  destruct (obs_inner_returns batch s0 n Hb Hn1) as [s1 H1].
  exists s1. split; [exact H1|].
  destruct n as [|n']; [lia|]. rewrite while_unfold in H1.
  assert (Hc0 : obs_inner_cond s0 = true).
  { unfold obs_inner_cond. cbn [s0 sw_indices sw_budget].
    rewrite Hc'. apply Z.ltb_lt in Hsz. rewrite Hsz. reflexivity. }
  rewrite Hc0 in H1. cbn [obs_inner_body bind] in H1.
  apply obs_inner_budget in H1; [|exact Hb].
  cbn [sw_budget sw_self emit replay_buffer s0] in H1.
  destruct H1 as [Hle Hrb]. split; [congruence|].
  apply Qceiling_pos_lt; [exact Hc|]. right.
  pose proof (slice_to_pos _ _ Hsz Hb) as Hs1.
  assert (Hq : (1 <= inject_Z (slice_to (size (replay_buffer t)) batch))%Q)
    by (change 1%Q with (inject_Z 1); rewrite <- Zle_Qle; exact Hs1).
  change (sw_indices s0) with (size (replay_buffer t)) in Hle. lra.
Qed.

End PretrainReturns.

Section PretrainPhase.

Context {B : Type} {RB : ReplayBuffer B}.

(** With a non-empty store, a positive batch size and productive sweeps,
    the pretraining phase returns. *)
Lemma pretrain_returns (t : Trainer B) :
  0 < size (replay_buffer t) ->
  0 < wm_batch_size (config t) * wm_sequence_length (config t) ->
  productive (generate_uniform_indices (replay_buffer t)
                (wm_batch_size (config t)) (wm_sequence_length (config t)) 2)
  = true ->
  productive (generate_uniform_indices (replay_buffer t)
                (ac_batch_size (config t)) (ac_horizon (config t)) 2)
  = true ->
  exists n t', _pretrain n t = Ok t'.
Proof.
  intros Hsz Hb Hdyn Hac.
  set (n := S (Nat.max (Z.to_nat (size (replay_buffer t)))
             (Nat.max (Z.to_nat (Qceiling (inject_Z (pretrain_budget (config t))
                                           * pretrain_obs_p (config t))))
             (Nat.max (Z.to_nat (Qceiling (inject_Z (pretrain_budget (config t))
                                           * pretrain_dyn_p (config t))))
                      (Z.to_nat (Qceiling (pretrain_ac_budget (config t)))))))).
  exists n. unfold _pretrain.
  destruct (pretrain_obs_returns t n Hsz Hb) as [t1 H1]; [lia|lia|].
  rewrite H1. cbn [bind].
  apply pretrain_obs_calls in H1. destruct H1 as (Hc1 & Hrb1 & _).
  unfold pretrain_dyn. cbn [emit config].
  destruct (sweep_loop_returns PretrainDyn
              (wm_batch_size (config t1)) (wm_sequence_length (config t1))
              (emit EncodeAll t1)
              (inject_Z (pretrain_budget (config t1)) * pretrain_dyn_p (config t1))%Q
              n) as [s2 H2].
  { cbn [emit replay_buffer]. rewrite Hrb1, Hc1. exact Hdyn. }
  { rewrite Hc1. lia. }
  unfold emit in H2 |- *. rewrite H2. cbn [bind].
  apply (sweep_loop_calls (fun _ => true)) in H2; [|reflexivity].
  cbn [sw_self] in H2. destruct H2 as (Hc2 & Hrb2 & _).
  cbn [config replay_buffer] in Hc2, Hrb2.
  unfold pretrain_ac.
  destruct (sweep_loop_returns PretrainAC
              (ac_batch_size (config (sw_self s2)))
              (ac_horizon (config (sw_self s2)))
              (sw_self s2)
              (pretrain_ac_budget (config (sw_self s2))) n) as [s3 H3].
  { rewrite Hrb2, Hrb1, Hc2, Hc1. exact Hac. }
  { rewrite Hc2, Hc1. lia. }
  rewrite H3. cbn [bind]. eauto.
Qed.

End PretrainPhase.

(** C7: a pretraining phase that runs on a non-empty store with a positive
    batch size and productive sweeps returns, its last call is
    [sync_target] and it makes no other call of it; in a run, [sync_target]
    is called exactly once, after every actor-critic pretraining call and
    before any collection step or training round of the main loop. *)
Theorem pretrain_syncs_target_once (B : Type) (RB : ReplayBuffer B)
  (RBS : ReplayBufferSpec B) (t : Trainer B) :
  0 < size (replay_buffer t) ->
  0 < wm_batch_size (config t) * wm_sequence_length (config t) ->
  productive (generate_uniform_indices (replay_buffer t)
                (wm_batch_size (config t)) (wm_sequence_length (config t)) 2)
  = true ->
  productive (generate_uniform_indices (replay_buffer t)
                (ac_batch_size (config t)) (ac_horizon (config t)) 2)
  = true ->
  (exists fuel0 evs,
     forallb is_pretrain_call evs = true
     /\ forall fuel, (fuel0 <= fuel)%nat ->
          exists t', _pretrain fuel t = Ok t'
                     /\ trace t' = trace t ++ evs ++ [SyncTarget])
  /\ (forall config0 (t0 t' : Trainer B) fuel,
        Trainer_init config0 = Ok t0 ->
        run fuel t0 = Ok t' ->
        exists pre post,
          trace t' = pre ++ SyncTarget :: post
          /\ count is_sync_target pre = 0
          /\ count is_sync_target post = 0
          /\ count is_pretrain_ac post = 0
          /\ count is_main_loop_call pre = 0).
Proof.
  intros Hsz Hb Hdyn Hac. split.
  - destruct (pretrain_returns t Hsz Hb Hdyn Hac) as (n & t' & Hpt).
    destruct (pretrain_shape _ _ _ Hpt) as (_ & _ & _ & evs & Ht & Hf).
    exists n, evs. split; [exact Hf|].
    intros fuel Hle. exists t'. split; [|exact Ht].
    apply (pretrain_mono t n fuel); [exact Hle|exact Hpt|discriminate].
  - intros config0 t0 t' fuel Hinit Hrun.
    destruct (run_shape _ _ _ _ Hinit Hrun)
      as (t1 & te & evs_main & Hpro & _ & Ht & Hl & _).
    destruct (run_prologue_shape _ _ _ _ Hinit Hpro)
      as (_ & _ & _ & _ & evs_pre & evs_pt & Ht1 & Hlp & _ & Hf).
    exists (evs_pre ++ evs_pt),
           ([Evaluate false; SummarizerAppend; WandbLog] ++ evs_main
            ++ [Evaluate true; BufferMetrics (size (replay_buffer t'));
                SummarizerAppend; WandbLog]
            ++ (if save config0
                then [Save "agent_final.pt"
                           (checkpoint_of config0 (size (replay_buffer t')))]
                else [])).
    split; [rewrite Ht, Ht1, <- !app_assoc; reflexivity|].
    assert (Hpre : forall p,
              (forall k e, prefill_call k e -> p e = false) ->
              (forall e, is_pretrain_call e = true -> p e = false) ->
              count p (evs_pre ++ evs_pt) = 0).
    { intros p Hp1 Hp2. rewrite count_app.
      rewrite (located_count_zero prefill_call p Hp1 _ _ Hlp).
      rewrite (forallb_count_zero is_pretrain_call p Hp2 _ Hf). reflexivity. }
    assert (Hpost : forall p,
              (forall k e, main_call config0 (capacity (rb_new config0)) k e
                           -> p e = false) ->
              (forall b, p (Evaluate b) = false) ->
              (forall k, p (BufferMetrics k) = false) ->
              p SummarizerAppend = false -> p WandbLog = false ->
              (forall f c, p (Save f c) = false) ->
              count p ([Evaluate false; SummarizerAppend; WandbLog] ++ evs_main
                ++ [Evaluate true; BufferMetrics (size (replay_buffer t'));
                    SummarizerAppend; WandbLog]
                ++ (if save config0
                    then [Save "agent_final.pt"
                            (checkpoint_of config0 (size (replay_buffer t')))]
                    else [])) = 0).
    { intros p Hp1 Hp2 Hp3 Hp4 Hp5 Hp6. rewrite !count_app.
      rewrite (located_count_zero _ p Hp1 _ _ Hl).
      destruct (save config0); rewrite ?count_cons, ?Hp2, ?Hp3, ?Hp4, ?Hp5, ?Hp6;
        reflexivity. }
    split; [|split; [|split]].
    + apply Hpre; intros; destruct e; simpl in *; try reflexivity;
        try discriminate; tauto.
    + apply Hpost; try reflexivity; intros; destruct e; simpl in *;
        try reflexivity; tauto.
    + apply Hpost; try reflexivity; intros; destruct e; simpl in *;
        try reflexivity; tauto.
    + apply Hpre.
      * intros k [[]| | | | | | | | | | |] He; simpl in *;
          try reflexivity; try discriminate; tauto.
      * intros [[]| | | | | | | | | | |] He; simpl in *;
          try reflexivity; discriminate.
Qed.

(** An instance: a store of 10 transitions, batches of 2 windows of length
    5, a pretraining budget of 100. *)
Lemma pretrain_syncs_target_once_witness :
  let RB := CounterBuffer 20 in
  let config0 := scenario 10 100 1000 (6 # 10) (3 # 10) 5 5 true in
  let t := prefill (mkTrainer config0 (mkCounter 0 20) 0 []) in
  (0 < size (replay_buffer t))
  /\ (exists fuel0 evs,
        forallb is_pretrain_call evs = true
        /\ forall fuel, (fuel0 <= fuel)%nat ->
             exists t', _pretrain fuel t = Ok t'
                        /\ trace t' = trace t ++ evs ++ [SyncTarget])
  /\ (forall config1 (t0 t' : Trainer counter_buffer) fuel,
        Trainer_init config1 = Ok t0 ->
        run fuel t0 = Ok t' ->
        exists pre post,
          trace t' = pre ++ SyncTarget :: post
          /\ count is_sync_target pre = 0
          /\ count is_sync_target post = 0
          /\ count is_pretrain_ac post = 0
          /\ count is_main_loop_call pre = 0).
Proof.
  intros RB config0 t. split; [reflexivity|].
  apply (pretrain_syncs_target_once counter_buffer RB (CounterBufferSpec 20) t);
    reflexivity.
Defined.

(** ** Checkpoints *)

Lemma saves_app tr1 tr2 : saves (tr1 ++ tr2) = saves tr1 ++ saves tr2.
Proof. apply flat_map_app. Qed.

Lemma located_saves (P : Z -> event -> Prop) (Q : string * checkpoint -> Prop) :
  (forall k f c, P k (Save f c) -> Q (f, c)) ->
  forall evs n, located P n evs -> Forall Q (saves evs).
Proof.
  intros HPQ evs. induction evs as [|e evs IH]; intros n Hl; [constructor|].
  destruct Hl as [He Hl]. specialize (IH _ Hl).
  destruct e; simpl; try exact IH.
  constructor; [eapply HPQ; exact He|exact IH].
Qed.

(** C8, amended: at the end of a pass of the main loop a checkpoint
    ["agent.pt"] is written exactly when [save] is set,
    [size - last_eval >= save_every] and [size < capacity], [last_eval]
    being the size recorded by the latest evaluation; in a run that returns,
    every checkpoint holds exactly the configuration, the parameters and the
    size of the store at that moment, with [save] unset none is written, and
    with [save] set the last call of the run writes ["agent_final.pt"], the
    only checkpoint of that name. *)
Theorem checkpoints_written (B : Type) (RB : ReplayBuffer B)
  (RBS : ReplayBufferSpec B) (config0 : Config) (t t' : Trainer B)
  (fuel : nat) :
  Trainer_init config0 = Ok t ->
  run fuel t = Ok t' ->
  (forall x : Trainer B,
     trace (periodic_save x)
     = trace x
       ++ (if save (config x)
              && (save_every (config x)
                  <=? size (replay_buffer x) - last_eval x)
              && (size (replay_buffer x) <? capacity (replay_buffer x))
           then [Save "agent.pt"
                      (checkpoint_of (config x) (size (replay_buffer x)))]
           else []))
  /\ (forall (x : Trainer B) b,
        last_eval (call_evaluate b x) = size (replay_buffer x))
  /\ located (checkpoint_call config0 (capacity (rb_new config0))) 0 (trace t')
  /\ (save config0 = false -> saves (trace t') = [])
  /\ (save config0 = true ->
      exists pre,
        trace t'
        = pre ++ [Save "agent_final.pt"
                       (checkpoint_of config0 (size (replay_buffer t')))]
        /\ Forall (fun fc => fst fc = "agent.pt"%string) (saves pre)).
Proof.
  intros Hinit Hrun.
  split.
  { intro x. unfold periodic_save, below_capacity.
    destruct (_ && _ && _); [reflexivity|]. rewrite app_nil_r. reflexivity. }
  split; [reflexivity|].
  destruct (run_shape _ _ _ _ Hinit Hrun)
    as (t1 & te & evs & Hpro & _ & Ht & Hl & Hs & _).
  destruct (run_prologue_located _ _ _ _ Hinit Hpro) as [Hlp Hsp].
  set (cap := capacity (rb_new config0)) in *.
  assert (Hall : located (checkpoint_call config0 cap) 0 (trace t')).
  { rewrite Ht. apply located_app. split.
    - eapply located_weaken; [|exact Hlp].
      intros n [] He; simpl in *; tauto.
    - rewrite Hsp, Z.add_0_l. apply located_app. split.
      + eapply located_weaken; [|exact Hl].
        intros n [] He; simpl in *; tauto.
      + rewrite <- Hs. destruct (save config0) eqn:Es; simpl; auto 10. }
  split; [exact Hall|]. split.
  - intro Hsv.
    assert (HF : Forall (fun _ => False) (saves (trace t'))).
    { eapply (located_saves (checkpoint_call config0 cap)); [|exact Hall].
      intros k f c [Hs' _]. congruence. }
    destruct (saves (trace t')) as [|fc l]; [reflexivity|].
    inversion HF; contradiction.
  - intro Hsv. rewrite Hsv in Ht.
    exists (trace t1 ++ evs
            ++ [Evaluate true; BufferMetrics (size (replay_buffer t'));
                SummarizerAppend; WandbLog]).
    split; [rewrite Ht, <- !app_assoc; reflexivity|].
    rewrite !saves_app. apply Forall_app; split.
    + eapply (located_saves prologue_call); [|exact Hlp].
      intros k f c [].
    + apply Forall_app; split.
      * eapply (located_saves (main_call config0 cap)); [|exact Hl].
        intros k f c (-> & _). reflexivity.
      * constructor.
Qed.

(** An instance: capacity 6, [save_every = 2], [eval_every = 3], [save]
    set. *)
Lemma checkpoints_written_witness :
  let RB := CounterBuffer 6 in
  let config0 := scenario 1 0 200 (6 # 10) (3 # 10) 3 2 true in
  let t := mkTrainer config0 (mkCounter 0 6) 0 [] in
  let t' := match run 10 t with Ok t' => t' | _ => t end in
  Trainer_init config0 = Ok t
  /\ run 10 t = Ok t'
  /\ located (checkpoint_call config0 (capacity (rb_new config0))) 0 (trace t')
  /\ (save config0 = false -> saves (trace t') = [])
  /\ (save config0 = true ->
      exists pre,
        trace t'
        = pre ++ [Save "agent_final.pt"
                       (checkpoint_of config0 (size (replay_buffer t')))]
        /\ Forall (fun fc => fst fc = "agent.pt"%string) (saves pre)).
Proof.
  intros RB config0 t t'.
  split; [reflexivity|]. split; [vm_compute; reflexivity|].
  apply (checkpoints_written counter_buffer RB (CounterBufferSpec 6)
           config0 t t' 10%nat).
  - reflexivity.
  - vm_compute. reflexivity.
Defined.

(** C8, as stated, fails.  With [save_every = 2], [eval_every = 3] and
    capacity 6, ["agent.pt"] is written at size 3; the evaluation at size 4
    moves [last_eval] to 4, and the pass that ends at size 5 writes nothing
    although the store has grown by [save_every] since the last checkpoint
    and is below capacity. *)
Lemma no_checkpoint_after_growth_by_save_every :
  let RB := CounterBuffer 6 in
  let config0 := scenario 1 0 200 (6 # 10) (3 # 10) 3 2 true in
  let t := mkTrainer config0 (mkCounter 0 6) 0 [] in
  exists t',
    Trainer_init config0 = Ok t
    /\ run 10 t = Ok t'
    /\ save config0 = true
    /\ save_every config0 <= 5 - 3
    /\ 5 < capacity (replay_buffer t')
    /\ saved_at (trace t')
       = [("agent.pt"%string, Some 3); ("agent_final.pt"%string, Some 6)]
    /\ trace t'
       = [EnvStep random_policy; BufferMetrics 1; EncodeAll; SyncTarget;
          Evaluate false; SummarizerAppend; WandbLog;
          EnvStep collect_policy; TrainStep; TrainStep;
          BufferMetrics 2; SummarizerAppend;
          EnvStep collect_policy; TrainStep; TrainStep;
          BufferMetrics 3; SummarizerAppend;
          Save "agent.pt" (checkpoint_of config0 3);
          EnvStep collect_policy; TrainStep; TrainStep;
          BufferMetrics 4; Evaluate false; SummarizerAppend; WandbLog;
          EnvStep collect_policy; TrainStep; TrainStep;
          BufferMetrics 5; SummarizerAppend;
          EnvStep collect_policy; TrainStep; TrainStep;
          BufferMetrics 6; SummarizerAppend;
          Evaluate true; BufferMetrics 6; SummarizerAppend; WandbLog;
          Save "agent_final.pt" (checkpoint_of config0 6)].
Proof.
  intros RB config0 t.
  exists (match run 10 t with Ok t' => t' | _ => t end).
  split; [reflexivity|]. split; [vm_compute; reflexivity|].
  split; [reflexivity|]. split; [vm_compute; discriminate|].
  split; [reflexivity|]. split; vm_compute; reflexivity.
Qed.

(** ** Pretraining budgets *)

(** C2: the code departs from the claim.  Line 289 computes the budget of
    the actor-critic sweep as [pretrain_budget * (1 - obs_p + dyn_p)]: it
    exceeds the remaining share by [2 * pretrain_budget * dyn_p], and the
    three budgets add up to [pretrain_budget * (1 + 2 * dyn_p)].  With
    [pretrain_budget = 100] and fractions 0.6 and 0.3, accepted by the
    constructor, the sweeps consume 60, 30 and 70 samples: 160 in total, for
    a remaining share of 10. *)
Theorem pretrain_ac_budget_overshoots :
  (forall config,
     (pretrain_ac_budget config
      == pretrain_ac_budget_spec config
         + 2 * inject_Z (pretrain_budget config) * pretrain_dyn_p config)%Q
     /\ (inject_Z (pretrain_budget config) * pretrain_obs_p config
         + inject_Z (pretrain_budget config) * pretrain_dyn_p config
         + pretrain_ac_budget config
         == inject_Z (pretrain_budget config)
            * (1 + 2 * pretrain_dyn_p config))%Q)
  /\ (let RB := CounterBuffer 80 in
      let config0 := scenario 40 100 1000 (6 # 10) (3 # 10) 5 5 false in
      let t := mkTrainer config0 (mkCounter 0 80) 0 [] in
      exists t',
        Trainer_init config0 = Ok t
        /\ _pretrain 20 (prefill t) = Ok t'
        /\ (pretrain_ac_budget config0 == 70)%Q
        /\ (pretrain_ac_budget_spec config0 == 10)%Q
        /\ obs_samples (trace t') = 60
        /\ dyn_samples (trace t') = 30
        /\ ac_samples (trace t') = 70
        /\ pretrain_budget config0
           < obs_samples (trace t') + dyn_samples (trace t')
             + ac_samples (trace t')).
Proof.
  split.
  - intro config. unfold pretrain_ac_budget, pretrain_ac_budget_spec.
    split; ring.
  - intros RB config0 t.
    exists (match _pretrain 20 (prefill t) with Ok t' => t' | _ => t end).
    split; [reflexivity|]. split; [vm_compute; reflexivity|].
    split; [reflexivity|]. split; [reflexivity|].
    split; [vm_compute; reflexivity|]. split; [vm_compute; reflexivity|].
    split; [vm_compute; reflexivity|]. vm_compute. reflexivity.
Qed.

(** ** Evaluation: finished flags and episode scores *)

Lemma nth_map_seq {A : Type} (f : nat -> A) (n i : nat) (d : A) :
  (i < n)%nat -> nth i (map f (seq 0 n)) d = f i.
Proof.
  intro Hi.
  rewrite (nth_indep _ d (f 0%nat)) by (rewrite length_map, length_seq; lia).
  rewrite (map_nth f (seq 0 n) 0%nat i), seq_nth by lia. reflexivity.
Qed.

Lemma map_const_repeat {A C : Type} (c : C) (l : list A) :
  map (fun _ => c) l = repeat c (List.length l).
Proof. induction l as [|a l IH]; simpl; congruence. Qed.

Lemma mark_finished_length n fin o : List.length (mark_finished n fin o) = n.
Proof. unfold mark_finished. rewrite length_map, length_seq. reflexivity. Qed.

Lemma add_rewards_length n cs fin r : List.length (add_rewards n cs fin r) = n.
Proof. unfold add_rewards. rewrite length_map, length_seq. reflexivity. Qed.

Lemma mark_finished_nth n fin o i :
  (i < n)%nat ->
  nth i (mark_finished n fin o) false
  = (if nth i fin false then true else finishes o i).
Proof. intro Hi. unfold mark_finished. apply nth_map_seq. exact Hi. Qed.

Lemma add_rewards_nth n cs fin r i :
  (i < n)%nat ->
  nth i (add_rewards n cs fin r) 0%Q
  = (if nth i fin false then nth i cs 0%Q
     else (nth i cs 0 + nth i r 0)%Q).
Proof. intro Hi. unfold add_rewards. apply nth_map_seq. exact Hi. Qed.




(** ** Evaluation: the scores returned *)

Lemma round_scores_app tr1 tr2 :
  round_scores (tr1 ++ tr2) = round_scores tr1 ++ round_scores tr2.
Proof. apply flat_map_app. Qed.

Section EvalLoop.

Variable eval_env : nat -> step_result.
Variable num_episodes : Z.
Variable num_envs : nat.

(** The loop invariant: resets happened with all flags set, and [scores]
    holds the scores of the completed rounds. *)
Let eval_inv (s : eval_state) : Prop :=
  Forall reset_after_all_finished (eval_trace s)
  /\ scores s = round_scores (eval_trace s).

Lemma eval_body_break (s s' : eval_state) :
  eval_body eval_env num_episodes num_envs s = (true, s') ->
  eval_inv s ->
  Z.of_nat (List.length (scores s)) < num_episodes ->
  Forall reset_after_all_finished (eval_trace s')
  /\ scores s' = firstn (Z.to_nat num_episodes) (round_scores (eval_trace s'))
  /\ Z.of_nat (List.length (scores s')) = num_episodes.
Proof.
  unfold eval_body, eval_inv. intros Hb [Hr Hs] Hlt.
  destruct (np_all _); [|discriminate].
  destruct (num_episodes <=? _) eqn:Ele; [|discriminate].
  apply Z.leb_le in Ele. injection Hb as <-. cbn [eval_trace scores].
  set (cur := add_rewards num_envs (current_scores s) (finished s)
                (rewards (eval_env (clock s)))) in *.
  assert (Hrs : round_scores ((eval_trace s ++ [EvalStep]) ++ [RoundScores cur])
                = scores s ++ cur).
  { rewrite !round_scores_app, <- Hs. simpl. rewrite !app_nil_r. reflexivity. }
  rewrite Hrs. split; [|split].
  - repeat (apply Forall_app; split); try assumption;
      repeat constructor.
  - destruct (num_episodes <? _) eqn:Elt; [reflexivity|].
    apply Z.ltb_ge in Elt. symmetry. apply firstn_all2. lia.
  - destruct (num_episodes <? _) eqn:Elt; [|apply Z.ltb_ge in Elt; lia].
    rewrite length_firstn. lia.
Qed.

Lemma eval_body_continue (s s' : eval_state) :
  eval_body eval_env num_episodes num_envs s = (false, s') ->
  eval_inv s ->
  Z.of_nat (List.length (scores s)) < num_episodes ->
  eval_inv s'
  /\ Z.of_nat (List.length (scores s')) < num_episodes
  /\ clock s' = S (clock s)
  /\ (np_all (mark_finished num_envs (finished s) (eval_env (clock s))) = false ->
      scores s' = scores s
      /\ finished s' = mark_finished num_envs (finished s) (eval_env (clock s)))
  /\ (np_all (mark_finished num_envs (finished s) (eval_env (clock s))) = true ->
      List.length (scores s') = (List.length (scores s) + num_envs)%nat).
Proof.
  unfold eval_body, eval_inv. intros Hb [Hr Hs] Hlt.
  destruct (np_all _) eqn:Hall.
  - destruct (num_episodes <=? _) eqn:Ele; [discriminate|].
    apply Z.leb_gt in Ele. injection Hb as <-.
    cbn [eval_trace scores clock finished].
    split; [split|].
    + repeat (apply Forall_app; split); try assumption;
        repeat constructor. exact Hall.
    + rewrite !round_scores_app, <- Hs. simpl. rewrite !app_nil_r. reflexivity.
    + split; [exact Ele|]. split; [reflexivity|].
      split; [discriminate|]. intros _.
      rewrite length_app, add_rewards_length. reflexivity.
  - injection Hb as <-. cbn [eval_trace scores clock finished].
    split; [split|].
    + apply Forall_app; split; [assumption|repeat constructor].
    + rewrite round_scores_app, <- Hs. simpl. rewrite app_nil_r. reflexivity.
    + split; [exact Hlt|]. split; [reflexivity|].
      split; [auto|discriminate].
Qed.

(** When the loop returns, no reset happened before all environments had
    finished, and [scores] is the first [num_episodes] scores of the
    completed rounds. *)
Lemma eval_loop_final (fuel : nat) : forall s s',
  eval_inv s ->
  Z.of_nat (List.length (scores s)) < num_episodes ->
  eval_loop eval_env fuel num_episodes num_envs s = Ok s' ->
  Forall reset_after_all_finished (eval_trace s')
  /\ scores s' = firstn (Z.to_nat num_episodes) (round_scores (eval_trace s'))
  /\ Z.of_nat (List.length (scores s')) = num_episodes.
Proof.
  induction fuel as [|fuel IH]; intros s s' Hinv Hlt Hl; [discriminate|].
  cbn [eval_loop] in Hl. pose proof Hlt as Hg. apply Z.ltb_lt in Hg.
  rewrite Hg in Hl.
  destruct (eval_body eval_env num_episodes num_envs s) as [brk s1] eqn:Hb.
  destruct brk.
  - injection Hl as <-. eapply eval_body_break; eassumption.
  - destruct (eval_body_continue _ _ Hb Hinv Hlt) as (Hinv1 & Hlt1 & _).
    eapply IH; eassumption.
Qed.


(** *** Termination *)

Hypothesis num_envs_pos : (1 <= num_envs)%nat.

(** Every environment eventually reports a finished episode. *)
Hypothesis episodes_finish :
  forall t i, (i < num_envs)%nat ->
    exists t', (t <= t')%nat /\ finishes (eval_env t') i = true.

Lemma np_all_nth (l : list bool) :
  np_all l = true <-> forall i, (i < List.length l)%nat -> nth i l false = true.
Proof.
  unfold np_all. rewrite forallb_forall. split.
  - intros H i Hi. apply H, nth_In, Hi.
  - intros H b Hb. destruct (In_nth _ _ false Hb) as (i & Hi & <-).
    apply H, Hi.
Qed.





End EvalLoop.

(** ** Evaluation: the aggregates *)









(** * Further properties *)

(** ** The parts of a run *)


Section RunParts.

Context {B : Type} {RB : ReplayBuffer B} {RBS : ReplayBufferSpec B}.

Lemma run_unfold fuel (t t' : Trainer B) :
  run fuel t = Ok t' ->
  exists t1 te l',
    run_prologue fuel t = Ok t1
    /\ train_every t1 = Ok te
    /\ while fuel main_cond (main_body fuel te) (mkLoop t1 0 false) = Ok l'
    /\ t' = final_save (emit WandbLog (emit SummarizerAppend
              (buffer_metrics (call_evaluate true (self l'))))).
Proof.
  unfold run. intro Hrun.
  destruct (run_prologue fuel t) as [t1| |] eqn:Hpro; try discriminate.
  cbn [bind] in Hrun.
  destruct (train_every t1) as [te| |] eqn:Hte; try discriminate.
  cbn [bind] in Hrun. unfold main_loop in Hrun.
  destruct (while fuel main_cond _ _) as [l'| |] eqn:Hw; try discriminate.
  cbn [bind] in Hrun. injection Hrun as <-.
  exists t1, te, l'. repeat split; assumption.
Qed.

(** The calls that follow the main loop neither step, collect nor train. *)
Lemma run_epilogue_counts (t2 : Trainer B) (p : event -> bool) :
  (forall b, p (Evaluate b) = false) ->
  (forall k, p (BufferMetrics k) = false) ->
  p SummarizerAppend = false -> p WandbLog = false ->
  (forall f c, p (Save f c) = false) ->
  count p (trace (final_save (emit WandbLog (emit SummarizerAppend
             (buffer_metrics (call_evaluate true t2))))))
  = count p (trace t2).
Proof.
  intros H1 H2 H3 H4 H5. unfold final_save.
  destruct (save _);
    cbn [emit buffer_metrics call_evaluate trace];
    rewrite !count_app, !count_single, ?H1, ?H2, ?H3, ?H4, ?H5; lia.
Qed.

End RunParts.

(** With [buffer_prefill >= capacity] the main loop is left at once: a run
    that returns has taken the prefill steps only, collects and trains
    nothing, and writes no periodic checkpoint. *)
Theorem main_loop_skipped_when_prefill_fills_store (B : Type)
  (RB : ReplayBuffer B) (RBS : ReplayBufferSpec B) (config0 : Config)
  (t t' : Trainer B) (fuel : nat) :
  Trainer_init config0 = Ok t ->
  capacity (rb_new config0) <= buffer_prefill config0 ->
  run fuel t = Ok t' ->
  env_steps (trace t') = buffer_prefill config0
  /\ collect_steps (trace t') = 0
  /\ train_rounds (trace t') = 0
  /\ Forall (fun fc => fst fc = "agent_final.pt"%string) (saves (trace t')).
Proof.
  intros Hinit Hcap Hrun.
  destruct (run_unfold _ _ _ Hrun) as (t1 & te & l' & Hpro & _ & Hw & ->).
  destruct (run_prologue_shape _ _ _ _ Hinit Hpro) as (_ & Hk1 & Hs1 & _).
  destruct (run_prologue_located _ _ _ _ Hinit Hpro) as [Hlp Hsp].
  assert (Hl' : l' = mkLoop t1 0 false).
  { destruct fuel as [|fuel]; [discriminate|]. rewrite while_unfold in Hw.
    unfold main_cond at 1, below_capacity in Hw. cbn [self] in Hw.
    rewrite Hk1, Hs1 in Hw.
    destruct (buffer_prefill config0 <? capacity (rb_new config0)) eqn:E;
      [apply Z.ltb_lt in E; lia|]. congruence. }
  subst l'. cbn [self].
  unfold env_steps, collect_steps, train_rounds.
  rewrite !run_epilogue_counts by reflexivity.
  split; [exact Hsp|].
  split; [|split].
  - apply (located_count_zero prologue_call) with (n := 0); [|exact Hlp].
    intros k [[]| | | | | | | | | | |] He; simpl in *;
      try reflexivity; try discriminate; tauto.
  - apply (located_count_zero prologue_call) with (n := 0); [|exact Hlp].
    intros k [] He; simpl in *; try reflexivity; tauto.
  - assert (Hnone : saves (trace t1) = []).
    { assert (HF : Forall (fun _ => False) (saves (trace t1))).
      { eapply (located_saves prologue_call); [|exact Hlp]. intros k f c []. }
      destruct (saves (trace t1)); [reflexivity|inversion HF; contradiction]. }
    unfold final_save. destruct (save _);
      cbn [emit buffer_metrics call_evaluate trace];
      rewrite !saves_app, Hnone; simpl; repeat constructor.
Qed.

(** An instance: capacity 4 and prefill 4. *)
Lemma main_loop_skipped_when_prefill_fills_store_witness :
  let RB := CounterBuffer 4 in
  let config0 := scenario 4 0 200 (6 # 10) (3 # 10) 3 2 true in
  let t := mkTrainer config0 (mkCounter 0 4) 0 [] in
  let t' := match run 5 t with Ok t' => t' | _ => t end in
  run 5 t = Ok t'
  /\ env_steps (trace t') = buffer_prefill config0
  /\ collect_steps (trace t') = 0
  /\ train_rounds (trace t') = 0
  /\ Forall (fun fc => fst fc = "agent_final.pt"%string) (saves (trace t')).
Proof.
  intros RB config0 t t'. split; [vm_compute; reflexivity|].
  apply (main_loop_skipped_when_prefill_fills_store counter_buffer RB
           (CounterBufferSpec 4) config0 t t' 5%nat).
  - reflexivity.
  - vm_compute. discriminate.
  - vm_compute. reflexivity.
Defined.

(** ** The number of training rounds *)


Lemma main_call_no_pretraining (config : Config) (cap : Z) (p : event -> bool) :
  (forall e, p e = true -> is_pretrain_call e = true \/ e = SyncTarget) ->
  forall evs n, located (main_call config cap) n evs -> count p evs = 0.
Proof.
  intros Hp. apply located_count_zero. intros k e He.
  destruct (p e) eqn:E; [|reflexivity]. exfalso.
  destruct (Hp e E) as [H| ->]; [|exact He].
  destruct e; simpl in *; try discriminate; exact He.
Qed.




(** ** Runs without periodic checkpoints *)

Section NoPeriodicCheckpoint.

Context {B : Type} {RB : ReplayBuffer B}.

Lemma collect_loop_saves te fuel (l l' : loop B) :
  while fuel (collect_cond te) collect_body l = Ok l' ->
  config (self l') = config (self l)
  /\ saves (trace (self l')) = saves (trace (self l)).
Proof.
  intro Hw.
  apply (while_inv (fun x => config (self x) = config (self l)
                             /\ saves (trace (self x)) = saves (trace (self l))))
    in Hw; [tauto| |tauto].
  intros x x' [Hc Hs] _ Hb. unfold collect_body in Hb. injection Hb as <-.
  cbn [self]. destruct (eval_every _ <=? _);
    cbn [buffer_step emit buffer_metrics call_evaluate config trace];
    rewrite ?saves_app; cbn [saves flat_map]; rewrite ?app_nil_r; tauto.
Qed.

Lemma train_loop_saves te fuel (l l' : loop B) :
  while fuel (train_cond te) (train_body te) l = Ok l' ->
  saves (trace (self l')) = saves (trace (self l)).
Proof.
  intro Hw.
  apply (while_inv (fun x => saves (trace (self x)) = saves (trace (self l))))
    in Hw; [tauto| |reflexivity].
  intros x x' Hs _ Hb. unfold train_body in Hb. injection Hb as <-.
  cbn [self emit trace]. rewrite saves_app. cbn [saves flat_map].
  rewrite app_nil_r. exact Hs.
Qed.

Lemma periodic_save_skips (x : Trainer B) :
  0 < save_every (config x) ->
  eval_every (config x) <= save_every (config x) ->
  (eval_every (config x) <=? size (replay_buffer x) - last_eval x)
    && below_capacity x = false
  \/ size (replay_buffer x) - last_eval x = 0 ->
  periodic_save x = x.
Proof.
  intros Hpos Hle H. unfold periodic_save.
  destruct (save_every (config x) <=? _) eqn:Es; [|rewrite andb_false_r; reflexivity].
  destruct (below_capacity x) eqn:Ec; [|rewrite andb_false_r; reflexivity].
  apply Z.leb_le in Es. exfalso. destruct H as [H|H]; [|lia].
  rewrite andb_true_r in H. apply Z.leb_gt in H. lia.
Qed.

Lemma main_body_no_save fuel te (l l' : loop B) :
  0 < save_every (config (self l)) ->
  eval_every (config (self l)) <= save_every (config (self l)) ->
  main_body fuel te l = Ok l' ->
  config (self l') = config (self l)
  /\ saves (trace (self l')) = saves (trace (self l)).
Proof.
  intros Hpos Hle. unfold main_body.
  destruct (while fuel (collect_cond te) _ _) as [l1| |] eqn:H1;
    try discriminate. cbn [bind].
  destruct (while fuel (train_cond te) _ _) as [l2| |] eqn:H2;
    try discriminate. cbn [bind].
  apply collect_loop_saves in H1. cbn [self] in H1. destruct H1 as [Hc1 Hs1].
  pose proof (train_loop_saves _ _ _ _ H2) as Hs2.
  destruct (train_loop_calls _ _ _ _ H2) as ((Hc2 & _) & _).
  rewrite Hc1 in Hc2. rewrite Hs1 in Hs2. clear H2.
  destruct (_ && below_capacity _) eqn:E; intro Heq; injection Heq as <-;
    cbn [self];
    repeat match goal with
           | |- context [if should_log ?x then _ else _] =>
               destruct (should_log x)
           end;
    (rewrite periodic_save_skips;
     [ cbn [call_evaluate emit buffer_metrics config trace];
       rewrite ?saves_app; cbn [saves flat_map]; rewrite ?app_nil_r;
       split; assumption
     | cbn [call_evaluate emit buffer_metrics config]; rewrite Hc2; assumption
     | cbn [call_evaluate emit buffer_metrics config]; rewrite Hc2; assumption
     | ]).
  - right. cbn [call_evaluate emit buffer_metrics replay_buffer last_eval]. lia.
  - left. exact E.
  - left. exact E.
Qed.

End NoPeriodicCheckpoint.

(** With [0 < save_every] and [eval_every <= save_every] a run writes no
    periodic checkpoint ["agent.pt"]: whenever the store has grown by
    [save_every] since the latest evaluation, the evaluation at the end of
    the pass comes first and moves [last_eval] up.  The only checkpoint of
    such a run is the final one. *)
Theorem no_periodic_checkpoint_when_evaluating_as_often (B : Type)
  (RB : ReplayBuffer B) (RBS : ReplayBufferSpec B) (config0 : Config)
  (t t' : Trainer B) (fuel : nat) :
  Trainer_init config0 = Ok t ->
  0 < save_every config0 ->
  eval_every config0 <= save_every config0 ->
  run fuel t = Ok t' ->
  saves (trace t')
  = if save config0
    then [("agent_final.pt"%string,
           checkpoint_of config0 (size (replay_buffer t')))]
    else [].
Proof.
  intros Hinit Hpos Hle Hrun.
  destruct (run_unfold _ _ _ Hrun) as (t1 & te & l' & Hpro & _ & Hw & ->).
  destruct (run_prologue_shape _ _ _ _ Hinit Hpro) as (Hc1 & _).
  destruct (run_prologue_located _ _ _ _ Hinit Hpro) as [Hlp _].
  assert (Hnone : saves (trace t1) = []).
  { assert (HF : Forall (fun _ => False) (saves (trace t1))).
    { eapply (located_saves prologue_call); [|exact Hlp]. intros k f c []. }
    destruct (saves (trace t1)); [reflexivity|inversion HF; contradiction]. }
  apply (while_inv (fun x => config (self x) = config0
                             /\ saves (trace (self x)) = [])) in Hw.
  - destruct Hw as [[Hc Hs] _]. unfold final_save.
    cbn [emit buffer_metrics call_evaluate config]. rewrite Hc.
    destruct (save config0);
      cbn [emit buffer_metrics call_evaluate trace replay_buffer];
      rewrite !saves_app, Hs; unfold make_checkpoint, checkpoint_of;
      cbn [emit buffer_metrics call_evaluate config replay_buffer saves
           flat_map app]; rewrite ?Hc; reflexivity.
  - intros x x' [Hc Hs] _ Hb.
    apply main_body_no_save in Hb; rewrite ?Hc; try assumption.
    destruct Hb as [Hc' Hs']. rewrite Hc', Hs'. split; assumption.
  - cbn [self]. split; assumption.
Qed.

(** An instance: evaluation and checkpoint period 2, capacity 6. *)
Lemma no_periodic_checkpoint_when_evaluating_as_often_witness :
  let RB := CounterBuffer 6 in
  let config0 := scenario 1 0 200 (6 # 10) (3 # 10) 2 2 true in
  let t := mkTrainer config0 (mkCounter 0 6) 0 [] in
  let t' := match run 20 t with Ok t' => t' | _ => t end in
  run 20 t = Ok t'
  /\ saves (trace t') = [("agent_final.pt"%string, checkpoint_of config0 6)].
Proof.
  intros RB config0 t t'. split; [vm_compute; reflexivity|].
  apply (no_periodic_checkpoint_when_evaluating_as_often counter_buffer RB
           (CounterBufferSpec 6) config0 t t' 20%nat).
  - reflexivity.
  - reflexivity.
  - vm_compute. discriminate.
  - vm_compute. reflexivity.
Defined.

(** ** The spacing of evaluations *)

Lemma eval_sizes_app (tr1 tr2 : list event) (n : Z) :
  eval_sizes n (tr1 ++ tr2)
  = eval_sizes n tr1 ++ eval_sizes (n + env_steps tr1) tr2.
Proof.
  revert n. induction tr1 as [|e tr1 IH]; intro n.
  - cbn [app eval_sizes]. unfold env_steps, count. simpl.
    rewrite Z.add_0_r. reflexivity.
  - cbn [app eval_sizes]. rewrite IH, <- app_assoc. f_equal. f_equal.
    unfold env_steps. rewrite count_cons. f_equal.
    destruct (is_env_step e); lia.
Qed.

Lemma gaps_at_least_snoc (d : Z) (l : list Z) (a b : Z) :
  gaps_at_least d (l ++ [a]) -> d <= b - a ->
  gaps_at_least d ((l ++ [a]) ++ [b]).
Proof.
  intros Hg Hd. induction l as [|x l IH].
  - simpl. tauto.
  - destruct l as [|y l]; simpl in *; [tauto|].
    destruct Hg as [H1 H2]. split; [exact H1|]. apply IH. exact H2.
Qed.

Lemma located_eval_sizes_nil (P : Z -> event -> Prop) :
  (forall k, ~ P k (Evaluate false)) ->
  forall evs n, located P n evs -> eval_sizes n evs = [].
Proof.
  intros HP evs. induction evs as [|e evs IH]; intros n Hl; [reflexivity|].
  destruct Hl as [He Hl]. cbn [eval_sizes]. rewrite (IH _ Hl).
  destruct e as [| | | | | | | | |[]| |]; try reflexivity.
  destruct (HP _ He).
Qed.

Lemma forallb_eval_sizes_nil (p : event -> bool) :
  (forall e, p e = true -> is_env_step e = false
                           /\ forall b, e <> Evaluate b) ->
  forall evs n, forallb p evs = true -> eval_sizes n evs = [].
Proof.
  intros Hp evs. induction evs as [|e evs IH]; intros n Hf; [reflexivity|].
  cbn [forallb] in Hf. apply andb_true_iff in Hf. destruct Hf as [He Hf].
  destruct (Hp _ He) as [Hs Hne]. cbn [eval_sizes]. rewrite Hs, (IH _ Hf).
  destruct e as [| | | | | | | | |b| |]; try reflexivity.
  destruct (Hne b eq_refl).
Qed.

Section EvaluationSpacing.

Context {B : Type} {RB : ReplayBuffer B} {RBS : ReplayBufferSpec B}.

Variable first : Z.

Lemma evaluations_spaced_emit (e : event) (x : Trainer B) :
  is_env_step e = false -> (forall b, e <> Evaluate b) ->
  evaluations_spaced first x -> evaluations_spaced first (emit e x).
Proof.
  intros Hs Hne (Hsz & pre & Hes & Hg & Hh). split.
  - cbn [emit replay_buffer trace]. unfold env_steps.
    rewrite count_app, count_single, Hs. fold (env_steps (trace x)). lia.
  - exists pre. cbn [emit trace last_eval config].
    rewrite eval_sizes_app, Hes. cbn [eval_sizes].
    destruct e as [| | | | | | | | |b| |];
      try (rewrite !app_nil_r; tauto).
    destruct (Hne b eq_refl).
Qed.

Lemma evaluations_spaced_step (p : policy) (x : Trainer B) :
  evaluations_spaced first x -> evaluations_spaced first (buffer_step p x).
Proof.
  intros (Hsz & pre & Hes & Hg & Hh). split.
  - cbn [buffer_step replay_buffer trace]. unfold env_steps.
    rewrite count_app, count_single. cbn [is_env_step].
    fold (env_steps (trace x)). rewrite step_size. lia.
  - exists pre. cbn [buffer_step trace last_eval config].
    rewrite eval_sizes_app, Hes. cbn [eval_sizes].
    rewrite !app_nil_r. tauto.
Qed.

Lemma evaluations_spaced_evaluate (x : Trainer B) :
  eval_every (config x) <= size (replay_buffer x) - last_eval x ->
  evaluations_spaced first x -> evaluations_spaced first (call_evaluate false x).
Proof.
  intros Hd (Hsz & pre & Hes & Hg & Hh). split.
  - cbn [call_evaluate replay_buffer trace]. unfold env_steps.
    rewrite count_app, count_single. cbn [is_env_step].
    fold (env_steps (trace x)). lia.
  - exists (pre ++ [last_eval x]).
    cbn [call_evaluate trace last_eval config].
    rewrite eval_sizes_app, Hes. cbn [eval_sizes]. rewrite app_nil_r.
    rewrite <- Hsz, Z.add_0_l. split; [reflexivity|]. split.
    + apply gaps_at_least_snoc; assumption.
    + destruct pre; exact Hh.
Qed.

End EvaluationSpacing.

Section EvaluationSpacingLoops.

Context {B : Type} {RB : ReplayBuffer B} {RBS : ReplayBufferSpec B}.

Variable first : Z.

Lemma collect_loop_spaced te fuel (l l' : loop B) :
  evaluations_spaced first (self l) ->
  while fuel (collect_cond te) collect_body l = Ok l' ->
  evaluations_spaced first (self l').
Proof.
  intros H0 Hw.
  apply (while_inv (fun x => evaluations_spaced first (self x))) in Hw;
    [tauto| |exact H0].
  intros x x' Hx _ Hb. unfold collect_body in Hb. injection Hb as <-.
  cbn [self]. apply evaluations_spaced_step.
  destruct (eval_every _ <=? _) eqn:E; [|exact Hx].
  apply Z.leb_le in E. unfold buffer_metrics.
  repeat (apply evaluations_spaced_emit; [reflexivity|discriminate|]).
  apply evaluations_spaced_evaluate; assumption.
Qed.

Lemma train_loop_spaced te fuel (l l' : loop B) :
  evaluations_spaced first (self l) ->
  while fuel (train_cond te) (train_body te) l = Ok l' ->
  evaluations_spaced first (self l').
Proof.
  intros H0 Hw.
  apply (while_inv (fun x => evaluations_spaced first (self x))) in Hw;
    [tauto| |exact H0].
  intros x x' Hx _ Hb. unfold train_body in Hb. injection Hb as <-.
  cbn [self]. apply evaluations_spaced_emit;
    [reflexivity|discriminate|exact Hx].
Qed.

Lemma periodic_save_spaced (x : Trainer B) :
  evaluations_spaced first x -> evaluations_spaced first (periodic_save x).
Proof.
  intro Hx. unfold periodic_save. destruct (_ && _ && _); [|exact Hx].
  apply evaluations_spaced_emit; [reflexivity|discriminate|exact Hx].
Qed.

Lemma main_body_spaced te fuel (l l' : loop B) :
  evaluations_spaced first (self l) ->
  main_body fuel te l = Ok l' ->
  evaluations_spaced first (self l').
Proof.
  intro H0. unfold main_body.
  destruct (while fuel (collect_cond te) _ _) as [l1| |] eqn:H1;
    try discriminate. cbn [bind].
  destruct (while fuel (train_cond te) _ _) as [l2| |] eqn:H2;
    try discriminate. cbn [bind].
  apply collect_loop_spaced in H1; [|exact H0].
  apply train_loop_spaced in H2; [|exact H1].
  assert (Hm : evaluations_spaced first (buffer_metrics (self l2)))
    by (apply evaluations_spaced_emit; [reflexivity|discriminate|exact H2]).
  destruct (eval_every _ <=? _) eqn:E; cbn [andb];
    [destruct (below_capacity _)|];
    intro Heq; injection Heq as <-; cbn [self];
    apply periodic_save_spaced;
    repeat match goal with
           | |- context [if should_log ?x then _ else _] =>
               destruct (should_log x)
           end;
    repeat (apply evaluations_spaced_emit; [reflexivity|discriminate|]);
    try exact H2.
  apply Z.leb_le in E. apply evaluations_spaced_evaluate; assumption.
Qed.

End EvaluationSpacingLoops.

(** The non-final evaluations of a run that returns: the first is made
    when the prefill is complete, and each later one at least [eval_every]
    steps after the one before. *)
Theorem evaluations_lie_eval_every_apart (B : Type) (RB : ReplayBuffer B)
  (RBS : ReplayBufferSpec B) (config0 : Config) (t t' : Trainer B)
  (fuel : nat) :
  Trainer_init config0 = Ok t ->
  run fuel t = Ok t' ->
  exists later,
    eval_sizes 0 (trace t') = buffer_prefill config0 :: later
    /\ gaps_at_least (eval_every config0) (buffer_prefill config0 :: later).
Proof.
  intros Hinit Hrun.
  destruct (run_unfold _ _ _ Hrun) as (t1 & te & l' & Hpro & _ & Hw & ->).
  destruct (run_prologue_shape _ _ _ _ Hinit Hpro)
    as (Hc1 & _ & Hs1 & Hl1 & pre & pt & Htr & Hpre & Hsp & Hpt).
  destruct (run_prologue_located _ _ _ _ Hinit Hpro) as [_ Hst].
  assert (H1 : evaluations_spaced (buffer_prefill config0) t1).
  { split; [congruence|]. exists []. rewrite Hl1. cbn [app hd gaps_at_least].
    split; [|tauto]. rewrite Htr, !eval_sizes_app.
    rewrite (located_eval_sizes_nil prefill_call) with (evs := pre);
      [|intros k []|exact Hpre].
    rewrite (forallb_eval_sizes_nil is_pretrain_call) with (evs := pt);
      [| |exact Hpt].
    - cbn [eval_sizes is_env_step app]. rewrite Hsp.
      unfold env_steps.
      rewrite (forallb_count_zero is_pretrain_call is_env_step) with (evs := pt)
        by (try exact Hpt; intros []; simpl; congruence).
      f_equal. lia.
    - intros [] He; try discriminate; split; try reflexivity; discriminate. }
  assert (Hml : main_loop fuel te t1 = Ok (self l'))
    by (unfold main_loop; rewrite Hw; reflexivity).
  destruct (main_loop_calls _ _ _ _ Hml) as ((Hc & _) & _).
  apply (while_inv (fun x => evaluations_spaced (buffer_prefill config0) (self x)))
    in Hw; [|intros x x' Hx _ Hb; eapply main_body_spaced; eassumption|exact H1].
  destruct Hw as [(Hsz & pre' & Hes & Hg & Hh) _].
  rewrite Hc, Hc1 in Hg.
  assert (Hfin : eval_sizes 0
            (trace (final_save (emit WandbLog (emit SummarizerAppend
               (buffer_metrics (call_evaluate true (self l')))))))
          = eval_sizes 0 (trace (self l'))).
  { unfold final_save. destruct (save _);
      cbn [emit buffer_metrics call_evaluate trace];
      rewrite !eval_sizes_app; cbn [eval_sizes]; rewrite !app_nil_r;
      reflexivity. }
  rewrite Hfin, Hes.
  destruct (pre' ++ [last_eval (self l')]) as [|a later] eqn:El.
  - destruct pre'; discriminate.
  - cbn [hd] in Hh. subst a. exists later. split; [reflexivity|exact Hg].
Qed.

(** An instance: prefill 1, [eval_every = 3], capacity 6: the evaluations
    are made at sizes 1 and 4. *)
Lemma evaluations_lie_eval_every_apart_witness :
  let RB := CounterBuffer 6 in
  let config0 := scenario 1 0 200 (6 # 10) (3 # 10) 3 2 true in
  let t := mkTrainer config0 (mkCounter 0 6) 0 [] in
  let t' := match run 10 t with Ok t' => t' | _ => t end in
  (run 10 t = Ok t' /\ eval_sizes 0 (trace t') = [1; 4])
  /\ exists later,
       eval_sizes 0 (trace t') = buffer_prefill config0 :: later
       /\ gaps_at_least (eval_every config0) (buffer_prefill config0 :: later).
Proof.
  intros RB config0 t t'. split; [split; vm_compute; reflexivity|].
  apply (evaluations_lie_eval_every_apart counter_buffer RB
           (CounterBufferSpec 6) config0 t t' 10%nat).
  - reflexivity.
  - vm_compute. reflexivity.
Defined.

(** ** What the pretraining sweeps consume *)

Lemma sweep_consumes_intro (budget b' : Q) (m c : Z) :
  (b' == budget - inject_Z c)%Q ->
  (b' <= 0)%Q ->
  ((0 < budget)%Q -> (- inject_Z m < b')%Q) ->
  ((budget <= 0)%Q -> c = 0) ->
  sweep_consumes budget m c.
Proof.
  intros Hb Hle Hlo Hz. unfold sweep_consumes.
  destruct (Qltb 0 budget) eqn:E.
  - apply Qltb_lt in E. specialize (Hlo E). lra.
  - apply Qltb_ge in E. auto.
Qed.

Section SweepConsumption.

Context {B : Type} {RB : ReplayBuffer B}.

Variable opt : Z -> event.
Variable P : event -> bool.
Variable f : list event -> Z.
Hypothesis P_opt : forall n, P (opt n) = true.
Hypothesis f_nil : f [] = 0.
Hypothesis f_app : forall a b, f (a ++ b) = f a + f b.
Hypothesis f_opt : forall n, f [opt n] = n.

Lemma sweep_for_consumed (m : Z) (batches : list (Z * Z)) :
  batches_within m batches = true ->
  forall (budget : Q) (t : Trainer B),
    (0 < budget)%Q ->
    exists evs,
      trace (snd (sweep_for opt batches budget t)) = trace t ++ evs
      /\ forallb P evs = true
      /\ (fst (sweep_for opt batches budget t) == budget - inject_Z (f evs))%Q
      /\ (0 <= inject_Z m -> - inject_Z m < fst (sweep_for opt batches budget t))%Q.
Proof.
  induction batches as [|idx rest IH]; intros Hw budget t Hpos.
  - exists []. cbn [sweep_for fst snd]. rewrite app_nil_r, f_nil.
    change (inject_Z 0) with 0%Q.
    split; [reflexivity|]. split; [reflexivity|]. split; [ring|]. lra.
  - cbn [batches_within forallb] in Hw. apply andb_prop in Hw.
    destruct Hw as [Hidx Hw]. apply andb_prop in Hidx.
    destruct Hidx as [H0 Hm]. apply Z.leb_le in H0, Hm.
    rewrite Zle_Qle in H0, Hm. change (inject_Z 0) with 0%Q in H0.
    cbn [sweep_for].
    destruct (Qle_bool (budget - inject_Z (numel_trim2 idx)) 0) eqn:Eb.
    + exists [opt (numel_trim2 idx)]. cbn [fst snd emit trace forallb].
      rewrite P_opt, f_opt.
      split; [reflexivity|]. split; [reflexivity|]. split; [reflexivity|]. lra.
    + apply Qle_bool_gt in Eb.
      destruct (IH Hw (budget - inject_Z (numel_trim2 idx))%Q
                  (emit (opt (numel_trim2 idx)) t) Eb)
        as (evs & Htr & Hf & Hb & Hlo).
      exists (opt (numel_trim2 idx) :: evs). rewrite Htr.
      cbn [emit trace forallb]. rewrite P_opt, Hf, <- app_assoc.
      split; [reflexivity|]. split; [reflexivity|]. split; [|exact Hlo].
      rewrite Hb. change (opt (numel_trim2 idx) :: evs)
        with ([opt (numel_trim2 idx)] ++ evs).
      rewrite f_app, f_opt, inject_Z_plus. ring.
Qed.

Lemma sweep_loop_consumed (m batch len : Z) fuel (s s' : sweep B) :
  batches_within m
    (generate_uniform_indices (replay_buffer (sw_self s)) batch len 2) = true ->
  0 <= m ->
  while fuel budget_cond (sweep_body opt batch len) s = Ok s' ->
  exists evs,
    trace (sw_self s') = trace (sw_self s) ++ evs
    /\ forallb P evs = true
    /\ sweep_consumes (sw_budget s) m (f evs).
Proof.
  intros Hw Hm Hloop.
  rewrite Zle_Qle in Hm. change (inject_Z 0) with 0%Q in Hm.
  apply (while_inv (fun x =>
           replay_buffer (sw_self x) = replay_buffer (sw_self s)
           /\ exists evs,
                trace (sw_self x) = trace (sw_self s) ++ evs
                /\ forallb P evs = true
                /\ (sw_budget x == sw_budget s - inject_Z (f evs))%Q
                /\ ((0 < sw_budget s)%Q -> (- inject_Z m < sw_budget x)%Q)
                /\ ((sw_budget s <= 0)%Q -> evs = []))) in Hloop.
  - destruct Hloop as [(_ & evs & Htr & Hf & Hb & Hlo & Hz) Hc].
    exists evs. split; [exact Htr|]. split; [exact Hf|].
    unfold budget_cond in Hc. apply Qltb_ge in Hc.
    apply (sweep_consumes_intro _ (sw_budget s')); try assumption.
    intro Hle. rewrite (Hz Hle). exact f_nil.
  - intros x x' (Hrb & evs & Htr & Hf & Hb & Hlo & Hz) Hc Hbody.
    unfold budget_cond in Hc. apply Qltb_lt in Hc.
    unfold sweep_body in Hbody. rewrite Hrb in Hbody.
    destruct (sweep_for_consumed m _ Hw (sw_budget x) (sw_self x) Hc)
      as (evs' & Htr' & Hf' & Hb' & Hlo').
    pose proof (sweep_for_calls P opt P_opt
      (generate_uniform_indices (replay_buffer (sw_self s)) batch len 2)
      (sw_budget x) (sw_self x)) as (_ & Hrb' & _).
    destruct (sweep_for _ _ _ _) as [b' t'].
    injection Hbody as <-. cbn [fst snd sw_self sw_budget] in *.
    split; [congruence|].
    exists (evs ++ evs'). rewrite Htr', Htr, <- app_assoc.
    split; [reflexivity|]. rewrite forallb_app, Hf, Hf'.
    split; [reflexivity|]. split; [|split].
    + rewrite Hb', Hb, f_app, inject_Z_plus. ring.
    + intros _. apply Hlo'. exact Hm.
    + intro Hle. rewrite (Hz Hle), f_nil in Hb.
      change (inject_Z 0) with 0%Q in Hb. lra.
  - split; [reflexivity|]. exists []. rewrite app_nil_r, f_nil.
    change (inject_Z 0) with 0%Q.
    split; [reflexivity|]. split; [reflexivity|]. split; [ring|].
    split; [intro; lra|reflexivity].
Qed.

End SweepConsumption.

Lemma obs_samples_app (a b : list event) :
  obs_samples (a ++ b) = obs_samples a + obs_samples b.
Proof.
  induction a as [|e a IH]; [reflexivity|].
  cbn [app obs_samples fold_right]. fold (obs_samples (a ++ b)).
  fold (obs_samples a). rewrite IH. destruct e; lia.
Qed.

Lemma dyn_samples_app (a b : list event) :
  dyn_samples (a ++ b) = dyn_samples a + dyn_samples b.
Proof.
  induction a as [|e a IH]; [reflexivity|].
  cbn [app dyn_samples fold_right]. fold (dyn_samples (a ++ b)).
  fold (dyn_samples a). rewrite IH. destruct e; lia.
Qed.

Lemma ac_samples_app (a b : list event) :
  ac_samples (a ++ b) = ac_samples a + ac_samples b.
Proof.
  induction a as [|e a IH]; [reflexivity|].
  cbn [app ac_samples fold_right]. fold (ac_samples (a ++ b)).
  fold (ac_samples a). rewrite IH. destruct e; lia.
Qed.

Lemma slice_to_le (n k : Z) : 0 < k -> slice_to n k <= k.
Proof. unfold slice_to. intro Hk. destruct (0 <=? k) eqn:E; lia. Qed.

Section ObservationSweep.

Context {B : Type} {RB : ReplayBuffer B}.

Lemma obs_inner_consumed batch fuel (s s' : sweep B) :
  0 < batch ->
  (0 < sw_budget s)%Q ->
  while fuel obs_inner_cond (obs_inner_body batch) s = Ok s' ->
  exists evs,
    trace (sw_self s') = trace (sw_self s) ++ evs
    /\ forallb is_pretrain_obs evs = true
    /\ (sw_budget s' == sw_budget s - inject_Z (obs_samples evs))%Q
    /\ (- inject_Z batch < sw_budget s')%Q.
Proof.
  intros Hb Hpos Hw.
  assert (Hbq : (0 < inject_Z batch)%Q)
    by (change 0%Q with (inject_Z 0); rewrite <- Zlt_Qlt; exact Hb).
  apply (while_inv (fun x =>
           exists evs,
             trace (sw_self x) = trace (sw_self s) ++ evs
             /\ forallb is_pretrain_obs evs = true
             /\ (sw_budget x == sw_budget s - inject_Z (obs_samples evs))%Q
             /\ (- inject_Z batch < sw_budget x)%Q)) in Hw.
  - tauto.
  - intros x x' (evs & Htr & Hf & Hbud & Hlo) Hc Heq.
    unfold obs_inner_cond in Hc. apply andb_prop in Hc.
    destruct Hc as [Hi Hc]. apply Z.ltb_lt in Hi. apply Qltb_lt in Hc.
    injection Heq as <-. cbn [sw_self sw_budget emit trace].
    pose proof (slice_to_le (sw_indices x) batch Hb) as Hle.
    rewrite Zle_Qle in Hle.
    exists (evs ++ [PretrainObs (slice_to (sw_indices x) batch)]).
    rewrite Htr, <- app_assoc, forallb_app, Hf, obs_samples_app.
    split; [reflexivity|]. split; [reflexivity|].
    cbn [obs_samples fold_right]. rewrite Z.add_0_r, inject_Z_plus.
    split; [rewrite Hbud; ring|lra].
  - exists []. rewrite app_nil_r. cbn [obs_samples fold_right].
    change (inject_Z 0) with 0%Q.
    split; [reflexivity|]. split; [reflexivity|]. split; [ring|lra].
Qed.

Lemma pretrain_obs_consumed fuel (t t' : Trainer B) :
  0 < wm_batch_size (config t) * wm_sequence_length (config t) ->
  pretrain_obs fuel t = Ok t' ->
  exists evs,
    trace t' = trace t ++ evs
    /\ forallb is_pretrain_obs evs = true
    /\ sweep_consumes
         (inject_Z (pretrain_budget (config t)) * pretrain_obs_p (config t))
         (wm_batch_size (config t) * wm_sequence_length (config t))
         (obs_samples evs).
Proof.
  intros Hb. unfold pretrain_obs.
  set (batch := wm_batch_size (config t) * wm_sequence_length (config t)) in *.
  set (budget := (inject_Z (pretrain_budget (config t))
                  * pretrain_obs_p (config t))%Q).
  destruct (while fuel budget_cond _ _) as [s'| |] eqn:Hw; try discriminate.
  cbn [bind]. intro Heq. injection Heq as <-.
  apply (while_inv (fun x =>
           exists evs,
             trace (sw_self x) = trace t ++ evs
             /\ forallb is_pretrain_obs evs = true
             /\ (sw_budget x == budget - inject_Z (obs_samples evs))%Q
             /\ ((0 < budget)%Q -> (- inject_Z batch < sw_budget x)%Q)
             /\ ((budget <= 0)%Q -> evs = []))) in Hw.
  - destruct Hw as [(evs & Htr & Hf & Hbud & Hlo & Hz) Hc].
    exists evs. split; [exact Htr|]. split; [exact Hf|].
    unfold budget_cond in Hc. apply Qltb_ge in Hc.
    apply (sweep_consumes_intro _ (sw_budget s')); try assumption.
    intro Hle. rewrite (Hz Hle). reflexivity.
  - intros x x' (evs & Htr & Hf & Hbud & Hlo & Hz) Hc Hbody.
    unfold budget_cond in Hc. apply Qltb_lt in Hc.
    unfold obs_outer_body in Hbody.
    apply obs_inner_consumed in Hbody; [|exact Hb|exact Hc].
    cbn [sw_self sw_budget] in Hbody.
    destruct Hbody as (evs' & Htr' & Hf' & Hbud' & Hlo').
    exists (evs ++ evs'). rewrite Htr', Htr, <- app_assoc.
    split; [reflexivity|]. rewrite forallb_app, Hf, Hf'.
    split; [reflexivity|]. split; [|split].
    + rewrite Hbud', Hbud, obs_samples_app, inject_Z_plus. ring.
    + intros _. exact Hlo'.
    + intro Hle. rewrite (Hz Hle) in Hbud. cbn [obs_samples fold_right] in Hbud.
      change (inject_Z 0) with 0%Q in Hbud. lra.
  - exists []. cbn [sw_self sw_budget]. rewrite app_nil_r.
    cbn [obs_samples fold_right]. change (inject_Z 0) with 0%Q.
    split; [reflexivity|]. split; [reflexivity|]. split; [ring|].
    split; [|reflexivity]. intro Hpos.
    assert (0 < inject_Z batch)%Q; [|lra].
    change 0%Q with (inject_Z 0). rewrite <- Zlt_Qlt. exact Hb.
Qed.

End ObservationSweep.

Section PretrainOrder.

Context {B : Type} {RB : ReplayBuffer B}.

Lemma pretrain_obs_only fuel (t t' : Trainer B) :
  pretrain_obs fuel t = Ok t' ->
  calls_only is_pretrain_obs t t'.
Proof.
  unfold pretrain_obs.
  destruct (while fuel budget_cond _ _) as [s'| |] eqn:Hw; try discriminate.
  cbn [bind]. intro Heq. injection Heq as <-.
  apply (while_inv (fun x => calls_only is_pretrain_obs t (sw_self x)))
    in Hw; [tauto| |apply calls_only_refl].
  intros x x' Hx _ Hb. unfold obs_outer_body in Hb.
  apply (while_inv (fun y => calls_only is_pretrain_obs t (sw_self y)))
    in Hb; [tauto| |exact Hx].
  intros y y' Hy _ Heq. injection Heq as <-. cbn [sw_self].
  eapply calls_only_trans; [exact Hy|]. apply calls_only_emit. reflexivity.
Qed.

Lemma pretrain_parts fuel (t t' : Trainer B) :
  _pretrain fuel t = Ok t' ->
  exists t1 s2 s3,
    pretrain_obs fuel t = Ok t1
    /\ while fuel budget_cond
         (sweep_body PretrainDyn (wm_batch_size (config t))
                     (wm_sequence_length (config t)))
         (mkSweep (inject_Z (pretrain_budget (config t))
                   * pretrain_dyn_p (config t))%Q 0 (emit EncodeAll t1))
       = Ok s2
    /\ while fuel budget_cond
         (sweep_body PretrainAC (ac_batch_size (config t))
                     (ac_horizon (config t)))
         (mkSweep (pretrain_ac_budget (config t)) 0 (sw_self s2))
       = Ok s3
    /\ t' = emit SyncTarget (sw_self s3)
    /\ replay_buffer t1 = replay_buffer t
    /\ replay_buffer (sw_self s2) = replay_buffer t.
Proof.
  unfold _pretrain.
  destruct (pretrain_obs fuel t) as [t1| |] eqn:H1; try discriminate.
  cbn [bind]. unfold pretrain_dyn.
  destruct (while fuel budget_cond (sweep_body PretrainDyn _ _) _)
    as [s2| |] eqn:H2; try discriminate.
  cbn [bind]. unfold pretrain_ac.
  destruct (while fuel budget_cond (sweep_body PretrainAC _ _) _)
    as [s3| |] eqn:H3; try discriminate.
  cbn [bind]. intro Heq. injection Heq as <-.
  destruct (pretrain_obs_only _ _ _ H1) as (Hc1 & Hrb1 & _).
  pose proof (sweep_loop_calls is_pretrain_dyn PretrainDyn _ _
                (fun _ => eq_refl) _ _ _ H2) as (Hc2 & Hrb2 & _).
  cbn [sw_self emit config replay_buffer] in *.
  rewrite Hc1 in H2. rewrite Hc2, Hc1 in H3. rewrite Hrb1 in Hrb2.
  exists t1, s2, s3. repeat split; assumption.
Qed.

End PretrainOrder.

(** The calls of a pretraining phase that returns come in this order:
    observation-model updates only, the encoding of all observations once,
    dynamics-model updates only, actor-critic updates only, and
    [sync_target]; the store, [last_eval] and the configuration are left
    as they were. *)
Theorem pretrain_calls_come_in_order (B : Type) (RB : ReplayBuffer B)
  (fuel : nat) (t t' : Trainer B) :
  _pretrain fuel t = Ok t' ->
  config t' = config t
  /\ replay_buffer t' = replay_buffer t
  /\ last_eval t' = last_eval t
  /\ exists obs dyn ac,
       trace t' = trace t ++ obs ++ [EncodeAll] ++ dyn ++ ac ++ [SyncTarget]
       /\ forallb is_pretrain_obs obs = true
       /\ forallb is_pretrain_dyn dyn = true
       /\ forallb is_pretrain_ac ac = true.
Proof.
  intro Hp.
  destruct (pretrain_parts _ _ _ Hp) as (t1 & s2 & s3 & H1 & H2 & H3 & -> & _).
  destruct (pretrain_obs_only _ _ _ H1) as (Hc1 & Hrb1 & Hl1 & obs & Ht1 & Hf1).
  pose proof (sweep_loop_calls is_pretrain_dyn PretrainDyn _ _
                (fun _ => eq_refl) _ _ _ H2)
    as (Hc2 & Hrb2 & Hl2 & dyn & Ht2 & Hf2).
  pose proof (sweep_loop_calls is_pretrain_ac PretrainAC _ _
                (fun _ => eq_refl) _ _ _ H3)
    as (Hc3 & Hrb3 & Hl3 & ac & Ht3 & Hf3).
  cbn [sw_self emit config replay_buffer last_eval trace] in *.
  split; [congruence|]. split; [congruence|]. split; [congruence|].
  exists obs, dyn, ac. rewrite Ht3, Ht2, Ht1, <- !app_assoc.
  repeat split; assumption.
Qed.

(** An instance: a store of 40 transitions and a pretraining budget of 55. *)
Lemma pretrain_calls_come_in_order_witness :
  let RB := CounterBuffer 80 in
  let config0 := scenario 40 55 1000 (6 # 10) (3 # 10) 5 5 false in
  let t := mkTrainer config0 (mkCounter 40 80) 40 [] in
  let t' := match _pretrain 20 t with Ok t' => t' | _ => t end in
  (_pretrain 20 t = Ok t'
   /\ trace t'
      = [PretrainObs 10; PretrainObs 10; PretrainObs 10; PretrainObs 10;
         EncodeAll; PretrainDyn 10; PretrainDyn 10;
         PretrainAC 10; PretrainAC 10; PretrainAC 10; PretrainAC 10;
         SyncTarget])
  /\ config t' = config t
  /\ replay_buffer t' = replay_buffer t
  /\ last_eval t' = last_eval t
  /\ exists obs dyn ac,
       trace t' = trace t ++ obs ++ [EncodeAll] ++ dyn ++ ac ++ [SyncTarget]
       /\ forallb is_pretrain_obs obs = true
       /\ forallb is_pretrain_dyn dyn = true
       /\ forallb is_pretrain_ac ac = true.
Proof.
  intros RB config0 t t'. split; [split; vm_compute; reflexivity|].
  apply (pretrain_calls_come_in_order counter_buffer RB 20%nat t t').
  vm_compute. reflexivity.
Defined.

(** Each sweep of a pretraining phase that returns draws at least its
    budget and less than one batch more, and nothing when its budget is not
    positive: the observation sweep against
    [pretrain_budget * pretrain_obs_p] in batches of
    [wm_batch_size * wm_sequence_length], the dynamics sweep against
    [pretrain_budget * pretrain_dyn_p], and the actor-critic sweep against
    the budget line 289 computes, the last two in the batches the store
    yields. *)
Theorem pretrain_sweeps_draw_their_budgets (B : Type) (RB : ReplayBuffer B)
  (fuel : nat) (t t' : Trainer B) (m_dyn m_ac : Z) :
  0 < wm_batch_size (config t) * wm_sequence_length (config t) ->
  0 <= m_dyn -> 0 <= m_ac ->
  batches_within m_dyn
    (generate_uniform_indices (replay_buffer t) (wm_batch_size (config t))
       (wm_sequence_length (config t)) 2) = true ->
  batches_within m_ac
    (generate_uniform_indices (replay_buffer t) (ac_batch_size (config t))
       (ac_horizon (config t)) 2) = true ->
  _pretrain fuel t = Ok t' ->
  exists obs dyn ac,
    trace t' = trace t ++ obs ++ [EncodeAll] ++ dyn ++ ac ++ [SyncTarget]
    /\ sweep_consumes
         (inject_Z (pretrain_budget (config t)) * pretrain_obs_p (config t))
         (wm_batch_size (config t) * wm_sequence_length (config t))
         (obs_samples obs)
    /\ sweep_consumes
         (inject_Z (pretrain_budget (config t)) * pretrain_dyn_p (config t))
         m_dyn (dyn_samples dyn)
    /\ sweep_consumes (pretrain_ac_budget (config t)) m_ac (ac_samples ac).
Proof.
  intros Hb Hmd Hma Hwd Hwa Hp.
  destruct (pretrain_parts _ _ _ Hp)
    as (t1 & s2 & s3 & H1 & H2 & H3 & -> & Hrb1 & Hrb2).
  destruct (pretrain_obs_consumed _ _ _ Hb H1) as (obs & Ht1 & _ & Hs1).
  apply (sweep_loop_consumed PretrainDyn is_pretrain_dyn dyn_samples
           (fun _ => eq_refl) eq_refl dyn_samples_app
           (fun n => Z.add_0_r n) m_dyn) in H2;
    [|cbn [sw_self emit replay_buffer]; rewrite Hrb1; exact Hwd|exact Hmd].
  apply (sweep_loop_consumed PretrainAC is_pretrain_ac ac_samples
           (fun _ => eq_refl) eq_refl ac_samples_app
           (fun n => Z.add_0_r n) m_ac) in H3;
    [|cbn [sw_self]; rewrite Hrb2; exact Hwa|exact Hma].
  destruct H2 as (dyn & Ht2 & _ & Hs2). destruct H3 as (ac & Ht3 & _ & Hs3).
  cbn [sw_self sw_budget emit trace] in *.
  exists obs, dyn, ac. rewrite Ht3, Ht2, Ht1, <- !app_assoc.
  repeat split; assumption.
Qed.

(** An instance: a store of 40 transitions, batches of 10 samples and a
    pretraining budget of 55: budgets 33, 16.5 and 38.5, draws 40, 20 and
    40. *)
Lemma pretrain_sweeps_draw_their_budgets_witness :
  let RB := CounterBuffer 80 in
  let config0 := scenario 40 55 1000 (6 # 10) (3 # 10) 5 5 false in
  let t := mkTrainer config0 (mkCounter 40 80) 40 [] in
  let t' := match _pretrain 20 t with Ok t' => t' | _ => t end in
  _pretrain 20 t = Ok t'
  /\ exists obs dyn ac,
       trace t' = trace t ++ obs ++ [EncodeAll] ++ dyn ++ ac ++ [SyncTarget]
       /\ sweep_consumes (inject_Z 55 * (6 # 10)) 10 (obs_samples obs)
       /\ sweep_consumes (inject_Z 55 * (3 # 10)) 10 (dyn_samples dyn)
       /\ sweep_consumes (inject_Z 55 * (1 - (6 # 10) + (3 # 10))) 10
                         (ac_samples ac).
Proof.
  intros RB config0 t t'. split; [vm_compute; reflexivity|].
  apply (pretrain_sweeps_draw_their_budgets counter_buffer RB 20%nat t t'
           10 10); try reflexivity; vm_compute; discriminate.
Defined.

Lemma budget_cond_spent {B : Type} {RB : ReplayBuffer B} (q : Q) (i : Z)
  (t : Trainer B) :
  (q <= 0)%Q -> budget_cond (mkSweep q i t) = false.
Proof. intro H. unfold budget_cond. apply Qltb_ge. exact H. Qed.

(** With [pretrain_budget = 0] the pretraining phase optimizes nothing: it
    encodes the observations, synchronizes the target critic and returns,
    whatever the fractions and the store. *)
Theorem pretrain_without_budget_only_encodes_and_syncs (B : Type)
  (RB : ReplayBuffer B) (fuel : nat) (t : Trainer B) :
  pretrain_budget (config t) = 0 ->
  _pretrain (S fuel) t = Ok (emit SyncTarget (emit EncodeAll t)).
Proof.
  intro H0.
  assert (Hz : forall p : Q, (inject_Z 0 * p <= 0)%Q)
    by (intro p; change (inject_Z 0) with 0%Q; lra).
  unfold _pretrain, pretrain_obs.
  rewrite while_unfold, budget_cond_spent by (cbn [emit config]; rewrite H0; apply Hz).
  cbn [bind sw_self]. unfold pretrain_dyn. cbn [emit config].
  rewrite while_unfold, budget_cond_spent by (cbn [emit config]; rewrite H0; apply Hz).
  cbn [bind sw_self]. unfold pretrain_ac, pretrain_ac_budget.
  rewrite while_unfold, budget_cond_spent by (cbn [emit config]; rewrite H0; apply Hz).
  reflexivity.
Qed.

(** An instance: no pretraining budget on a store of 40 transitions. *)
Lemma pretrain_without_budget_only_encodes_and_syncs_witness :
  let RB := CounterBuffer 80 in
  let config0 := scenario 40 0 1000 (6 # 10) (3 # 10) 5 5 false in
  let t := mkTrainer config0 (mkCounter 40 80) 40 [] in
  pretrain_budget (config t) = 0
  /\ _pretrain 1 t = Ok (emit SyncTarget (emit EncodeAll t)).
Proof.
  intros RB config0 t. split; [reflexivity|].
  apply (pretrain_without_budget_only_encodes_and_syncs counter_buffer RB
           0%nat t).
  reflexivity.
Defined.

(** ** Evaluation: edge cases and rounds *)

(** With [num_episodes <= 0] the evaluation loop is not entered: no
    environment step is taken, [scores] stays empty, and [np.min] raises
    [ValueError]. *)
Theorem evaluate_without_episodes_raises (cpu_count : Z)
  (compute_atari_hns : string -> Q -> Q) (eval_env : nat -> step_result)
  (config : Config) (is_final : bool) (fuel : nat) :
  num_episodes_of config is_final <= 0 ->
  _evaluate cpu_count compute_atari_hns eval_env (S fuel) config is_final
  = Raise ValueError []
  /\ forall s,
       eval_loop eval_env (S fuel) (num_episodes_of config is_final)
         (Z.to_nat (num_envs_of cpu_count config
                      (num_episodes_of config is_final))) s
       = Ok s.
Proof.
  intro HN.
  assert (Hl : forall num_envs s,
             scores s = [] ->
             eval_loop eval_env (S fuel) (num_episodes_of config is_final)
                       num_envs s = Ok s).
  { intros num_envs s Hs. cbn [eval_loop]. rewrite Hs. cbn [List.length].
    destruct (Z.of_nat 0 <? _) eqn:E; [apply Z.ltb_lt in E; lia|reflexivity]. }
  split.
  - unfold _evaluate. rewrite Hl by reflexivity. reflexivity.
  - intro s. cbn [eval_loop].
    destruct (_ <? _) eqn:E; [apply Z.ltb_lt in E; lia|reflexivity].
Qed.

(** An instance: no evaluation episodes configured. *)
Lemma evaluate_without_episodes_raises_witness :
  let config :=
    mkConfig 1 (6 # 10) (3 # 10) 200 0 1 2 5 2 5 3 2 true 0 5 (1 # 2)
             "atari" "Pong" in
  let eval_env := fun _ : nat => mkStep [1%Q] [true] [false] None in
  num_episodes_of config false <= 0
  /\ _evaluate 8 (fun _ x => x) eval_env 1 config false = Raise ValueError [].
Proof.
  intros config eval_env. split; [vm_compute; discriminate|].
  apply (evaluate_without_episodes_raises 8 (fun _ x => x) eval_env config
           false 0%nat).
  vm_compute. discriminate.
Defined.

Lemma eval_count_app p tr1 tr2 :
  eval_count p (tr1 ++ tr2) = eval_count p tr1 + eval_count p tr2.
Proof. unfold eval_count. rewrite filter_app, length_app. lia. Qed.

Section EvalRounds.

Variable eval_env : nat -> step_result.
Variable num_episodes : Z.
Variable num_envs : nat.

(** The state the loop is left in through [break], after [k + 1] rounds. *)
Let rounds_final (k : Z) (s : eval_state) : Prop :=
  num_episodes <= (k + 1) * Z.of_nat num_envs
  /\ Z.of_nat (List.length (round_scores (eval_trace s)))
     = (k + 1) * Z.of_nat num_envs
  /\ eval_count is_round_scores (eval_trace s) = k + 1
  /\ eval_count is_eval_reset (eval_trace s) = k
  /\ eval_count is_eval_step (eval_trace s) = Z.of_nat (clock s).

Lemma eval_body_rounds (k : Z) (s : eval_state) :
  rounds_done num_envs k s ->
  k * Z.of_nat num_envs < num_episodes ->
  let r := eval_body eval_env num_episodes num_envs s in
  if fst r then rounds_final k (snd r)
  else exists k', rounds_done num_envs k' (snd r)
                  /\ k' * Z.of_nat num_envs < num_episodes.
Proof.
  intros (Hk & Hs & Hrs & Hr & He & Hc) Hlt. cbv zeta. unfold eval_body.
  cbv zeta.
  set (cur := add_rewards num_envs (current_scores s) (finished s)
                (rewards (eval_env (clock s)))).
  assert (Hcur : Z.of_nat (List.length cur) = Z.of_nat num_envs)
    by (unfold cur; rewrite add_rewards_length; reflexivity).
  destruct (np_all _) eqn:Hall.
  - destruct (num_episodes <=? _) eqn:Ele; cbn [fst snd].
    + apply Z.leb_le in Ele. rewrite length_app, Nat2Z.inj_add, Hs, Hcur in Ele.
      unfold rounds_final. cbn [eval_trace clock].
      rewrite !round_scores_app, !eval_count_app, !length_app, !Nat2Z.inj_add,
        Hrs, Hr, He, Hc.
      cbn [round_scores flat_map]. rewrite !app_nil_r, ?Hcur.
      unfold eval_count. cbn. repeat split; lia.
    + apply Z.leb_gt in Ele. rewrite length_app, Nat2Z.inj_add, Hs, Hcur in Ele.
      exists (k + 1). unfold rounds_done. cbn [eval_trace clock scores].
      rewrite !round_scores_app, !eval_count_app, !length_app, !Nat2Z.inj_add,
        Hrs, Hr, He, Hc, Hs.
      cbn [round_scores flat_map]. rewrite !app_nil_r, ?Hcur.
      unfold eval_count. cbn. repeat split; lia.
  - cbn [fst snd]. exists k. unfold rounds_done. cbn [eval_trace clock scores].
    rewrite !round_scores_app, !eval_count_app, !length_app, !Nat2Z.inj_add,
      Hrs, Hr, He, Hc, Hs.
    unfold eval_count. cbn. repeat split; lia.
Qed.

Lemma eval_loop_rounds (fuel : nat) : forall (k : Z) (s s' : eval_state),
  rounds_done num_envs k s ->
  k * Z.of_nat num_envs < num_episodes ->
  eval_loop eval_env fuel num_episodes num_envs s = Ok s' ->
  exists k', k' * Z.of_nat num_envs < num_episodes /\ rounds_final k' s'.
Proof.
  induction fuel as [|fuel IH]; intros k s s' Hd Hlt Hl; [discriminate|].
  cbn [eval_loop] in Hl.
  assert (Hg : (Z.of_nat (List.length (scores s)) <? num_episodes) = true).
  { apply Z.ltb_lt. destruct Hd as (_ & Hs & _). lia. }
  rewrite Hg in Hl.
  pose proof (eval_body_rounds k s Hd Hlt) as Hb. cbv zeta in Hb.
  destruct (eval_body eval_env num_episodes num_envs s) as [brk s1].
  cbn [fst snd] in Hb. destruct brk.
  - injection Hl as <-. exists k. split; assumption.
  - destruct Hb as (k' & Hd' & Hlt'). eapply IH; eassumption.
Qed.

End EvalRounds.

(** An evaluation that returns has run whole rounds on
    [num_envs = max(min(num_episodes, int(cpu_count * cpu_p)), 1)]
    environments, with [1 <= num_envs <= num_episodes]: [r] rounds where
    [r] is the least number with [r * num_envs >= num_episodes], so fewer
    than [num_envs] scores are dropped; the environments were reset
    [r - 1] times, once between two rounds and not after the last; and
    every pass of the loop made one call of [eval_env.step]. *)
Theorem evaluation_runs_whole_rounds (cpu_count : Z)
  (compute_atari_hns : string -> Q -> Q) (eval_env : nat -> step_result)
  (config : Config) (is_final : bool) (fuel : nat) (s : eval_state)
  (m : score_metrics) :
  _evaluate cpu_count compute_atari_hns eval_env fuel config is_final
  = Ok (s, m) ->
  let N := num_episodes_of config is_final in
  let num_envs := num_envs_of cpu_count config N in
  let r := eval_count is_round_scores (eval_trace s) in
  1 <= num_envs <= N
  /\ (r - 1) * num_envs < N <= r * num_envs
  /\ Z.of_nat (List.length (round_scores (eval_trace s))) = r * num_envs
  /\ eval_count is_eval_reset (eval_trace s) = r - 1
  /\ eval_count is_eval_step (eval_trace s) = Z.of_nat (clock s).
Proof.
  intros He N num_envs r. unfold _evaluate in He. fold N num_envs in He.
  set (s0 := mkEval [] _ _ 0 0 []) in He.
  destruct (eval_loop eval_env fuel N (Z.to_nat num_envs) s0)
    as [s1| |] eqn:Hl; try discriminate.
  cbn [bind] in He.
  destruct (aggregate compute_atari_hns config (scores s1))
    as [m1| |] eqn:Ha; try discriminate.
  cbn [bind] in He. injection He as <- <-.
  assert (HN : 1 <= N).
  { destruct (Z_lt_le_dec 0 N) as [Hpos|Hle]; [lia|]. exfalso.
    destruct fuel as [|fuel]; [discriminate|]. cbn [eval_loop] in Hl.
    change (scores s0) with (@nil Q) in Hl. cbn [List.length] in Hl.
    destruct (Z.of_nat 0 <? N) eqn:E; [apply Z.ltb_lt in E; lia|].
    injection Hl as <-. discriminate. }
  assert (Hne : 1 <= num_envs <= N) by (unfold num_envs, num_envs_of; lia).
  split; [exact Hne|].
  destruct (eval_loop_rounds eval_env N (Z.to_nat num_envs) fuel 0 s0 s1)
    as (k & Hlt & Hhi & Hrs & Hr & Hre & Hst);
    [|rewrite Z2Nat.id by lia; lia|exact Hl|].
  { unfold rounds_done, eval_count. cbn. repeat split; lia. }
  rewrite Z2Nat.id in * by lia. unfold r. rewrite Hr, Hrs, Hre, Hst.
  replace (k + 1 - 1) with k by lia. repeat split; lia.
Qed.

(** An instance: 3 episodes on 2 environments that finish at every step:
    two rounds, one reset, one of the four scores dropped. *)
Lemma evaluation_runs_whole_rounds_witness :
  let config := scenario 1 0 200 (6 # 10) (3 # 10) 3 2 true in
  let eval_env := fun _ : nat => mkStep [1%Q; 2%Q] [true; true]
                                        [false; false] None in
  let hns := fun (_ : string) (x : Q) => x in
  let s := match _evaluate 4 hns eval_env 5 config false with
           | Ok (s, _) => s
           | _ => mkEval [] [] [] 0 0 []
           end in
  (num_envs_of 4 config 3 = 2
   /\ eval_trace s
      = [EvalStep; RoundScores [1%Q; 2%Q]; EvalReset [true; true];
         EvalStep; RoundScores [1%Q; 2%Q]]
   /\ scores s = [1%Q; 2%Q; 1%Q])
  /\ 1 <= num_envs_of 4 config 3 <= 3
  /\ (eval_count is_round_scores (eval_trace s) - 1) * num_envs_of 4 config 3
     < 3 <= eval_count is_round_scores (eval_trace s) * num_envs_of 4 config 3
  /\ Z.of_nat (List.length (round_scores (eval_trace s)))
     = eval_count is_round_scores (eval_trace s) * num_envs_of 4 config 3
  /\ eval_count is_eval_reset (eval_trace s)
     = eval_count is_round_scores (eval_trace s) - 1
  /\ eval_count is_eval_step (eval_trace s) = Z.of_nat (clock s).
Proof.
  intros config eval_env hns s.
  split; [repeat split; vm_compute; reflexivity|].
  destruct (_evaluate 4 hns eval_env 5 config false) as [[s1 m1]| |] eqn:He;
    [|vm_compute in He; discriminate|vm_compute in He; discriminate].
  apply (evaluation_runs_whole_rounds 4 hns eval_env config false 5%nat s1 m1).
  exact He.
Defined.

(** * The rest of the trainer *)

(** ** One training round *)

Lemma wm_loop_closed (config : Config) (n : nat) :
  fold_left (wm_iteration config) (seq 0 n) (mkLocals [] None)
  = mkLocals
      (flat_map (fun i => [SampleIndices (wm_batch_size config)
                                         (wm_sequence_length config);
                           WmOptimize i]) (seq 0 n))
      (match n with O => None | S k => Some k end).
Proof.
  induction n as [|n IH]; [reflexivity|].
  rewrite seq_S, fold_left_app, IH, flat_map_app. cbn [fold_left flat_map].
  unfold wm_iteration. cbn [tl_trace]. rewrite app_nil_r. reflexivity.
Qed.

Lemma imagine_loop_closed (n : nat) : forall (a : nat) (tr : list train_event),
  fold_left imagine_iteration (seq a n) tr
  = tr ++ List.concat (repeat [DreamerAct; ImagineStep] n).
Proof.
  induction n as [|n IH]; intros a tr; cbn [seq fold_left repeat List.concat].
  - rewrite app_nil_r. reflexivity.
  - rewrite IH. unfold imagine_iteration. rewrite <- app_assoc. reflexivity.
Qed.

Lemma wm_samples_app (a b : list train_event) :
  wm_samples (a ++ b) = wm_samples a + wm_samples b.
Proof.
  induction a as [|e a IH]; [reflexivity|].
  cbn [app wm_samples fold_right]. fold (wm_samples (a ++ b)).
  fold (wm_samples a). rewrite IH. destruct e; lia.
Qed.

Lemma imagine_starts_app (a b : list train_event) :
  imagine_starts (a ++ b) = imagine_starts a + imagine_starts b.
Proof.
  induction a as [|e a IH]; [reflexivity|].
  cbn [app imagine_starts fold_right]. fold (imagine_starts (a ++ b)).
  fold (imagine_starts a). rewrite IH. destruct e; lia.
Qed.

Lemma imagine_steps_app (a b : list train_event) :
  imagine_steps (a ++ b) = imagine_steps a + imagine_steps b.
Proof. unfold imagine_steps. rewrite filter_app, length_app. lia. Qed.

Lemma wm_batches_samples (b l : Z) (n : nat) : forall a,
  let tr := flat_map (fun i => [SampleIndices b l; WmOptimize i]) (seq a n) in
  wm_samples tr = Z.of_nat n * (b * l)
  /\ imagine_starts tr = 0 /\ imagine_steps tr = 0.
Proof.
  induction n as [|n IH]; intro a; cbv zeta; [repeat split; reflexivity|].
  destruct (IH (S a)) as (H1 & H2 & H3).
  cbn [seq flat_map]. rewrite wm_samples_app, imagine_starts_app,
    imagine_steps_app, H1, H2, H3, Nat2Z.inj_succ.
  change (imagine_steps [SampleIndices b l; WmOptimize a]) with 0.
  cbn [wm_samples imagine_starts fold_right]. repeat split; lia.
Qed.

Lemma imagine_rollout_samples (n : nat) :
  let tr := List.concat (repeat [DreamerAct; ImagineStep] n) in
  wm_samples tr = 0 /\ imagine_starts tr = 0
  /\ imagine_steps tr = Z.of_nat n.
Proof.
  induction n as [|n IH]; cbv zeta; [repeat split; reflexivity|].
  destruct IH as (H1 & H2 & H3).
  cbn [repeat List.concat]. rewrite wm_samples_app, imagine_starts_app,
    imagine_steps_app, H1, H2, H3, Nat2Z.inj_succ.
  change (imagine_steps [DreamerAct; ImagineStep]) with 1.
  cbn [wm_samples imagine_starts fold_right]. repeat split; lia.
Qed.

(** With [wm_train_steps <= 0] the first loop of [_train_step] binds
    nothing, and [metrics = metrics_i] raises [UnboundLocalError] before
    any call is made on the store, the world model or the actor-critic. *)
Theorem train_step_without_wm_steps_raises (config : Config) (thr : Q) :
  wm_train_steps config <= 0 ->
  _train_step config thr = ([], inl (Py.UnboundLocalError "metrics_i")).
Proof.
  intro H. unfold _train_step, py_range.
  replace (Z.to_nat (wm_train_steps config)) with 0%nat by lia. reflexivity.
Qed.

(** An instance: [wm_train_steps = 0], which leaves a positive budget per
    training round. *)
Lemma train_step_without_wm_steps_raises_witness :
  let config :=
    mkConfig 1 (6 # 10) (3 # 10) 200 0 0 2 5 2 5 3 2 true 3 5 (1 # 2)
             "atari" "Pong" in
  (wm_train_steps config <= 0 /\ 0 < budget_per_step config)
  /\ _train_step config 0 = ([], inl (Py.UnboundLocalError "metrics_i")).
Proof.
  intro config. split; [split; vm_compute; [discriminate|reflexivity]|].
  apply (train_step_without_wm_steps_raises config 0).
  vm_compute. discriminate.
Defined.

(** With [wm_train_steps = n >= 1] and [ac_horizon >= 0], [_train_step]
    returns: it optimizes the world model on [n] freshly sampled batches,
    starts the imagination from the latents of the last batch only, rolls
    it [ac_horizon] steps and optimizes the actor-critic once; the metrics
    keep the world-model metrics of the last batch; and the samples asked
    for are [budget_per_step], the figure [run] schedules with. *)
Theorem train_step_draws_budget_per_step (config : Config) (thr : Q) :
  1 <= wm_train_steps config ->
  0 <= ac_horizon config ->
  let n := Z.to_nat (wm_train_steps config) in
  let tr :=
    flat_map (fun i => [SampleIndices (wm_batch_size config)
                                      (wm_sequence_length config);
                        WmOptimize i]) (seq 0 n)
    ++ [RandomChoice (ac_batch_size config); ImagineReset (n - 1)]
    ++ List.concat (repeat [DreamerAct; ImagineStep]
                      (Z.to_nat (ac_horizon config)))
    ++ [AcOptimize (negb (Qeq_bool thr 0))] in
  _train_step config thr = (tr, inr (mkTrainMetrics (n - 1) true))
  /\ train_samples tr = budget_per_step config.
Proof.
  intros Hn Hh n tr. split.
  - unfold _train_step, py_range. fold n. rewrite wm_loop_closed.
    cbn [tl_last tl_trace].
    destruct n as [|k] eqn:En; [unfold n in En; lia|].
    rewrite imagine_loop_closed. unfold tr.
    replace (S k - 1)%nat with k by lia.
    rewrite <- !app_assoc. reflexivity.
  - unfold tr, train_samples.
    destruct (wm_batches_samples (wm_batch_size config)
                (wm_sequence_length config) n 0%nat) as (A1 & A2 & A3).
    destruct (imagine_rollout_samples (Z.to_nat (ac_horizon config)))
      as (B1 & B2 & B3). cbv zeta in A1, A2, A3, B1, B2, B3.
    rewrite !wm_samples_app, !imagine_starts_app, !imagine_steps_app,
      A1, A2, A3, B1, B2, B3.
    change (imagine_steps [RandomChoice (ac_batch_size config);
                           ImagineReset (n - 1)]) with 0.
    change (imagine_steps [AcOptimize (negb (Qeq_bool thr 0))]) with 0.
    cbn [wm_samples imagine_starts fold_right].
    unfold budget_per_step, n. rewrite !Z2Nat.id by lia. ring.
Qed.

(** An instance: three world-model batches and an imagination of two
    steps. *)
Lemma train_step_draws_budget_per_step_witness :
  let config :=
    mkConfig 1 (6 # 10) (3 # 10) 200 0 3 2 5 4 2 3 2 true 3 5 (1 # 2)
             "atari" "Pong" in
  _train_step config 0
  = ([SampleIndices 2 5; WmOptimize 0; SampleIndices 2 5; WmOptimize 1;
      SampleIndices 2 5; WmOptimize 2; RandomChoice 4; ImagineReset 2;
      DreamerAct; ImagineStep; DreamerAct; ImagineStep; AcOptimize false],
     inr (mkTrainMetrics 2 true))
  /\ train_samples (fst (_train_step config 0)) = 38.
Proof.
  intro config.
  destruct (train_step_draws_budget_per_step config 0) as [H1 H2];
    [vm_compute; discriminate|vm_compute; discriminate|].
  split; [exact H1|]. rewrite H1. exact H2.
Defined.

(** ** Environments and evaluation images *)

(** [_create_env_from_config] and [_create_eval_images] accept the same
    suites, ["atari"], ["d4rl"] and ["d3rl"]: on these both return, on any
    other suite both raise [NotImplementedError] naming the suite; so the
    image step of an evaluation cannot fail on the suite of a trainer whose
    constructor built its environment.  For ["d4rl"] and ["d3rl"] no image
    is built, and the evaluation logs none. *)
Theorem environments_and_images_accept_the_same_suites (Image : Type)
  (atari_images : bool -> option Image * option Image) (config : Config)
  (ec : EnvConfig) (eval is_final : bool) :
  match _create_env_from_config config ec eval,
        _create_eval_images Image atari_images is_final (env_suite config) with
  | inr _, inr imgs =>
      known_suite (env_suite config) = true
      /\ (env_suite config <> "atari"%string -> image_metrics Image imgs = [])
  | inl e1, inl e2 =>
      known_suite (env_suite config) = false
      /\ e1 = Py.NotImplementedError
                ("Invalid Environment Suite: " ++ env_suite config)
      /\ e2 = Py.NotImplementedError
                ("Unrecognized Environment Suite: " ++ env_suite config ++ "!")
  | _, _ => False
  end.
Proof.
  unfold _create_env_from_config, _create_eval_images, known_suite.
  destruct (String.eqb (env_suite config) "atari") eqn:Ea.
  - cbn [orb]. split; [reflexivity|]. intro Hne.
    apply String.eqb_eq in Ea. contradiction.
  - destruct (String.eqb (env_suite config) "d4rl") eqn:Ed.
    + cbn [orb]. split; reflexivity.
    + destruct (String.eqb (env_suite config) "d3rl") eqn:E3.
      * cbn [orb]. split; reflexivity.
      * cbn [orb]. repeat split.
Qed.

(** The evaluation environment is the training environment of the same
    configuration with [noop_max = 0], wrapped in [NoAutoReset]; the
    training environment is never wrapped. *)
Theorem eval_env_is_unwrapped_training_env_without_noops (config : Config)
  (ec : EnvConfig) :
  _create_env_from_config config ec true
  = match _create_env_from_config config (with_noop_max 0 ec) false with
    | inr e => inr (NoAutoReset e)
    | inl err => inl err
    end
  /\ forall e, _create_env_from_config config ec false <> inr (NoAutoReset e).
Proof.
  unfold _create_env_from_config, with_noop_max.
  cbn [env_noop_max env_frame_skip env_frame_stack env_frame_size
       env_episodic_lives env_grayscale env_time_limit env_render_mode].
  destruct (String.eqb (env_suite config) "atari");
    [split; [reflexivity|intros e; discriminate]|].
  destruct (String.eqb (env_suite config) "d4rl");
    [split; [reflexivity|intros e; discriminate]|].
  destruct (String.eqb (env_suite config) "d3rl");
    split; try reflexivity; intros e; discriminate.
Qed.

(** ** The colour of the reward annotations *)

Lemma py_int_floor (x : Q) : (0 <= x)%Q -> py_int x = Qfloor x.
Proof.
  destruct x as [a b]. unfold Qle, py_int, Qfloor. cbn [Qnum Qden].
  intro H. apply Z.quot_div_nonneg; lia.
Qed.

Lemma py_int_between (x : Q) (n : Z) :
  (0 <= x <= inject_Z n)%Q -> 0 <= py_int x <= n.
Proof.
  intros [H0 Hn]. rewrite py_int_floor by exact H0. split.
  - change 0 with (Qfloor 0). apply Qfloor_resp_le. exact H0.
  - rewrite <- (Qfloor_Z n). apply Qfloor_resp_le. exact Hn.
Qed.

Lemma py_int_le (x y : Q) : (0 <= x <= y)%Q -> py_int x <= py_int y.
Proof.
  intros [H0 Hxy]. rewrite !py_int_floor by lra.
  apply Qfloor_resp_le. exact Hxy.
Qed.

(** For a weight in [[0, 1]] and a reward in [[-1, 1]] every channel of the
    annotation colour lies in [[0, 255]]; the colour is a grey when
    [|reward| < 1e-4], otherwise green dominates for a positive reward and
    red for a negative one, the two other channels being equal. *)
Theorem text_color_is_an_rgb_colour (weight reward : Q) :
  (0 <= weight <= 1)%Q ->
  (-1 <= reward <= 1)%Q ->
  let '(r, g, b) := text_color weight reward in
  (0 <= r <= 255 /\ 0 <= g <= 255 /\ 0 <= b <= 255)
  /\ ((Qabs reward < 1 # 10000)%Q -> r = g /\ g = b)
  /\ ((1 # 10000 <= reward)%Q -> r = b /\ b <= g)
  /\ ((reward <= - (1 # 10000))%Q -> g = b /\ b <= r).
Proof.
  intros [Hw0 Hw1] [Hr0 Hr1]. unfold text_color.
  assert (Hwr : forall s : Q, (0 <= s <= 1)%Q ->
            (0 <= weight * (255 + s * 255) / 2 <= inject_Z 255)%Q
            /\ (weight * 100 <= weight * (255 + s * 255) / 2)%Q
            /\ (weight * 80 <= weight * (255 + s * 255) / 2)%Q).
  { intros s [Hs0 Hs1].
    assert (H1 : (0 <= weight * s)%Q) by (apply Qmult_le_0_compat; assumption).
    assert (H2 : (0 <= (1 - weight) * (1 - s))%Q)
      by (apply Qmult_le_0_compat; lra).
    assert (H3 : (0 <= (1 - weight) * s)%Q)
      by (apply Qmult_le_0_compat; lra).
    assert (E : (weight * (255 + s * 255) / 2
                 == (255 # 2) * weight + (255 # 2) * (weight * s))%Q)
      by (field).
    assert (E2 : ((1 - weight) * (1 - s) == 1 - weight - s + weight * s)%Q)
      by ring.
    assert (E3 : ((1 - weight) * s == s - weight * s)%Q) by ring.
    change (inject_Z 255) with (255 # 1)%Q.
    rewrite E. repeat split; lra. }
  destruct (Qltb (Qabs reward) (1 # 10000)) eqn:Ea.
  - apply Qltb_lt in Ea.
    assert (Hc : 0 <= py_int (weight * 255) <= 255)
      by (apply py_int_between; change (inject_Z 255) with (255 # 1)%Q; lra).
    split; [tauto|]. split; [tauto|].
    split; intro H; exfalso.
    + rewrite Qabs_pos in Ea by lra. lra.
    + rewrite Qabs_neg in Ea by lra. lra.
  - apply Qltb_ge in Ea. destruct (Qltb 0 reward) eqn:Ep.
    + apply Qltb_lt in Ep.
      destruct (Hwr reward ltac:(lra)) as (Hb & Hd & _).
      assert (Hc : 0 <= py_int (weight * 100) <= 255)
        by (apply py_int_between; change (inject_Z 255) with (255 # 1)%Q; lra).
      split; [split; [exact Hc|split; [apply py_int_between; exact Hb|exact Hc]]|].
      split; [intro H; lra|].
      split; [intros _; split; [reflexivity|apply py_int_le; lra]|].
      intro H; lra.
    + apply Qltb_ge in Ep.
      destruct (Hwr (- reward)%Q ltac:(lra)) as (Hb & _ & Hd).
      assert (Hc : 0 <= py_int (weight * 80) <= 255)
        by (apply py_int_between; change (inject_Z 255) with (255 # 1)%Q; lra).
      split; [split; [apply py_int_between; exact Hb|split; exact Hc]|].
      split; [intro H; lra|].
      split; [intro H; lra|].
      intros _. split; [reflexivity|apply py_int_le; lra].
Qed.

(** An instance: weight 3/4 and reward 1/2 give a green. *)
Lemma text_color_is_an_rgb_colour_witness :
  text_color (3 # 4) (1 # 2) = (75, 143, 75)
  /\ let '(r, g, b) := text_color (3 # 4) (1 # 2) in
     (0 <= r <= 255 /\ 0 <= g <= 255 /\ 0 <= b <= 255)
     /\ ((Qabs (1 # 2) < 1 # 10000)%Q -> r = g /\ g = b)
     /\ ((1 # 10000 <= 1 # 2)%Q -> r = b /\ b <= g)
     /\ ((1 # 2 <= - (1 # 10000))%Q -> g = b /\ b <= r).
Proof.
  split; [vm_compute; reflexivity|].
  apply (text_color_is_an_rgb_colour (3 # 4) (1 # 2));
    split; vm_compute; discriminate.
Defined.

(** ** The collection policy *)

Lemma policy_calls_bound (ml : Z) (rest : list Z) :
  forall tr : list policy_event,
    fold_left (fun st index =>
                 let '(evs, dreamer) := policy_call ml (snd st) index in
                 (fst st ++ evs, dreamer))
              rest (tr, true)
    = (tr ++ flat_map (fun j => [GetTransition j; ObserveStep; PolicyAct]) rest,
       true).
Proof.
  induction rest as [|j rest IH]; intro tr; cbn [fold_left flat_map].
  - rewrite app_nil_r. reflexivity.
  - cbn [policy_call snd fst negb]. rewrite IH, <- app_assoc. reflexivity.
Qed.

(** A policy object built by [_create_buffer_obs_policy] resets its
    dreamer exactly once, at its first call, from the context of
    [wm_memory_length - 1] earlier transitions; every later call feeds it
    the one new transition; and every call acts exactly once. *)
Theorem collection_policy_resets_at_first_call_only (wm_memory_length : Z)
  (first : Z) (rest : list Z) :
  let tr := fst (policy_calls wm_memory_length (first :: rest)) in
  tr = [GetContext first (wm_memory_length - 1); ObserveReset; PolicyAct]
       ++ flat_map (fun j => [GetTransition j; ObserveStep; PolicyAct]) rest
  /\ List.length (filter is_observe_reset tr) = 1%nat
  /\ List.length (filter is_observe_step tr) = List.length rest
  /\ List.length (filter is_policy_act tr) = S (List.length rest)
  /\ policy_calls wm_memory_length [] = ([], false).
Proof.
  cbv zeta. unfold policy_calls. cbn [fold_left policy_call snd fst negb app].
  rewrite policy_calls_bound. cbn [fst].
  split; [reflexivity|].
  assert (H : forall l : list Z,
            let tr := flat_map (fun j => [GetTransition j; ObserveStep; PolicyAct]) l in
            List.length (filter is_observe_reset tr) = 0%nat
            /\ List.length (filter is_observe_step tr) = List.length l
            /\ List.length (filter is_policy_act tr) = List.length l).
  { induction l as [|j l IHl]; cbv zeta; [repeat split; reflexivity|].
    destruct IHl as (H1 & H2 & H3). cbn [flat_map app filter is_observe_reset
      is_observe_step is_policy_act List.length].
    rewrite H1, H2, H3. repeat split; reflexivity. }
  destruct (H rest) as (H1 & H2 & H3).
  rewrite !filter_app, !length_app, H1, H2, H3.
  repeat split; reflexivity.
Qed.

(** * Splitting a D4RL dataset into episodes *)

(** A dataset without the key ["timeouts"] is never pickled: with no
    reward row the list of episodes stays empty and [np.max] raises
    [ValueError]; otherwise the first row fails, with
    [KeyError: 'timeouts'] when the other columns have a first row, since
    ["timeouts"] is among the keys copied whatever [use_timeouts] is.  The
    fallback [episode_step == 1000 - 1] therefore never ends an episode. *)
Theorem dataset_without_timeouts_is_never_pickled (Obs Act : Type)
  (ds : D4rl.dataset Obs Act) :
  D4rl.timeouts ds = None ->
  (exists e, D4rl.download_dataset ds = inl e)
  /\ (D4rl.rewards ds = [] -> D4rl.download_dataset ds = inl Py.ValueError)
  /\ (D4rl.rewards ds <> [] -> D4rl.terminals ds <> [] ->
      D4rl.observations ds <> [] ->
      D4rl.download_dataset ds = inl (Py.KeyError "timeouts")).
Proof.
  intro Hno. unfold D4rl.download_dataset. rewrite Hno.
  destruct (D4rl.rewards ds) as [|r rs] eqn:Hr.
  - cbn. split; [eexists; reflexivity|]. split; [reflexivity|].
    intro H; contradiction.
  - cbn [List.length seq D4rl.for_each].
    assert (Hb : exists e,
               D4rl.body ds false (D4rl.mkState 0 D4rl.empty_path []) 0 = inl e
               /\ (D4rl.terminals ds <> [] -> D4rl.observations ds <> [] ->
                   e = Py.KeyError "timeouts")).
    { unfold D4rl.body, D4rl.index, D4rl.get_timeouts. rewrite Hno.
      destruct (D4rl.terminals ds) as [|te tes];
        [eexists; split; [reflexivity|intro H; contradiction]|].
      destruct (D4rl.observations ds) as [|o os];
        [eexists; split; [reflexivity|intros _ H; contradiction]|].
      eexists. split; reflexivity. }
    destruct Hb as (e & Hb & He). rewrite Hb. cbn [D4rl.and_then].
    split; [exists e; reflexivity|]. split; [discriminate|].
    intros _ H1 H2. rewrite (He H1 H2). reflexivity.
Qed.

(** An instance: two rows, no ["timeouts"]. *)
Lemma dataset_without_timeouts_is_never_pickled_witness :
  let ds := D4rl.mkDataset [1%nat; 2%nat] [0%nat; 1%nat] [1%Q; 1%Q]
                           [false; true] None in
  D4rl.timeouts ds = None
  /\ D4rl.download_dataset ds = inl (Py.KeyError "timeouts").
Proof.
  intro ds. split; [reflexivity|].
  apply (dataset_without_timeouts_is_never_pickled nat nat ds);
    [reflexivity|discriminate|discriminate|discriminate].
Defined.

Lemma combine_snoc {A B : Type} (l1 : list A) : forall (l2 : list B) a b,
  List.length l1 = List.length l2 ->
  combine (l1 ++ [a]) (l2 ++ [b]) = combine l1 l2 ++ [(a, b)].
Proof.
  induction l1 as [|x l1 IH]; intros [|y l2] a b Hl; try discriminate.
  - reflexivity.
  - cbn [app combine]. rewrite IH by (simpl in Hl; lia). reflexivity.
Qed.

Lemma combine_length_eq {A B : Type} (l1 : list A) : forall (l2 : list B),
  List.length l1 = List.length l2 ->
  List.length (combine l1 l2) = List.length l2.
Proof.
  induction l1 as [|x l1 IH]; intros [|y l2] Hl; try discriminate.
  - reflexivity.
  - cbn [combine List.length]. rewrite IH by (simpl in Hl; lia). reflexivity.
Qed.

Lemma nth_error_combine {A B : Type} (l1 : list A) :
  forall (l2 : list B) i a b,
    nth_error l1 i = Some a -> nth_error l2 i = Some b ->
    nth_error (combine l1 l2) i = Some (a, b).
Proof.
  induction l1 as [|x l1 IH]; intros [|y l2] [|i] a b H1 H2;
    try discriminate.
  - simpl in *. congruence.
  - simpl in *. apply IH; assumption.
Qed.

Lemma firstn_snoc {A : Type} (l : list A) : forall i x,
  nth_error l i = Some x -> firstn (S i) l = firstn i l ++ [x].
Proof.
  induction l as [|y l IH]; intros [|i] x H; try discriminate.
  - simpl in *. congruence.
  - simpl in H. cbn [firstn app]. rewrite <- IH by exact H. reflexivity.
Qed.

Lemma nth_error_in_range {A : Type} (l : list A) (i : nat) :
  (i < List.length l)%nat -> exists x, nth_error l i = Some x.
Proof.
  intro H. destruct (nth_error l i) eqn:E; [eauto|].
  apply nth_error_None in E. lia.
Qed.

Section DownloadSplit.

Variables Obs Act : Type.
Variable ds : D4rl.dataset Obs Act.
Variable t : list bool.
Hypothesis has_timeouts : D4rl.timeouts ds = Some t.
Hypothesis columns_aligned : D4rl.aligned ds t.

Lemma rows_length :
  List.length (D4rl.rows ds t) = List.length (D4rl.rewards ds).
Proof.
  destruct columns_aligned as (H1 & H2 & H3 & H4).
  unfold D4rl.rows, D4rl.row. rewrite !length_combine. lia.
Qed.

Lemma path_rows_snoc (d : D4rl.path Obs Act) o to a r te :
  path_aligned d ->
  D4rl.path_rows
    (D4rl.mkPath (D4rl.p_observations d ++ [o]) (D4rl.p_timeouts d ++ [to])
                 (D4rl.p_actions d ++ [a]) (D4rl.p_rewards d ++ [r])
                 (D4rl.p_terminals d ++ [te]))
  = D4rl.path_rows d ++ [(o, to, a, r, te)]
  /\ path_aligned
       (D4rl.mkPath (D4rl.p_observations d ++ [o]) (D4rl.p_timeouts d ++ [to])
                    (D4rl.p_actions d ++ [a]) (D4rl.p_rewards d ++ [r])
                    (D4rl.p_terminals d ++ [te])).
Proof.
  intros (H1 & H2 & H3 & H4). split.
  - unfold D4rl.path_rows, D4rl.row.
    cbn [D4rl.p_observations D4rl.p_timeouts D4rl.p_actions D4rl.p_rewards
         D4rl.p_terminals].
    rewrite (combine_snoc (D4rl.p_observations d)) by lia.
    rewrite combine_snoc by (rewrite combine_length_eq; lia).
    rewrite combine_snoc
      by (rewrite combine_length_eq; [lia|rewrite combine_length_eq; lia]).
    rewrite combine_snoc; [reflexivity|].
    rewrite combine_length_eq; [lia|].
    rewrite combine_length_eq; [lia|rewrite combine_length_eq; lia].
  - unfold path_aligned.
    cbn [D4rl.p_observations D4rl.p_timeouts D4rl.p_actions D4rl.p_rewards
         D4rl.p_terminals].
    rewrite !length_app. cbn [List.length]. lia.
Qed.

Lemma row_at (i : nat) :
  (i < List.length (D4rl.rewards ds))%nat ->
  exists o to a r te,
    nth_error (D4rl.observations ds) i = Some o
    /\ nth_error t i = Some to
    /\ nth_error (D4rl.actions ds) i = Some a
    /\ nth_error (D4rl.rewards ds) i = Some r
    /\ nth_error (D4rl.terminals ds) i = Some te
    /\ nth_error (D4rl.rows ds t) i = Some (o, to, a, r, te).
Proof.
  intro Hi. destruct columns_aligned as (H1 & H2 & H3 & H4).
  destruct (nth_error_in_range (D4rl.observations ds) i) as [o Ho]; [lia|].
  destruct (nth_error_in_range t i) as [to Hto]; [lia|].
  destruct (nth_error_in_range (D4rl.actions ds) i) as [a Ha]; [lia|].
  destruct (nth_error_in_range (D4rl.rewards ds) i) as [r Hr]; [lia|].
  destruct (nth_error_in_range (D4rl.terminals ds) i) as [te Hte]; [lia|].
  exists o, to, a, r, te. repeat (split; [assumption|]).
  unfold D4rl.rows. repeat apply nth_error_combine; assumption.
Qed.

Lemma body_step (i : nat) (s : D4rl.loop_state Obs Act) :
  (i < List.length (D4rl.rewards ds))%nat ->
  split_inv ds t i s ->
  exists s', D4rl.body ds true s i = inr s' /\ split_inv ds t (S i) s'.
Proof.
  intros Hi (Hd & Hps & Hrows & Hep & Hopen).
  destruct (row_at i Hi) as (o & to & a & r & te & Ho & Hto & Ha & Hr & Hte & Hrow).
  unfold D4rl.body, D4rl.index, D4rl.get_timeouts.
  rewrite has_timeouts, Ho, Ha, Hr, Hte. cbn [D4rl.and_then].
  rewrite Hto. cbn [D4rl.and_then].
  destruct (path_rows_snoc (D4rl.data_ s) o to a r te Hd) as [Hsnoc Hal].
  set (d := D4rl.mkPath _ _ _ _ _) in *.
  apply firstn_snoc in Hrow.
  destruct (te || to) eqn:Hend; eexists; (split; [reflexivity|]);
    unfold split_inv;
    cbn [D4rl.data_ D4rl.paths D4rl.episode_step].
  - split; [repeat split; reflexivity|].
    split; [apply Forall_app; split;
            [exact Hps|apply Forall_cons; [exact Hal|apply Forall_nil]]|].
    split; [|split; [|reflexivity]].
    + rewrite map_app, concat_app. cbn [map List.concat].
      rewrite Hsnoc, Hrow, <- Hrows.
      change (D4rl.path_rows D4rl.empty_path) with (@nil (D4rl.row Obs Act)).
      rewrite !app_nil_r, <- app_assoc. reflexivity.
    + apply Forall_app. split; [exact Hep|].
      apply Forall_cons; [|apply Forall_nil].
      exists (D4rl.path_rows (D4rl.data_ s)), (o, to, a, r, te).
      split; [exact Hsnoc|]. split; [exact Hopen|exact Hend].
  - split; [exact Hal|]. split; [exact Hps|].
    split; [|split; [exact Hep|]].
    + rewrite Hsnoc, Hrow, <- Hrows, <- app_assoc. reflexivity.
    + rewrite Hsnoc, forallb_app, Hopen. cbn [forallb D4rl.is_end].
      rewrite Hend. reflexivity.
Qed.

Lemma for_each_split (n : nat) : forall (i : nat) (s : D4rl.loop_state Obs Act),
  (i + n = List.length (D4rl.rewards ds))%nat ->
  split_inv ds t i s ->
  exists s',
    D4rl.for_each (D4rl.body ds true) (seq i n) s = inr s'
    /\ split_inv ds t (List.length (D4rl.rewards ds)) s'.
Proof.
  induction n as [|n IH]; intros i s Hn Hs; cbn [seq D4rl.for_each].
  - exists s. split; [reflexivity|].
    replace (List.length (D4rl.rewards ds)) with i by lia. exact Hs.
  - destruct (body_step i s ltac:(lia) Hs) as (s1 & Hb & Hs1).
    rewrite Hb. cbn [D4rl.and_then]. apply IH; [lia|exact Hs1].
Qed.

End DownloadSplit.

Lemma filter_none {A : Type} (f : A -> bool) (l : list A) :
  forallb (fun x => negb (f x)) l = true -> filter f l = [].
Proof.
  induction l as [|x l IH]; [reflexivity|]. cbn [forallb filter].
  intro H. apply andb_prop in H. destruct H as [Hx Hl].
  apply negb_true_iff in Hx. rewrite Hx. apply IH, Hl.
Qed.

Lemma episodes_count {Obs Act : Type} (ps : list (D4rl.path Obs Act)) :
  Forall D4rl.episode ps ->
  List.length (filter D4rl.is_end (List.concat (map D4rl.path_rows ps)))
  = List.length ps.
Proof.
  induction 1 as [|p ps (init & last & Hp & Hinit & Hlast) _ IH];
    [reflexivity|].
  cbn [map List.concat]. rewrite filter_app, length_app, IH, Hp, filter_app.
  rewrite (filter_none _ _ Hinit). cbn [app filter]. rewrite Hlast.
  reflexivity.
Qed.

Lemma samples_count {Obs Act : Type} (ps : list (D4rl.path Obs Act)) :
  Forall path_aligned ps ->
  fold_right Z.add 0
    (map (fun p => Z.of_nat (List.length (D4rl.p_rewards p))) ps)
  = Z.of_nat (List.length (List.concat (map D4rl.path_rows ps))).
Proof.
  induction 1 as [|p ps (H1 & H2 & H3 & H4) _ IH]; [reflexivity|].
  cbn [map fold_right List.concat]. rewrite length_app, Nat2Z.inj_add, IH.
  f_equal. f_equal. unfold D4rl.path_rows, D4rl.row.
  rewrite !length_combine. lia.
Qed.

(** On a dataset with ["timeouts"] whose columns have the length of
    ["rewards"], the loop cuts the rows, in order, after every row that is
    terminal or timed out.  If no row is, nothing is pickled and [np.max]
    raises [ValueError].  Otherwise the pickled episodes followed by a
    dropped tail are the rows of the dataset; every episode ends at its
    last row and nowhere before; the tail holds no end of episode; there
    are as many episodes as rows that end one; and the number of samples
    printed is the number of rows less the tail. *)
Theorem download_cuts_after_every_episode_end (Obs Act : Type)
  (ds : D4rl.dataset Obs Act) (t : list bool) :
  D4rl.timeouts ds = Some t ->
  D4rl.aligned ds t ->
  match D4rl.download_dataset ds with
  | inl e =>
      e = Py.ValueError
      /\ forallb (fun x => negb (D4rl.is_end x)) (D4rl.rows ds t) = true
  | inr out =>
      exists tail,
        List.concat (map D4rl.path_rows (D4rl.pickled out)) ++ tail
        = D4rl.rows ds t
        /\ Forall D4rl.episode (D4rl.pickled out)
        /\ forallb (fun x => negb (D4rl.is_end x)) tail = true
        /\ List.length (D4rl.pickled out)
           = List.length (filter D4rl.is_end (D4rl.rows ds t))
        /\ D4rl.pickled out <> []
        /\ D4rl.num_samples out
           = Z.of_nat (List.length (D4rl.rows ds t))
             - Z.of_nat (List.length tail)
  end.
Proof.
  intros Ht Hal. unfold D4rl.download_dataset. rewrite Ht.
  destruct (for_each_split Obs Act ds t Ht Hal (List.length (D4rl.rewards ds))
              0%nat (D4rl.mkState 0 D4rl.empty_path []))
    as (s & Hfor & Hd & Hps & Hrows & Hep & Hopen).
  { reflexivity. }
  { repeat split; try reflexivity; constructor. }
  rewrite Hfor. cbn [D4rl.and_then].
  rewrite <- (rows_length Obs Act ds t Hal), firstn_all in Hrows.
  destruct (D4rl.paths s) as [|p ps] eqn:Hp.
  - cbn [map]. split; [reflexivity|].
    cbn [map List.concat app] in Hrows. rewrite <- Hrows. exact Hopen.
  - cbn [map]. exists (D4rl.path_rows (D4rl.data_ s)).
    cbn [D4rl.pickled D4rl.num_samples].
    split; [exact Hrows|]. split; [exact Hep|]. split; [exact Hopen|].
    split; [|split; [discriminate|]].
    + rewrite <- Hrows, filter_app, (filter_none _ _ Hopen), app_nil_r.
      symmetry. apply episodes_count. exact Hep.
    + change (fold_right Z.add 0
                (map (fun p0 => Z.of_nat (List.length (D4rl.p_rewards p0)))
                     (p :: ps))
              = Z.of_nat (List.length (D4rl.rows ds t))
                - Z.of_nat (List.length (D4rl.path_rows (D4rl.data_ s)))).
      rewrite (samples_count (p :: ps) Hps), <- Hrows, length_app. lia.
Qed.

(** An instance: five rows, ends at the second (terminal) and the fourth
    (timed out); the fifth row is dropped. *)
Lemma download_cuts_after_every_episode_end_witness :
  let t := [false; false; false; true; false] in
  let ds := D4rl.mkDataset [10; 11; 12; 13; 14]%nat [0; 1; 0; 1; 0]%nat
                           [1%Q; 2%Q; 3%Q; 4%Q; 5%Q]
                           [false; true; false; false; false] (Some t) in
  D4rl.download_dataset ds
  = inr (D4rl.mkOutput 4 [1 + (2 + 0); 3 + (4 + 0)]%Q
           [D4rl.mkPath [10; 11]%nat [false; false] [0; 1]%nat [1%Q; 2%Q]
                        [false; true];
            D4rl.mkPath [12; 13]%nat [false; true] [0; 1]%nat [3%Q; 4%Q]
                        [false; false]])
  /\ match D4rl.download_dataset ds with
     | inl e =>
         e = Py.ValueError
         /\ forallb (fun x => negb (D4rl.is_end x)) (D4rl.rows ds t) = true
     | inr out =>
         exists tail,
           List.concat (map D4rl.path_rows (D4rl.pickled out)) ++ tail
           = D4rl.rows ds t
           /\ Forall D4rl.episode (D4rl.pickled out)
           /\ forallb (fun x => negb (D4rl.is_end x)) tail = true
           /\ List.length (D4rl.pickled out)
              = List.length (filter D4rl.is_end (D4rl.rows ds t))
           /\ D4rl.pickled out <> []
           /\ D4rl.num_samples out
              = Z.of_nat (List.length (D4rl.rows ds t))
                - Z.of_nat (List.length tail)
     end.
Proof.
  intros t ds. split; [reflexivity|].
  apply (download_cuts_after_every_episode_end nat nat ds t).
  - reflexivity.
  - repeat split; reflexivity.
Defined.

(** * The passes of the main loop *)

Section Passes.

Context {B : Type} {RB : ReplayBuffer B} {RBS : ReplayBufferSpec B}.

Lemma collect_loop_steps te fuel (l0 l l' : loop B) :
  let steps x := collect_steps (trace (self x)) - collect_steps (trace (self l0)) in
  (step_counter l == step_counter l0 + inject_Z (steps l))%Q ->
  (step_counter l <= te + 1)%Q ->
  train_rounds (trace (self l)) = train_rounds (trace (self l0)) ->
  steps l0 <= steps l ->
  while fuel (collect_cond te) collect_body l = Ok l' ->
  (step_counter l' == step_counter l0 + inject_Z (steps l'))%Q
  /\ (step_counter l' <= te + 1)%Q
  /\ train_rounds (trace (self l')) = train_rounds (trace (self l0))
  /\ steps l <= steps l'
  /\ collect_cond te l' = false.
Proof.
  intros steps H1 H2 H3 H4 Hw.
  apply (while_inv (fun x =>
           (step_counter x == step_counter l0 + inject_Z (steps x))%Q
           /\ (step_counter x <= te + 1)%Q
           /\ train_rounds (trace (self x)) = train_rounds (trace (self l0))
           /\ steps l <= steps x)) in Hw.
  - tauto.
  - intros x x' (Hx1 & Hx2 & Hx3 & Hx4) Hc Hb.
    unfold collect_cond in Hc. apply andb_prop in Hc.
    destruct Hc as [Hc _]. apply Qle_bool_iff in Hc.
    apply collect_body_counts in Hb. destruct Hb as (Hb1 & Hb2 & Hb3).
    unfold steps in *. rewrite Hb1, Hb2, Hb3.
    replace (collect_steps (trace (self x)) + 1
             - collect_steps (trace (self l0)))
      with (collect_steps (trace (self x))
            - collect_steps (trace (self l0)) + 1) by lia.
    rewrite inject_Z_plus. change (inject_Z 1) with 1%Q.
    repeat split; try lra; lia.
  - repeat split; try assumption. lia.
Qed.

Lemma train_loop_rounds te fuel (l l' : loop B) :
  while fuel (train_cond te) (train_body te) l = Ok l' ->
  collect_steps (trace (self l')) = collect_steps (trace (self l))
  /\ train_rounds (trace (self l)) <= train_rounds (trace (self l'))
  /\ (train_cond te l = true ->
      train_rounds (trace (self l)) + 1 <= train_rounds (trace (self l'))).
Proof.
  intro Hw.
  assert (Hinv : forall n (x x' : loop B),
            while n (train_cond te) (train_body te) x = Ok x' ->
            collect_steps (trace (self x')) = collect_steps (trace (self x))
            /\ train_rounds (trace (self x)) <= train_rounds (trace (self x'))).
  { intros n x x' Hx.
    apply (while_inv (fun y =>
             collect_steps (trace (self y)) = collect_steps (trace (self x))
             /\ train_rounds (trace (self x)) <= train_rounds (trace (self y))))
      in Hx; [tauto| |split; [reflexivity|lia]].
    intros y y' [Hy1 Hy2] _ Hb. apply train_body_counts in Hb.
    destruct Hb as (Hb1 & Hb2 & _). rewrite Hb1, Hb2. split; [exact Hy1|lia]. }
  destruct (Hinv _ _ _ Hw) as [Hc Hr]. split; [exact Hc|]. split; [exact Hr|].
  intro Hcond. destruct fuel as [|fuel]; [discriminate|].
  rewrite while_unfold, Hcond in Hw.
  destruct (train_body te l) as [l1| |] eqn:Hb; try discriminate.
  cbn [bind] in Hw. apply train_body_counts in Hb.
  destruct Hb as (_ & Hb2 & _). destruct (Hinv _ _ _ Hw) as [_ Hr1]. lia.
Qed.

End Passes.

(** A pass of the main loop entered with [0 <= step_counter <= train_every]
    takes at least one collection step and at most
    [train_every - step_counter + 1]; unless it has filled the store, it
    takes more than [train_every - step_counter] steps and trains at least
    once: no pass below capacity is idle. *)
Theorem every_pass_collects_and_trains (B : Type) (RB : ReplayBuffer B)
  (RBS : ReplayBufferSpec B) (fuel : nat) (te : Q) (l l' : loop B) :
  (0 <= step_counter l <= te)%Q ->
  main_cond l = true ->
  main_body fuel te l = Ok l' ->
  let c := collect_steps (trace (self l')) - collect_steps (trace (self l)) in
  let r := train_rounds (trace (self l')) - train_rounds (trace (self l)) in
  1 <= c
  /\ (inject_Z c <= te - step_counter l + 1)%Q
  /\ 0 <= r
  /\ (below_capacity (self l') = true ->
      (te - step_counter l < inject_Z c)%Q /\ 1 <= r).
Proof.
  intros [Hs0 Hs1] Hcap Hb c r. unfold main_cond in Hcap.
  apply main_body_inv in Hb.
  destruct Hb as (l1 & l2 & H1 & H2 & Hrb & _ & Hc' & Hr').
  destruct (train_loop_rounds _ _ _ _ H2) as (Hc2 & Hr2 & Hr2').
  destruct (train_loop_calls _ _ _ _ H2) as (_ & Hrb2 & _).
  set (l0 := mkLoop (self l) (step_counter l) false) in *.
  destruct fuel as [|fuel]; [discriminate|].
  rewrite while_unfold in H1.
  assert (Hcond : collect_cond te l0 = true).
  { unfold collect_cond. cbn [l0 step_counter self]. rewrite Hcap.
    apply andb_true_iff. split; [apply Qle_bool_iff; exact Hs1|reflexivity]. }
  rewrite Hcond in H1.
  destruct (collect_body l0) as [lx| |] eqn:Hx; try discriminate.
  cbn [bind] in H1. apply collect_body_counts in Hx.
  destruct Hx as (Hx1 & Hx2 & Hx3).
  apply (collect_loop_steps te fuel l0 lx l1) in H1.
  - destruct H1 as (E1 & E2 & E3 & E4 & E5).
    cbn [l0 self step_counter] in *.
    assert (Hc : c = collect_steps (trace (self l1))
                     - collect_steps (trace (self l)))
      by (unfold c; lia).
    assert (Hr : r = train_rounds (trace (self l2))
                     - train_rounds (trace (self l1)))
      by (unfold r; lia).
    rewrite <- Hc in E1.
    split; [lia|]. split; [lra|]. split; [lia|].
    intro Hbelow. unfold below_capacity in Hbelow.
    rewrite Hrb, Hrb2 in Hbelow. fold (below_capacity (self l1)) in Hbelow.
    unfold collect_cond in E5. rewrite Hbelow, andb_true_r in E5.
    apply Qle_bool_gt in E5. split; [lra|].
    assert (Ht : train_cond te l1 = true)
      by (unfold train_cond; apply Qle_bool_iff; lra).
    specialize (Hr2' Ht). lia.
  - cbv zeta. rewrite Hx1, Hx3. cbn [l0 step_counter self].
    replace (collect_steps (trace (self l)) + 1 - collect_steps (trace (self l)))
      with 1 by lia. reflexivity.
  - rewrite Hx3. cbn [l0 step_counter]. lra.
  - rewrite Hx2. reflexivity.
  - rewrite Hx1. cbn [l0 self]. lia.
Qed.

(** An instance: the first pass of a run with [train_every = 1/2]. *)
Lemma every_pass_collects_and_trains_witness :
  let RB := CounterBuffer 6 in
  let config0 := scenario 1 0 200 (6 # 10) (3 # 10) 3 2 true in
  let l := mkLoop (mkTrainer config0 (mkCounter 1 6) 1 []) 0 false in
  let l' := match main_body 5 (1 # 2) l with Ok l' => l' | _ => l end in
  (main_body 5 (1 # 2) l = Ok l'
   /\ trace (self l')
      = [EnvStep collect_policy; TrainStep; TrainStep; BufferMetrics 2;
         SummarizerAppend])
  /\ 1 <= collect_steps (trace (self l')) - collect_steps (trace (self l))
  /\ (inject_Z (collect_steps (trace (self l'))
                - collect_steps (trace (self l)))
      <= (1 # 2) - step_counter l + 1)%Q
  /\ 0 <= train_rounds (trace (self l')) - train_rounds (trace (self l))
  /\ (below_capacity (self l') = true ->
      ((1 # 2) - step_counter l
       < inject_Z (collect_steps (trace (self l'))
                   - collect_steps (trace (self l))))%Q
      /\ 1 <= train_rounds (trace (self l')) - train_rounds (trace (self l))).
Proof.
  intros RB config0 l l'. split; [split; vm_compute; reflexivity|].
  apply (every_pass_collects_and_trains counter_buffer RB
           (CounterBufferSpec 6) 5%nat (1 # 2) l l').
  - split; vm_compute; discriminate.
  - reflexivity.
  - vm_compute. reflexivity.
Defined.

(** * Seeds and construction *)

Lemma round_seed_value (num_envs s : Z) (k : nat) :
  1 <= num_envs -> -13 <= s ->
  exists a,
    round_seed num_envs (Some s) k = Some a
    /\ 13 <= a
    /\ round_seed num_envs (Some s) (S k) = Some (a * 3 + 13 + num_envs).
Proof.
  intros Hn Hs. induction k as [|k (a & Ha & H13 & Hnext)].
  - exists ((s + 13) * 7919 + 13). split; [reflexivity|].
    split; [nia|reflexivity].
  - exists (a * 3 + 13 + num_envs). split; [exact Hnext|]. split; [lia|].
    change (round_seed num_envs (Some s) (S (S k)))
      with (next_seed num_envs (round_seed num_envs (Some s) (S k))).
    rewrite Hnext. reflexivity.
Qed.

(** With [config['seed'] >= -13] the seeds of the successive rounds of an
    evaluation grow strictly, so no two rounds of an evaluation reset the
    environments with the same seed; without a seed every reset is
    unseeded. *)
Theorem round_seeds_grow (num_envs s : Z) (j k : nat) :
  1 <= num_envs -> -13 <= s -> (j < k)%nat ->
  (exists a b,
     round_seed num_envs (Some s) j = Some a
     /\ round_seed num_envs (Some s) k = Some b
     /\ a < b)
  /\ round_seed num_envs None k = None.
Proof.
  intros Hn Hs Hjk. split.
  - induction k as [|k IH]; [lia|].
    destruct (round_seed_value num_envs s k Hn Hs) as (b & Hb & Hb13 & Hnext).
    destruct (Nat.eq_dec j k) as [->|Hne].
    + exists b, (b * 3 + 13 + num_envs). repeat split; try assumption. lia.
    + destruct IH as (a & b' & Ha & Hb' & Hlt); [lia|].
      exists a, (b * 3 + 13 + num_envs). split; [exact Ha|].
      split; [exact Hnext|]. rewrite Hb in Hb'. injection Hb' as <-. lia.
  - clear Hjk. induction k as [|k IH]; [reflexivity|].
    change (round_seed num_envs None (S k))
      with (next_seed num_envs (round_seed num_envs None k)).
    rewrite IH. reflexivity.
Qed.

(** An instance: seed 0 on two environments: 102960, then 308895. *)
Lemma round_seeds_grow_witness :
  (round_seed 2 (Some 0) 0 = Some 102960
   /\ round_seed 2 (Some 0) 1 = Some 308895)
  /\ (exists a b,
        round_seed 2 (Some 0) 0 = Some a
        /\ round_seed 2 (Some 0) 1 = Some b
        /\ a < b)
  /\ round_seed 2 None 1 = None.
Proof.
  split; [split; reflexivity|].
  apply (round_seeds_grow 2 0 0%nat 1%nat); lia.
Defined.

(** [Trainer.__init__] checks its guards before it builds the environment:
    it raises [ValueError] exactly when [buffer_prefill <= 0] or the two
    pretraining fractions add up to more than 1, whatever the suite;
    otherwise it raises [NotImplementedError] exactly when the suite is
    not known; otherwise it returns with the training environment, never
    wrapped in [NoAutoReset], a new store, [last_eval = 0] and no call
    made. *)
Theorem constructor_checks_guards_before_environment (B : Type)
  (RB : ReplayBuffer B) (config : Config) (ec : EnvConfig) :
  match Trainer__init__ (B := B) config ec with
  | inl Py.ValueError => guards_fail config
  | inl (Py.NotImplementedError msg) =>
      ~ guards_fail config /\ known_suite (env_suite config) = false
      /\ msg = ("Invalid Environment Suite: " ++ env_suite config)%string
  | inl _ => False
  | inr (e, t) =>
      ~ guards_fail config /\ known_suite (env_suite config) = true
      /\ _create_env_from_config config ec false = inr e
      /\ (forall e', e <> NoAutoReset e')
      /\ t = mkTrainer config (rb_new config) 0 []
      /\ Trainer_init config = Ok t
  end.
Proof.
  unfold Trainer__init__, Trainer_init, init_checks, guards_fail.
  destruct (buffer_prefill config <=? 0) eqn:E1.
  { apply Z.leb_le in E1. left. exact E1. }
  apply Z.leb_gt in E1.
  destruct (Qltb 1 (pretrain_obs_p config + pretrain_dyn_p config)) eqn:E2.
  { apply Qltb_lt in E2. right. exact E2. }
  apply Qltb_ge in E2.
  assert (Hok : ~ (buffer_prefill config <= 0
                   \/ (1 < pretrain_obs_p config + pretrain_dyn_p config)%Q)).
  { intros [H|H]; [lia|lra]. }
  cbn [bind].
  unfold _create_env_from_config, known_suite.
  destruct (String.eqb (env_suite config) "atari");
    [repeat split; try assumption; intros e'; discriminate|].
  destruct (String.eqb (env_suite config) "d4rl");
    [repeat split; try assumption; intros e'; discriminate|].
  destruct (String.eqb (env_suite config) "d3rl");
    repeat split; try assumption; intros e'; discriminate.
Qed.

(** * Evaluation: scores are episode returns *)

Lemma nth_map_const {A C : Type} (c : C) (l : list A) (i : nat) :
  nth i (map (fun _ => c) l) c = c.
Proof. rewrite map_const_repeat. apply nth_repeat. Qed.

Section EpisodeReturns.

Variable eval_env : nat -> step_result.
Variable num_episodes : Z.
Variable num_envs : nat.

Lemma in_round_step (t0 : nat) (s s' : eval_state) :
  in_round eval_env num_envs t0 s ->
  clock s' = S (clock s) ->
  finished s' = mark_finished num_envs (finished s) (eval_env (clock s)) ->
  current_scores s'
  = add_rewards num_envs (current_scores s) (finished s)
                (rewards (eval_env (clock s))) ->
  in_round eval_env num_envs t0 s'.
Proof.
  intros [Ht0 Hin] Hc Hf Hs. split; [lia|]. intros i Hi.
  specialize (Hin i Hi). rewrite Hf, Hs, Hc.
  rewrite mark_finished_nth, add_rewards_nth by exact Hi.
  destruct (nth i (finished s) false).
  - destruct Hin as (k & Hk & Hfin & Hno & Hsum).
    exists k. repeat split; try assumption. lia.
  - destruct Hin as [Hno Hsum].
    assert (Hnow : (t0 + (clock s - t0) = clock s)%nat) by lia.
    destruct (finishes (eval_env (clock s)) i) eqn:Hfin.
    + exists (clock s - t0)%nat. rewrite Hnow.
      split; [lia|]. split; [exact Hfin|]. split.
      * intros j Hj. apply Hno. lia.
      * cbn [reward_sum]. rewrite Hnow, Hsum. reflexivity.
    + split.
      * intros j Hj. destruct (Nat.eq_dec (t0 + j) (clock s)) as [->|Hne];
          [exact Hfin|apply Hno; lia].
      * replace (S (clock s) - t0)%nat with (S (clock s - t0)) by lia.
        cbn [reward_sum]. rewrite Hnow, Hsum. reflexivity.
Qed.

Lemma in_round_complete (t0 : nat) (s : eval_state) :
  in_round eval_env num_envs t0 s ->
  np_all (finished s) = true ->
  List.length (finished s) = num_envs ->
  List.length (current_scores s) = num_envs ->
  round_returns eval_env num_envs (RoundScores (current_scores s)).
Proof.
  intros [_ Hin] Hall Hlf Hlc. split; [exact Hlc|]. exists t0. intros i Hi.
  specialize (Hin i Hi).
  rewrite (proj1 (np_all_nth _) Hall i) in Hin by lia.
  destruct Hin as (k & _ & Hfin & Hno & Hsum).
  exists k. repeat split; assumption.
Qed.

Lemma eval_body_returns (t0 : nat) (s : eval_state) :
  in_round eval_env num_envs t0 s ->
  Forall (round_returns eval_env num_envs) (eval_trace s) ->
  let r := eval_body eval_env num_episodes num_envs s in
  Forall (round_returns eval_env num_envs) (eval_trace (snd r))
  /\ (fst r = false -> exists t0', in_round eval_env num_envs t0' (snd r)).
Proof.
  intros Hin Htr. cbv zeta. unfold eval_body. cbv zeta.
  set (o := eval_env (clock s)).
  set (cur := add_rewards num_envs (current_scores s) (finished s) (rewards o)).
  set (fin := mark_finished num_envs (finished s) o).
  set (truncs := num_truncated s + count_truncated num_envs (finished s) o).
  assert (Hstep : forall sc tr,
            in_round eval_env num_envs t0
              (mkEval sc cur fin truncs (S (clock s)) tr))
    by (intros sc tr; apply (in_round_step t0 s); [exact Hin|reflexivity..]).
  assert (Hev : Forall (round_returns eval_env num_envs)
                       (eval_trace s ++ [EvalStep]))
    by (apply Forall_app; split; [exact Htr|repeat constructor]).
  destruct (np_all fin) eqn:Hall.
  - assert (Hround : round_returns eval_env num_envs (RoundScores cur)).
    { apply (in_round_complete t0 (mkEval [] cur fin truncs (S (clock s)) []));
        [apply Hstep|exact Hall| |].
      - apply mark_finished_length.
      - apply add_rewards_length. }
    assert (Hev2 : Forall (round_returns eval_env num_envs)
                          ((eval_trace s ++ [EvalStep]) ++ [RoundScores cur])).
    { apply Forall_app. split; [exact Hev|].
      apply Forall_cons; [exact Hround|apply Forall_nil]. }
    destruct (num_episodes <=? _); cbn [fst snd eval_trace].
    + split; [exact Hev2|discriminate].
    + split.
      * apply Forall_app. split; [exact Hev2|].
        apply Forall_cons; [exact I|apply Forall_nil].
      * intros _. exists (S (clock s)). split; [cbn [clock]; lia|].
        intros i Hi. cbn [finished current_scores clock].
        rewrite !nth_map_const, Nat.sub_diag. split; [|reflexivity].
        intros j Hj. lia.
  - cbn [fst snd eval_trace]. split; [exact Hev|].
    intros _. exists t0. apply Hstep.
Qed.

Lemma eval_loop_episode_returns (fuel : nat) : forall (t0 : nat) (s s' : eval_state),
  in_round eval_env num_envs t0 s ->
  Forall (round_returns eval_env num_envs) (eval_trace s) ->
  eval_loop eval_env fuel num_episodes num_envs s = Ok s' ->
  Forall (round_returns eval_env num_envs) (eval_trace s').
Proof.
  induction fuel as [|fuel IH]; intros t0 s s' Hin Htr Hl; [discriminate|].
  cbn [eval_loop] in Hl.
  destruct (_ <? num_episodes); [|injection Hl as <-; exact Htr].
  pose proof (eval_body_returns t0 s Hin Htr) as Hb. cbv zeta in Hb.
  destruct (eval_body eval_env num_episodes num_envs s) as [brk s1].
  cbn [fst snd] in Hb. destruct Hb as [Htr1 Hnext]. destruct brk.
  - injection Hl as <-. exact Htr1.
  - destruct (Hnext eq_refl) as [t1 Hin1]. eapply IH; eassumption.
Qed.

End EpisodeReturns.

Lemma in_firstn {A : Type} (n : nat) : forall (l : list A) (x : A),
  In x (firstn n l) -> In x l.
Proof.
  induction n as [|n IH]; intros [|y l] x H; try contradiction.
  cbn [firstn] in H. destruct H as [->|H]; [left; reflexivity|].
  right. apply IH, H.
Qed.

Lemma round_scores_in (tr : list eval_event) (x : Q) :
  In x (round_scores tr) ->
  exists cs, In (RoundScores cs) tr /\ In x cs.
Proof.
  unfold round_scores. rewrite in_flat_map. intros (e & He & Hx).
  destruct e as [|cs|fin]; try contradiction. eauto.
Qed.

(** Every score an evaluation returns is the return of one episode: for
    some round start [t0] and environment [i], the sum of the rewards [i]
    received from step [t0] up to and including the first step that
    finished it (truncation, or termination with no life left); rewards
    received after that step are not counted.  The scores of each round
    are such returns for one common start. *)
Theorem every_score_is_an_episode_return (cpu_count : Z)
  (compute_atari_hns : string -> Q -> Q) (eval_env : nat -> step_result)
  (config : Config) (is_final : bool) (fuel : nat) (s : eval_state)
  (m : score_metrics) :
  _evaluate cpu_count compute_atari_hns eval_env fuel config is_final
  = Ok (s, m) ->
  let num_envs :=
    Z.to_nat (num_envs_of cpu_count config (num_episodes_of config is_final)) in
  Forall (round_returns eval_env num_envs) (eval_trace s)
  /\ Forall (fun x => exists t0 i, (i < num_envs)%nat
                                   /\ episode_return eval_env t0 i x)
            (scores s).
Proof.
  intros He num_envs. unfold _evaluate in He. fold num_envs in He.
  set (N := num_episodes_of config is_final) in *.
  set (s0 := mkEval [] _ _ 0 0 []) in He.
  destruct (eval_loop eval_env fuel N num_envs s0) as [s1| |] eqn:Hl;
    try discriminate.
  cbn [bind] in He.
  destruct (aggregate compute_atari_hns config (scores s1))
    as [m1| |] eqn:Ha; try discriminate.
  cbn [bind] in He. injection He as <- <-.
  assert (HN : 0 < N).
  { destruct (Z_lt_le_dec 0 N) as [Hpos|Hle]; [exact Hpos|]. exfalso.
    destruct fuel as [|fuel]; [discriminate|]. cbn [eval_loop] in Hl.
    change (scores s0) with (@nil Q) in Hl. cbn [List.length] in Hl.
    destruct (Z.of_nat 0 <? N) eqn:E; [apply Z.ltb_lt in E; lia|].
    injection Hl as <-. discriminate. }
  assert (Hin0 : in_round eval_env num_envs 0 s0).
  { split; [cbn; lia|]. intros i Hi. cbn [s0 finished current_scores clock].
    rewrite !nth_repeat. split; [intros j Hj; lia|reflexivity]. }
  pose proof (eval_loop_episode_returns eval_env N num_envs fuel 0%nat s0 s1
                Hin0 (Forall_nil _) Hl) as Hret.
  split; [exact Hret|].
  destruct (eval_loop_final eval_env N num_envs fuel s0 s1) as (_ & Hsc & _);
    [split; [constructor|reflexivity]|cbn; lia|exact Hl|].
  rewrite Hsc. apply Forall_forall. intros x Hx.
  apply in_firstn, round_scores_in in Hx. destruct Hx as (cs & Hcs & Hxcs).
  rewrite Forall_forall in Hret. specialize (Hret _ Hcs).
  destruct Hret as (Hlen & t0 & Hall).
  destruct (In_nth _ _ 0%Q Hxcs) as (i & Hi & <-).
  exists t0, i. split; [lia|]. apply Hall. lia.
Qed.

(** An instance: two environments, the second finishing at every step and
    the first at every odd step; three episodes asked for. *)
Lemma every_score_is_an_episode_return_witness :
  let config := scenario 1 0 200 (6 # 10) (3 # 10) 3 2 true in
  let eval_env := fun t : nat => mkStep [1%Q; 10%Q] [Nat.odd t; true]
                                        [false; false] None in
  let hns := fun (_ : string) (x : Q) => x in
  let s := match _evaluate 4 hns eval_env 9 config false with
           | Ok (s, _) => s
           | _ => mkEval [] [] [] 0 0 []
           end in
  (scores s = [2%Q; 10%Q; 2%Q] /\ clock s = 4%nat)
  /\ Forall (round_returns eval_env 2) (eval_trace s)
  /\ Forall (fun x => exists t0 i, (i < 2)%nat
                                   /\ episode_return eval_env t0 i x)
            (scores s).
Proof.
  intros config eval_env hns s.
  split; [split; vm_compute; reflexivity|].
  destruct (_evaluate 4 hns eval_env 9 config false) as [[s1 m1]| |] eqn:He;
    [|vm_compute in He; discriminate|vm_compute in He; discriminate].
  apply (every_score_is_an_episode_return 4 hns eval_env config false 9%nat
           s1 m1).
  exact He.
Defined.
